(** * Cloud Functions of the İmtahan+ app: [functions/index.js]

    A shallow embedding of the four exported functions

    - [sendPushNotification]      (Firestore onCreate trigger),
    - [cleanupNotificationQueue]  (daily schedule),
    - [cleanupExpiredPosts]       (daily schedule),
    - [sendTestNotification]      (HTTPS endpoint),

    over an explicit model of what they talk to: the Firestore client, the
    FCM client and the console.  Every [await]ed call can resolve or reject;
    the embedding threads the list of calls made so far (and, for the two
    reapers, their [let]-bound locals) through a small state-and-exception
    monad, so that a [try]/[catch] keeps whatever the body did before it
    threw. *)

From stdpp Require Import base strings gmap list.
From Stdlib Require Import ZArith Lia.
From Stdlib Require DecimalString.

Local Open Scope Z_scope.
Local Open Scope string_scope.
Local Open Scope list_scope.

(** ** JavaScript values *)

Module JS.

(** The values a document field or a request field can hold, as far as
    the functions look at them: they test truthiness ([!x], [x || d]) and
    strict equality with a literal. *)
Inductive value :=
| VUndefined
| VNull
| VBool (b : bool)
| VNum (n : Z)
| VNaN
| VStr (s : string).

#[global] Instance value_eq_dec : EqDecision value.
Proof. solve_decision. Defined.

(** ToBoolean *)
Definition truthy (v : value) : bool :=
  match v with
  | VUndefined | VNull | VNaN => false
  | VBool b => b
  | VNum n => negb (Z.eqb n 0)
  | VStr s => negb (String.eqb s "")
  end.

(** [a || b] *)
Definition or_else (a b : value) : value := if truthy a then a else b.

(** [a === b] on these values ([NaN === NaN] is false). *)
Definition strict_eq (a b : value) : bool :=
  match a, b with
  | VNaN, _ | _, VNaN => false
  | _, _ => bool_decide (a = b)
  end.

(** What is thrown: an [Error] with its [message] and [code]. *)
Record error := { message : string; code : value }.

#[global] Instance error_eq_dec : EqDecision error.
Proof. solve_decision. Defined.

(** [n.toString()] for an integer [n] *)
Definition toString (n : Z) : string :=
  DecimalString.NilZero.string_of_int (Z.to_int n).

End JS.
Import JS.

(** ** Asynchronous code with mutable state and exceptions *)

Module Async.

Inductive completion (A : Type) :=
| Resolved (a : A)
| Rejected (e : error).
Arguments Resolved {A} a.
Arguments Rejected {A} e.

(** A computation over a state [S]; the state reached is kept when the
    computation throws. *)
Definition t (S A : Type) : Type := S -> completion A * S.

Definition ret {S A} (a : A) : t S A := fun s => (Resolved a, s).

Definition throw {S A} (e : error) : t S A := fun s => (Rejected e, s).

Definition bind {S A B} (m : t S A) (k : A -> t S B) : t S B :=
  fun s =>
    match m s with
    | (Resolved a, s') => k a s'
    | (Rejected e, s') => (Rejected e, s')
    end.

(** [try { body } catch (e) { handler e }] *)
Definition try_catch {S A} (body : t S A) (handler : error -> t S A) : t S A :=
  fun s =>
    match body s with
    | (Resolved a, s') => (Resolved a, s')
    | (Rejected e, s') => handler e s'
    end.

Definition get {S} : t S S := fun s => (Resolved s, s).
Definition modify {S} (f : S -> S) : t S unit := fun s => (Resolved tt, f s).

(** [for (const x of xs) { body x }] *)
Fixpoint for_of {S A} (xs : list A) (body : A -> t S unit) : t S unit :=
  match xs with
  | [] => ret tt
  | x :: xs' => bind (body x) (fun _ => for_of xs' body)
  end.

End Async.

Declare Scope async_scope.
Delimit Scope async_scope with async.
Notation "'let*' x ':=' m 'in' k" :=
  (Async.bind m (fun x => k))
  (at level 10, x name, m at level 100, k at level 200) : async_scope.
Notation "m ';;' k" :=
  (Async.bind m (fun _ => k))
  (at level 100, k at level 200, right associativity) : async_scope.

Import Async.

(** ** The Firestore client, as far as the functions use it *)

Module Firestore.

(** A value written into a field by [update] or [add]: a literal, or one
    of the two [FieldValue] sentinels. *)
Inductive field_value :=
| Lit (v : value)
| MapValue (m : gmap string value)
| ServerTimestamp            (* FieldValue.serverTimestamp() *)
| FieldDelete.               (* FieldValue.delete() *)

#[global] Instance field_value_eq_dec : EqDecision field_value.
Proof. solve_decision. Defined.

(** An object literal handed to [update]: its fields in source order. *)
Definition fields := list (string * field_value).

(** [Timestamp]s, in nanoseconds since the epoch. *)
Definition Timestamp := Z.

(** [Timestamp.fromDate(new Date(ms))] *)
Definition Timestamp_fromMillis (ms : Z) : Timestamp := ms * 1000000.

(** [query.limit(n)] *)
Definition limit {A} (n : nat) (docs : list A) : list A := firstn n docs.

(** Document references, by path. *)
Inductive ref :=
| QueueDoc (id : string)                  (* push_notifications_queue/{id} *)
| QuestionDoc (id : string)               (* questions/{id} *)
| AnswerDoc (question answer : string).   (* questions/{id}/answers/{id} *)

#[global] Instance ref_eq_dec : EqDecision ref.
Proof. solve_decision. Defined.

(** The question a reference lies under. *)
Definition owner (r : ref) : option string :=
  match r with
  | QuestionDoc q | AnswerDoc q _ => Some q
  | QueueDoc _ => None
  end.

(** A [WriteBatch] of the client library (firebase-admin's Firestore): the
    operations queued on it, and whether [commit()] has been called on it.
    The library marks the batch committed as soon as [commit()] is called,
    whatever the commit comes back with, and from then on [delete] throws
    instead of queueing; [commit()] itself may be called again and sends the
    same operations. *)
Record WriteBatch := { ops : list ref; committed : bool }.

(** [db.batch()] *)
Definition batch_new : WriteBatch := {| ops := []; committed := false |}.

Definition batch_sealed : error :=
  {| message := "Cannot modify a WriteBatch that has been committed.";
     code := VUndefined |}.

(** [batch.delete(r)] *)
Definition batch_delete (b : WriteBatch) (r : ref) : error + WriteBatch :=
  if committed b then inl batch_sealed
  else inr {| ops := ops b ++ [r]; committed := false |}.

(** The batch once [commit()] has been called on it. *)
Definition batch_seal (b : WriteBatch) : WriteBatch :=
  {| ops := ops b; committed := true |}.

Definition settle (r : option error) : completion unit :=
  match r with None => Resolved tt | Some e => Rejected e end.

End Firestore.
Import Firestore.

(** ** NotificationDispatcher: [exports.sendPushNotification] *)

Module Dispatcher.

(** [snap.data()]: the fields of the created outbox document that the
    handler destructures.  [data] is the caller-supplied map when the
    field holds one, and [None] when it is absent ([...undefined] spreads
    no key). *)
Record OutboxRecord := {
  sent : value;
  user_id : value;
  fcm_token : value;
  title : value;
  body : value;
  data : option (gmap string value)
}.

Record AndroidConfig := {
  priority : string;
  sound : string;
  channelId : string;
  clickAction : string
}.

Record ApnsConfig := { aps_sound : string; aps_badge : Z }.

(** The object handed to [admin.messaging().send]. *)
Record Message := {
  notification_title : value;
  notification_body : value;
  msg_data : gmap string value;
  token : value;
  android : AndroidConfig;
  apns : ApnsConfig
}.

(** The lines the handler writes to the console. *)
Inductive log :=
| AlreadySent (notificationId : string)
| NoToken (uid : value)
| Sent (uid : value) (response : string)
| SendError (uid : value) (e : error)
| InvalidToken (uid : value)
| RemoveTokenError (e : error).

(** The calls of one invocation, each with what it came back with. *)
Inductive event :=
| Console (l : log)
| RecordUpdate (f : fields) (r : option error)        (* snap.ref.update(f) *)
| MessagingSend (m : Message) (r : error + string)    (* admin.messaging().send(m) *)
| ProfileUpdate (uid : value) (f : fields) (r : option error).
                                  (* collection('profiles').doc(uid).update(f) *)

(** What the outside answers during one invocation: the clock, the push
    provider, the store on the [k]-th update of the outbox record, and the
    store on the profile update.  [None] is a resolved promise. *)
Record env := {
  Date_now : Z;
  messaging_send : Message -> error + string;
  ref_update : nat -> fields -> option error;
  profile_update : value -> fields -> option error
}.

Definition is_record_update (ev : event) : bool :=
  match ev with RecordUpdate _ _ => true | _ => false end.

Definition is_provider_call (ev : event) : bool :=
  match ev with MessagingSend _ _ => true | _ => false end.

Definition is_store_write (ev : event) : bool :=
  match ev with RecordUpdate _ _ | ProfileUpdate _ _ _ => true | _ => false end.

Definition console (l : log) : Async.t (list event) unit :=
  modify (fun tr => tr ++ [Console l]).

Definition snap_ref_update (E : env) (f : fields) : Async.t (list event) unit :=
  fun tr =>
    let r := ref_update E (length (List.filter is_record_update tr)) f in
    (settle r, tr ++ [RecordUpdate f r]).

Definition send (E : env) (m : Message) : Async.t (list event) string :=
  fun tr =>
    let r := messaging_send E m in
    (match r with inl e => Rejected e | inr id => Resolved id end,
     tr ++ [MessagingSend m r]).

Definition profiles_doc_update (E : env) (uid : value) (f : fields)
  : Async.t (list event) unit :=
  fun tr =>
    let r := profile_update E uid f in
    (settle r, tr ++ [ProfileUpdate uid f r]).

(** [{ ...data }] *)
Definition spread (d : option (gmap string value)) : gmap string value :=
  match d with Some m => m | None => ∅ end.

(** The [message] literal of lines 39-67. *)
Definition build_message (E : env) (r : OutboxRecord) (notificationId : string)
  : Message :=
  {| notification_title := or_else (title r) (VStr "İmtahan+");
     notification_body := or_else (body r) (VStr "");
     msg_data :=
       <["timestamp" := VStr (toString (Date_now E))]>
         (<["userId" := user_id r]>
            (<["notificationId" := VStr notificationId]> (spread (data r))));
     token := fcm_token r;
     android :=
       {| priority := "high";
          sound := "default";
          channelId := "imtahan_plus_notifications";
          clickAction := "FLUTTER_NOTIFICATION_CLICK" |};
     apns := {| aps_sound := "default"; aps_badge := 1 |} |}.

Definition invalid_token_code (c : value) : bool :=
  strict_eq c (VStr "messaging/invalid-registration-token")
  || strict_eq c (VStr "messaging/registration-token-not-registered").

(** The object literals of the four [update] calls (lines 29-33, 74-78,
    85-89 and 99-101). *)
Definition no_token_fields : fields :=
  [("sent", Lit (VBool true));
   ("error", Lit (VStr "No FCM token"));
   ("sent_at", ServerTimestamp)].

Definition delivered_fields (response : string) : fields :=
  [("sent", Lit (VBool true));
   ("sent_at", ServerTimestamp);
   ("fcm_response", Lit (VStr response))].

Definition failed_fields (error : JS.error) : fields :=
  [("sent", Lit (VBool true));
   ("error", Lit (VStr (message error)));
   ("sent_at", ServerTimestamp)].

Definition token_delete_fields : fields := [("fcm_token", FieldDelete)].

Definition sendPushNotification (E : env) (snap : OutboxRecord)
    (notificationId : string) : Async.t (list event) unit :=
  (if strict_eq (sent snap) (VBool true) then
     console (AlreadySent notificationId) ;;
     ret tt
   else if negb (truthy (fcm_token snap)) then
     console (NoToken (user_id snap)) ;;
     snap_ref_update E no_token_fields ;;
     ret tt
   else
     try_catch
       (let message := build_message E snap notificationId in
        let* response := send E message in
        console (Sent (user_id snap) response) ;;
        snap_ref_update E (delivered_fields response) ;;
        ret tt)
       (fun error =>
          console (SendError (user_id snap) error) ;;
          snap_ref_update E (failed_fields error) ;;
          (if invalid_token_code (code error) then
             console (InvalidToken (user_id snap)) ;;
             try_catch
               (profiles_doc_update E (user_id snap) token_delete_fields)
               (fun updateError => console (RemoveTokenError updateError))
           else ret tt) ;;
          ret tt))%async.

(** One invocation, from an empty history. *)
Definition run (E : env) (snap : OutboxRecord) (notificationId : string)
  : completion unit * list event :=
  sendPushNotification E snap notificationId [].

Definition record_updates (tr : list event) : list event :=
  List.filter is_record_update tr.

Definition provider_calls (tr : list event) : list event :=
  List.filter is_provider_call tr.

Definition store_writes (tr : list event) : list event :=
  List.filter is_store_write tr.

Definition is_profile_update (ev : event) : bool :=
  match ev with ProfileUpdate _ _ _ => true | _ => false end.

Definition profile_updates (tr : list event) : list event :=
  List.filter is_profile_update tr.

(** An update of the outbox record that resolved and set [sent: true]. *)
Definition is_terminal_write (ev : event) : bool :=
  match ev with
  | RecordUpdate f None => bool_decide (("sent", Lit (VBool true)) ∈ f)
  | _ => false
  end.

(** What the [catch] block of lines 81-108 adds to the history, given the
    error caught and the outcome [r] of its update of the outbox record. *)
Definition catch_events (E : env) (snap : OutboxRecord)
    (error : JS.error) (r : option JS.error) : list event :=
  [Console (SendError (user_id snap) error);
   RecordUpdate (failed_fields error) r]
  ++ match r with
     | Some _ => []
     | None =>
         if invalid_token_code (code error) then
           let p := profile_update E (user_id snap) token_delete_fields in
           [Console (InvalidToken (user_id snap));
            ProfileUpdate (user_id snap) token_delete_fields p]
           ++ match p with
              | Some u => [Console (RemoveTokenError u)]
              | None => []
              end
         else []
     end.

End Dispatcher.

(** ** QueueReaper: [exports.cleanupNotificationQueue] *)

Module QueueReaper.

(** A document of [push_notifications_queue], as the query sees it:
    [sent_at] is [None] when the field is absent or not a timestamp. *)
Record QueueDocument := {
  id : string;
  sent : value;
  sent_at : option Timestamp
}.

Inductive log := Cleaned (deletedCount : nat).

Inductive event :=
| Console (l : log)
| QueryGet (r : option error)                  (* query.get() *)
| Commit (deletes : list ref) (r : option error).  (* batch.commit() *)

(** The clock, the collection (in the order the query returns documents)
    and the outcome of the two awaited calls. *)
Record env := {
  Date_now : Z;
  queue : list QueueDocument;
  query_get : option error;
  batch_commit : option error
}.

(** [.where('sent', '==', true)] *)
Definition where_sent_true (docs : list QueueDocument) : list QueueDocument :=
  List.filter (fun d => strict_eq (sent d) (VBool true)) docs.

(** [.where('sent_at', '<', t)] *)
Definition where_sent_at_lt (t : Timestamp) (docs : list QueueDocument)
  : list QueueDocument :=
  List.filter
    (fun d => match sent_at d with Some s => Z.ltb s t | None => false end) docs.

(** The function's [let]/[const] locals. *)
Record locals := { batch : WriteBatch; deletedCount : nat }.

Definition state : Type := locals * list event.

Definition console (l : log) : Async.t state unit :=
  modify (fun '(v, tr) => (v, tr ++ [Console l])).

Definition get_old (E : env) (oneDayAgo : Timestamp)
  : Async.t state (list QueueDocument) :=
  fun '(v, tr) =>
    let r := query_get E in
    (match r with
     | None =>
         Resolved
           (limit 500 (where_sent_at_lt oneDayAgo (where_sent_true (queue E))))
     | Some e => Rejected e
     end, (v, tr ++ [QueryGet r])).

Definition delete (r : ref) : Async.t state unit :=
  fun '(v, tr) =>
    match batch_delete (batch v) r with
    | inl e => (Rejected e, (v, tr))
    | inr b => (Resolved tt, ({| batch := b; deletedCount := deletedCount v |}, tr))
    end.

Definition incr_deletedCount : Async.t state unit :=
  modify (fun '(v, tr) =>
            ({| batch := batch v; deletedCount := S (deletedCount v) |}, tr)).

Definition commit (E : env) : Async.t state unit :=
  fun '(v, tr) =>
    let r := batch_commit E in
    (settle r,
     ({| batch := batch_seal (batch v); deletedCount := deletedCount v |},
      tr ++ [Commit (ops (batch v)) r])).

Definition cleanupNotificationQueue (E : env) : Async.t state unit :=
  (let oneDayAgo := Timestamp_fromMillis (Date_now E - 24 * 60 * 60 * 1000) in
   let* oldNotifications := get_old E oneDayAgo in
   for_of oldNotifications
     (fun doc => delete (QueueDoc (id doc)) ;; incr_deletedCount) ;;
   let* s := get in
   (if Nat.ltb 0 (deletedCount (fst s)) then
      commit E ;;
      console (Cleaned (deletedCount (fst s)))
    else ret tt) ;;
   ret tt)%async.

Definition run (E : env) : completion unit * list event :=
  let '(c, (_, tr)) :=
    cleanupNotificationQueue E ({| batch := batch_new; deletedCount := 0 |}, [])
  in (c, tr).

(** The documents a history has removed from the store: those of every
    batch whose commit resolved. *)
Definition deleted (tr : list event) : list ref :=
  flat_map
    (fun ev => match ev with Commit d None => d | _ => [] end) tr.

Definition commits (tr : list event) : list (list ref) :=
  flat_map (fun ev => match ev with Commit d _ => [d] | _ => [] end) tr.

Definition doc_ref (d : QueueDocument) : ref := QueueDoc (id d).

(** The documents the query of lines 119-128 resolves with. *)
Definition matched (E : env) : list QueueDocument :=
  limit 500
    (where_sent_at_lt
       (Timestamp_fromMillis (Date_now E - 24 * 60 * 60 * 1000))
       (where_sent_true (queue E))).

(** The collection after a run: the documents whose delete was committed
    are gone. *)
Definition after (E : env) (removed : list ref) : env :=
  {| Date_now := Date_now E;
     queue := List.filter (fun d => negb (bool_decide (doc_ref d ∈ removed))) (queue E);
     query_get := query_get E;
     batch_commit := batch_commit E |}.

End QueueReaper.

(** ** ContentReaper: [exports.cleanupExpiredPosts] *)

Module ContentReaper.

(** A document of [questions] with the ids of the documents of its
    [answers] sub-collection; [expires_at] is [None] when the field is
    absent or not a timestamp. *)
Record Question := {
  id : string;
  expires_at : option Timestamp;
  answers : list string
}.

Inductive log :=
| Starting
| NothingExpired
| Found (size : nat)
| Progress (deletedCount totalAnswersDeleted : nat)
| PostError (id : string) (e : error)
| Finished (deletedCount totalAnswersDeleted : nat).

Inductive event :=
| Console (l : log)
| QuestionsGet (r : option error)              (* the expired-questions query *)
| AnswersGet (question : string) (r : option error)
                                    (* doc.ref.collection('answers').get() *)
| Commit (deletes : list ref) (r : option error).   (* batch.commit() *)

(** The clock, the collection (in the order the query returns documents),
    and the outcome of each awaited call: the query, the read of a
    question's answers, and the [k]-th [commit()] of the run. *)
Record env := {
  Timestamp_now : Timestamp;
  questions : list Question;
  questions_get : option error;
  answers_get : string -> option error;
  batch_commit : nat -> option error
}.

(** [.where('expires_at', '<', t)] *)
Definition where_expires_at_lt (t : Timestamp) (docs : list Question)
  : list Question :=
  List.filter
    (fun d => match expires_at d with Some x => Z.ltb x t | None => false end) docs.

Record locals := {
  batch : WriteBatch;
  batchOperations : nat;
  deletedCount : nat;
  totalAnswersDeleted : nat
}.

Definition MAX_BATCH_SIZE : nat := 500.

Definition state : Type := locals * list event.

Definition is_commit (ev : event) : bool :=
  match ev with Commit _ _ => true | _ => false end.

Definition console (l : log) : Async.t state unit :=
  modify (fun '(v, tr) => (v, tr ++ [Console l])).

Definition get_expired (E : env) : Async.t state (list Question) :=
  fun '(v, tr) =>
    let r := questions_get E in
    (match r with
     | None =>
         Resolved (limit 500 (where_expires_at_lt (Timestamp_now E) (questions E)))
     | Some e => Rejected e
     end, (v, tr ++ [QuestionsGet r])).

Definition get_answers (E : env) (doc : Question) : Async.t state (list string) :=
  fun '(v, tr) =>
    let r := answers_get E (id doc) in
    (match r with None => Resolved (answers doc) | Some e => Rejected e end,
     (v, tr ++ [AnswersGet (id doc) r])).

Definition set_batch (b : WriteBatch) (v : locals) : locals :=
  {| batch := b;
     batchOperations := batchOperations v;
     deletedCount := deletedCount v;
     totalAnswersDeleted := totalAnswersDeleted v |}.

Definition set_batchOperations (n : nat) (v : locals) : locals :=
  {| batch := batch v;
     batchOperations := n;
     deletedCount := deletedCount v;
     totalAnswersDeleted := totalAnswersDeleted v |}.

Definition set_deletedCount (n : nat) (v : locals) : locals :=
  {| batch := batch v;
     batchOperations := batchOperations v;
     deletedCount := n;
     totalAnswersDeleted := totalAnswersDeleted v |}.

Definition set_totalAnswersDeleted (n : nat) (v : locals) : locals :=
  {| batch := batch v;
     batchOperations := batchOperations v;
     deletedCount := deletedCount v;
     totalAnswersDeleted := n |}.

Definition assign (f : locals -> locals) : Async.t state unit :=
  modify (fun '(v, tr) => (f v, tr)).

(** [batch.delete(r)] on the current batch *)
Definition delete (r : ref) : Async.t state unit :=
  fun '(v, tr) =>
    match batch_delete (batch v) r with
    | inl e => (Rejected e, (v, tr))
    | inr b => (Resolved tt, (set_batch b v, tr))
    end.

(** [await batch.commit()] on the current batch *)
Definition commit (E : env) : Async.t state unit :=
  fun '(v, tr) =>
    let r := batch_commit E (length (List.filter is_commit tr)) in
    (settle r,
     (set_batch (batch_seal (batch v)) v, tr ++ [Commit (ops (batch v)) r])).

(** The [if (batchOperations >= MAX_BATCH_SIZE) { ... }] of lines 191-196
    and 205-210. *)
Definition flush_if_full (E : env) : Async.t state unit :=
  (let* s := get in
   if Nat.leb MAX_BATCH_SIZE (batchOperations (fst s)) then
     commit E ;;
     let* s := get in
     console (Progress (deletedCount (fst s)) (totalAnswersDeleted (fst s))) ;;
     assign (set_batch batch_new) ;;
     assign (set_batchOperations 0)
   else ret tt)%async.

(** The body of the [try] of lines 181-210, for one question. *)
Definition delete_question (E : env) (doc : Question) : Async.t state unit :=
  (let* answersSnapshot := get_answers E doc in
   for_of answersSnapshot
     (fun answerDoc =>
        delete (AnswerDoc (id doc) answerDoc) ;;
        assign (fun v => set_batchOperations (S (batchOperations v)) v) ;;
        assign (fun v => set_totalAnswersDeleted (S (totalAnswersDeleted v)) v) ;;
        flush_if_full E) ;;
   delete (QuestionDoc (id doc)) ;;
   assign (fun v => set_batchOperations (S (batchOperations v)) v) ;;
   assign (fun v => set_deletedCount (S (deletedCount v)) v) ;;
   flush_if_full E)%async.

(** The [for] loop of lines 180-215. *)
Definition delete_questions (E : env) (docs : list Question) : Async.t state unit :=
  for_of docs
    (fun doc =>
       try_catch (delete_question E doc)
         (fun error => console (PostError (id doc) error))).

Definition cleanupExpiredPosts (E : env) : Async.t state unit :=
  (console Starting ;;
   let* expiredQuestions := get_expired E in
   match expiredQuestions with
   | [] =>
       console NothingExpired ;;
       ret tt
   | _ =>
       console (Found (length expiredQuestions)) ;;
       delete_questions E expiredQuestions ;;
       let* s := get in
       (if Nat.ltb 0 (batchOperations (fst s)) then
          commit E ;;
          console (Finished (deletedCount (fst s)) (totalAnswersDeleted (fst s)))
        else if Nat.ltb 0 (deletedCount (fst s)) then
          console (Finished (deletedCount (fst s)) (totalAnswersDeleted (fst s)))
        else ret tt) ;;
       ret tt
   end)%async.

Definition init : locals :=
  {| batch := batch_new;
     batchOperations := 0;
     deletedCount := 0;
     totalAnswersDeleted := 0 |}.

Definition run (E : env) : completion unit * list event :=
  let '(c, (_, tr)) := cleanupExpiredPosts E (init, []) in (c, tr).

(** The operations of every [commit()] a history holds, in order. *)
Definition commits (tr : list event) : list (list ref) :=
  flat_map (fun ev => match ev with Commit d _ => [d] | _ => [] end) tr.

(** The documents a history has removed from the store: those of every
    batch whose commit resolved. *)
Definition deleted (tr : list event) : list ref :=
  flat_map (fun ev => match ev with Commit d None => d | _ => [] end) tr.

(** The questions whose answers a history has asked for, in order. *)
Definition answers_reads (tr : list event) : list string :=
  flat_map (fun ev => match ev with AnswersGet q _ => [q] | _ => [] end) tr.

(** The documents the query of lines 161-164 resolves with. *)
Definition matched (E : env) : list Question :=
  limit 500 (where_expires_at_lt (Timestamp_now E) (questions E)).

(** The references of a question's answers, and of the question. *)
Definition answer_refs (q : Question) : list ref :=
  map (AnswerDoc (id q)) (answers q).

Definition question_refs (q : Question) : list ref :=
  answer_refs q ++ [QuestionDoc (id q)].

(** What processing a question queues: the question and its answers when
    the read of the answers resolves, nothing when it is rejected. *)
Definition cascade (E : env) (q : Question) : list ref :=
  match answers_get E (id q) with
  | None => question_refs q
  | Some _ => []
  end.

(** One queued delete with its counters and its cap check, the shape
    shared by lines 186-196 (with [bump] counting an answer) and lines
    200-210 (with [bump] counting a question). *)
Definition queue_op (E : env) (r : ref) (bump : locals -> locals)
  : Async.t state unit :=
  (delete r ;;
   assign (fun v => set_batchOperations (S (batchOperations v)) v) ;;
   assign bump ;;
   flush_if_full E)%async.

Definition count_answer (v : locals) : locals :=
  set_totalAnswersDeleted (S (totalAnswersDeleted v)) v.

Definition count_question (v : locals) : locals :=
  set_deletedCount (S (deletedCount v)) v.

(** The questions a history has logged a failure for. *)
Definition post_errors (tr : list event) : list string :=
  flat_map (fun ev => match ev with Console (PostError q _) => [q] | _ => [] end) tr.

(** A batch the store accepts. *)
Definition capped (d : list ref) : Prop := (length d <= MAX_BATCH_SIZE)%nat.

(** A stretch of history in which no answers are read and no failure is
    logged, and whose commits respect the cap. *)
Definition quiet (ext : list event) : Prop :=
  Forall capped (commits ext) /\ answers_reads ext = [] /\ post_errors ext = [].

(** What a state has queued or removed so far. *)
Definition reach (s : state) : list ref :=
  deleted (snd s) ++ ops (batch (fst s)).

(** The counter agrees with the batch, and an open batch is below the cap. *)
Definition consistent (v : locals) : Prop :=
  length (ops (batch v)) = batchOperations v
  /\ (batchOperations v <= MAX_BATCH_SIZE)%nat
  /\ (committed (batch v) = false -> (batchOperations v < MAX_BATCH_SIZE)%nat).

(** The four ways one queued delete can go: refused by a committed batch;
    queued below the cap; queued as the 500th operation and committed; queued
    as the 500th operation with the commit rejected. *)
Inductive queue_op_outcome (E : env) (r : ref) (v : locals) (tr : list event)
  : completion unit -> locals -> list event -> Prop :=
| refused :
    committed (batch v) = true ->
    queue_op_outcome E r v tr (Rejected batch_sealed) v tr
| queued v' :
    committed (batch v) = false ->
    (S (batchOperations v) < MAX_BATCH_SIZE)%nat ->
    batch v' = {| ops := ops (batch v) ++ [r]; committed := false |} ->
    batchOperations v' = S (batchOperations v) ->
    queue_op_outcome E r v tr (Resolved tt) v' tr
| flushed v' d a :
    committed (batch v) = false ->
    S (batchOperations v) = MAX_BATCH_SIZE ->
    batch_commit E (length (List.filter is_commit tr)) = None ->
    batch v' = batch_new ->
    batchOperations v' = 0%nat ->
    queue_op_outcome E r v tr (Resolved tt) v'
      (tr ++ [Commit (ops (batch v) ++ [r]) None; Console (Progress d a)])
| flush_failed v' e :
    committed (batch v) = false ->
    S (batchOperations v) = MAX_BATCH_SIZE ->
    batch_commit E (length (List.filter is_commit tr)) = Some e ->
    batch v' = {| ops := ops (batch v) ++ [r]; committed := true |} ->
    batchOperations v' = MAX_BATCH_SIZE ->
    queue_op_outcome E r v tr (Rejected e) v'
      (tr ++ [Commit (ops (batch v) ++ [r]) (Some e)]).

(** Commits of exactly [MAX_BATCH_SIZE] operations. *)
Definition full_commits (ext : list event) : Prop :=
  Forall (fun d : list ref => length d = MAX_BATCH_SIZE) (commits ext).

(** What lines 217-223 add to the history after the loop, and how the run
    ends, from the locals [v] and the history [tr] the loop leaves. *)
Definition closing (E : env) (v : locals) (tr : list event)
  : completion unit * list event :=
  if Nat.ltb 0 (batchOperations v) then
    let r := batch_commit E (length (List.filter is_commit tr)) in
    (settle r,
     Commit (ops (batch v)) r
       :: match r with
          | None => [Console (Finished (deletedCount v) (totalAnswersDeleted v))]
          | Some _ => []
          end)
  else if Nat.ltb 0 (deletedCount v) then
    (Resolved tt, [Console (Finished (deletedCount v) (totalAnswersDeleted v))])
  else (Resolved tt, []).

(** The history of a run up to its loop. *)
Definition opening (E : env) : list event :=
  [Console Starting; QuestionsGet None; Console (Found (length (matched E)))].

(** What the loop logs and reads for a question once the current batch has
    been committed: the read, and the failure of the read or of the first
    delete. *)
Definition refused_events (E : env) (q : Question) : list event :=
  [AnswersGet (id q) (answers_get E (id q));
   Console (PostError (id q)
              match answers_get E (id q) with
              | Some e => e
              | None => batch_sealed
              end)].

(** A question the query matches. *)
Definition expired (E : env) (q : Question) : Prop :=
  exists x, expires_at q = Some x /\ x < Timestamp_now E.

(** The operations of the first rejected commit of a history, and the
    history that follows it. *)
Fixpoint after_rejection (tr : list event) : option (list ref * list event) :=
  match tr with
  | [] => None
  | Commit d (Some _) :: rest => Some (d, rest)
  | _ :: rest => after_rejection rest
  end.

(** How a part of the loop that started on an open batch has gone: no
    commit was rejected and the batch is open, or the part ended with a
    rejected commit, which it threw, leaving the committed batch current. *)
Definition open_or_rejected (ext : list event) (c : completion unit) (v : locals)
  : Prop :=
  (after_rejection ext = None /\ committed (batch v) = false)
  \/ (exists d e,
        after_rejection ext = Some (d, [])
        /\ c = Rejected e
        /\ committed (batch v) = true
        /\ ops (batch v) = d).

(** The question documents and the answer documents among references. *)
Definition is_question_ref (r : ref) : bool :=
  match r with QuestionDoc _ => true | _ => false end.

Definition is_answer_ref (r : ref) : bool :=
  match r with AnswerDoc _ _ => true | _ => false end.

Definition questions_in (l : list ref) : nat :=
  length (List.filter is_question_ref l).

Definition answers_in (l : list ref) : nat :=
  length (List.filter is_answer_ref l).

(** The counts a history logs (lines 193, 207, 219 and 221), each with the
    documents removed before the line was logged; [seen] is what was removed
    before the history. *)
Fixpoint reports (seen : list ref) (tr : list event)
  : list (nat * nat * list ref) :=
  match tr with
  | [] => []
  | Commit d None :: rest => reports (seen ++ d) rest
  | Console (Progress q a) :: rest => (q, a, seen) :: reports seen rest
  | Console (Finished q a) :: rest => (q, a, seen) :: reports seen rest
  | _ :: rest => reports seen rest
  end.

(** A logged pair of counts that is what has been removed. *)
Definition report_ok (x : nat * nat * list ref) : Prop :=
  fst (fst x) = questions_in (snd x) /\ snd (fst x) = answers_in (snd x).

(** The two counters are the question and answer documents queued or
    removed so far, and every count logged so far was right. *)
Definition tallied (s : state) : Prop :=
  consistent (fst s)
  /\ deletedCount (fst s) = questions_in (reach s)
  /\ totalAnswersDeleted (fst s) = answers_in (reach s)
  /\ Forall report_ok (reports [] (snd s)).

(** The operations of the commits a history shows rejected. *)
Definition rejected_ops (tr : list event) : list ref :=
  flat_map (fun ev => match ev with Commit d (Some _) => d | _ => [] end) tr.

(** No rejected commit of the history carried the delete of the question
    or of one of its answers. *)
Definition intact (tr : list event) (q : Question) : Prop :=
  forall r, In r (rejected_ops tr) -> owner r <> Some (id q).

(** Queueing the deletes [refs], in order, from [s] on an open batch: all
    of them are queued, in which case the batch is open again and no commit
    was rejected; or a commit is rejected and thrown, when a first part of
    them is queued, the last of which the rejected commit carries, and the
    committed batch stays current. *)
Definition queued_all (refs : list ref) (s : state) (c : completion unit)
    (s' : state) : Prop :=
  exists added ext,
    snd s' = snd s ++ ext
    /\ reach s' = reach s ++ added
    /\ ((c = Resolved tt /\ added = refs
         /\ committed (batch (fst s')) = false /\ rejected_ops ext = [])
        \/ (exists e k r,
              c = Rejected e /\ refs = added ++ k
              /\ In r added /\ In r (rejected_ops ext)
              /\ committed (batch (fst s')) = true)).

(** What processing one question has queued: a first part of its
    references; all of them, none of them, or a part that a rejected commit
    carried. *)
Definition chunk_of (rej : list ref) (q : Question) (chunk : list ref) : Prop :=
  (exists k, question_refs q = chunk ++ k)
  /\ (chunk = question_refs q \/ chunk = []
      \/ exists r, In r chunk /\ In r rej).

(** The loop over [docs] from [s] to [s']: what it has queued or removed
    is one chunk per question, in order. *)
Definition chunked (docs : list Question) (s s' : state) : Prop :=
  exists chunks ext,
    snd s' = snd s ++ ext
    /\ reach s' = reach s ++ concat chunks
    /\ Forall2 (chunk_of (rejected_ops ext)) docs chunks.

End ContentReaper.

(** ** ManualEnqueue: [exports.sendTestNotification] *)

Module ManualEnqueue.

(** [req.body], an object: the four members the handler destructures.
    [data] is the member when it is an object, [None] when it is absent. *)
Record Body := {
  userId : value;
  title : value;
  body : value;
  data : option (gmap string value)
}.

Record Request := { method : string; req_body : Body }.

(** What [res.send] or [res.json] is given. *)
Inductive payload :=
| Text (s : string)
| Json (o : list (string * value)).

Record Response := {
  headers : list (string * string);
  status : Z;
  sent_payload : payload
}.

(** [userDoc]: [userDoc.exists] and [userDoc.data()?.fcm_token]. *)
Record ProfileSnapshot := { exists_ : bool; fcm_token : value }.

Inductive log := HandlerError (e : error).

Inductive event :=
| Console (l : log)
| ProfileGet (uid : value) (r : error + ProfileSnapshot)
                                (* collection('profiles').doc(uid).get() *)
| QueueAdd (doc : fields) (r : option error).
                                (* collection('push_notifications_queue').add(doc) *)

Record env := {
  profile_get : value -> error + ProfileSnapshot;
  queue_add : fields -> option error
}.

Definition console (l : log) : Async.t (list event) unit :=
  modify (fun tr => tr ++ [Console l]).

Definition get_profile (E : env) (uid : value)
  : Async.t (list event) ProfileSnapshot :=
  fun tr =>
    let r := profile_get E uid in
    (match r with inl e => Rejected e | inr d => Resolved d end,
     tr ++ [ProfileGet uid r]).

Definition add (E : env) (doc : fields) : Async.t (list event) unit :=
  fun tr =>
    let r := queue_add E doc in
    (settle r, tr ++ [QueueAdd doc r]).

(** The three [res.set] calls of lines 235-237. *)
Definition cors : list (string * string) :=
  [("Access-Control-Allow-Origin", "*");
   ("Access-Control-Allow-Methods", "GET, POST, OPTIONS");
   ("Access-Control-Allow-Headers", "Content-Type")].

Definition respond (code : Z) (p : payload) : Response :=
  {| headers := cors; status := code; sent_payload := p |}.

(** [data || {}] *)
Definition data_or_empty (d : option (gmap string value)) : gmap string value :=
  match d with Some m => m | None => ∅ end.

(** The document literal of lines 276-284. *)
Definition new_outbox_document (b : Body) (fcmToken : value) : fields :=
  [("user_id", Lit (userId b));
   ("fcm_token", Lit fcmToken);
   ("title", Lit (or_else (title b) (VStr "Test Notification")));
   ("body", Lit (or_else (body b) (VStr "This is a test notification")));
   ("data", MapValue (data_or_empty (data b)));
   ("created_at", ServerTimestamp);
   ("sent", Lit (VBool false))].

Definition sendTestNotification (E : env) (req : Request)
  : Async.t (list event) Response :=
  (if String.eqb (method req) "OPTIONS" then
     ret (respond 204 (Text ""))
   else if negb (String.eqb (method req) "POST") then
     ret (respond 405 (Text "Method Not Allowed"))
   else
     try_catch
       (let b := req_body req in
        if negb (truthy (userId b)) then
          ret (respond 400 (Json [("error", VStr "userId is required")]))
        else
          let* userDoc := get_profile E (userId b) in
          if negb (exists_ userDoc) then
            ret (respond 404 (Json [("error", VStr "User not found")]))
          else
            let fcmToken := fcm_token userDoc in
            if negb (truthy fcmToken) then
              ret (respond 400 (Json [("error", VStr "User has no FCM token")]))
            else
              add E (new_outbox_document b fcmToken) ;;
              ret (respond 200
                     (Json [("success", VBool true);
                            ("message", VStr "Notification queued for sending")])))
       (fun error =>
          console (HandlerError error) ;;
          ret (respond 500 (Json [("error", VStr (message error))]))))%async.

Definition run (E : env) (req : Request) : completion Response * list event :=
  sendTestNotification E req [].

(** The outbox documents a history has inserted. *)
Definition inserted (tr : list event) : list fields :=
  flat_map (fun ev => match ev with QueueAdd d None => [d] | _ => [] end) tr.

(** The outbox documents a history has asked the store to insert. *)
Definition adds (tr : list event) : list fields :=
  flat_map (fun ev => match ev with QueueAdd d _ => [d] | _ => [] end) tr.

(** The profile lookups a history holds, and the errors the [catch] block
    of lines 290-293 has logged. *)
Definition lookups (tr : list event) : list value :=
  flat_map (fun ev => match ev with ProfileGet uid _ => [uid] | _ => [] end) tr.

Definition logged_errors (tr : list event) : list error :=
  flat_map (fun ev => match ev with Console (HandlerError e) => [e] | _ => [] end) tr.

End ManualEnqueue.

(** * From the endpoint to the dispatcher

    The endpoint adds its document to [push_notifications_queue] (line
    276); the dispatcher is triggered by the creation of a document of that
    collection (line 13) and reads the document with [snap.data()]. *)

Module Pipeline.

(** The value an object literal gives a key. *)
Fixpoint field (f : fields) (k : string) : option field_value :=
  match f with
  | [] => None
  | (k', v) :: rest => if String.eqb k' k then Some v else field rest k
  end.

(** [snap.data().k] for a key written as a plain value, [undefined] for a
    key that was not written. *)
Definition plain (f : fields) (k : string) : value :=
  match field f k with
  | Some (Lit v) => v
  | _ => VUndefined
  end.

Definition map_at (f : fields) (k : string) : option (gmap string value) :=
  match field f k with
  | Some (MapValue m) => Some m
  | _ => None
  end.

(** [snap.data()] of a document created with the fields [f], as far as the
    dispatcher destructures it (lines 19 and 24). *)
Definition snapshot (f : fields) : Dispatcher.OutboxRecord :=
  {| Dispatcher.sent := plain f "sent";
     Dispatcher.user_id := plain f "user_id";
     Dispatcher.fcm_token := plain f "fcm_token";
     Dispatcher.title := plain f "title";
     Dispatcher.body := plain f "body";
     Dispatcher.data := map_at f "data" |}.

End Pipeline.

(** ** Concrete scenarios *)

Module Scenario.

Definition unregistered : error :=
  {| message := "Requested entity was not found.";
     code := VStr "messaging/registration-token-not-registered" |}.

Definition unavailable : error :=
  {| message := "The service is currently unavailable."; code := VNum 14 |}.

(** An outbox record whose caller-supplied [data] uses the three keys the
    dispatcher adds itself. *)
Definition queued : Dispatcher.OutboxRecord :=
  {| Dispatcher.sent := VBool false;
     Dispatcher.user_id := VStr "u1";
     Dispatcher.fcm_token := VStr "tok-1";
     Dispatcher.title := VStr "Hello";
     Dispatcher.body := VUndefined;
     Dispatcher.data :=
       Some (<["userId" := VStr "someone-else"]>
               (<["notificationId" := VStr "fake"]>
                  (<["timestamp" := VStr "0"]> {["kind" := VStr "test"]}))) |}.

Definition already_sent : Dispatcher.OutboxRecord :=
  {| Dispatcher.sent := VBool true;
     Dispatcher.user_id := VStr "u1";
     Dispatcher.fcm_token := VStr "tok-1";
     Dispatcher.title := VStr "Hello";
     Dispatcher.body := VUndefined;
     Dispatcher.data := None |}.

Definition tokenless : Dispatcher.OutboxRecord :=
  {| Dispatcher.sent := VBool false;
     Dispatcher.user_id := VStr "u1";
     Dispatcher.fcm_token := VUndefined;
     Dispatcher.title := VStr "Hello";
     Dispatcher.body := VStr "World";
     Dispatcher.data := None |}.

(** Everything works. *)
Definition healthy : Dispatcher.env :=
  {| Dispatcher.Date_now := 1700000000000;
     Dispatcher.messaging_send := fun _ => inr "projects/p/messages/1";
     Dispatcher.ref_update := fun _ _ => None;
     Dispatcher.profile_update := fun _ _ => None |}.

(** The provider reports the token as unregistered; the store works,
    except that the profile update is rejected. *)
Definition token_gone : Dispatcher.env :=
  {| Dispatcher.Date_now := 1700000000000;
     Dispatcher.messaging_send := fun _ => inl unregistered;
     Dispatcher.ref_update := fun _ _ => None;
     Dispatcher.profile_update := fun _ _ => Some unavailable |}.

(** The provider reports the token as unregistered and the store rejects
    every write. *)
Definition token_gone_store_down : Dispatcher.env :=
  {| Dispatcher.Date_now := 1700000000000;
     Dispatcher.messaging_send := fun _ => inl unregistered;
     Dispatcher.ref_update := fun _ _ => Some unavailable;
     Dispatcher.profile_update := fun _ _ => Some unavailable |}.

(** The store. *)

Definition clock : Z := 1700000000000.

Definition hours (h : Z) : Z := h * 60 * 60 * 1000.

Definition numbered (k : nat) : list string :=
  map (fun n => toString (Z.of_nat n)) (seq 0 k).

(** An outbox with a record sent 25 hours ago, one sent 23 hours ago and
    one never sent, 30 days old. *)
Definition outbox : QueueReaper.env :=
  {| QueueReaper.Date_now := clock;
     QueueReaper.queue :=
       [ {| QueueReaper.id := "sent-25h";
            QueueReaper.sent := VBool true;
            QueueReaper.sent_at := Some (Timestamp_fromMillis (clock - hours 25)) |};
         {| QueueReaper.id := "sent-23h";
            QueueReaper.sent := VBool true;
            QueueReaper.sent_at := Some (Timestamp_fromMillis (clock - hours 23)) |};
         {| QueueReaper.id := "unsent-30d";
            QueueReaper.sent := VBool false;
            QueueReaper.sent_at := Some (Timestamp_fromMillis (clock - hours 720)) |} ];
     QueueReaper.query_get := None;
     QueueReaper.batch_commit := None |}.

(** A question that expired a second ago, and one that expires in a second. *)
Definition expired (id : string) (answers : list string) : ContentReaper.Question :=
  {| ContentReaper.id := id;
     ContentReaper.expires_at := Some (Timestamp_fromMillis (clock - 1000));
     ContentReaper.answers := answers |}.

Definition fresh (id : string) (answers : list string) : ContentReaper.Question :=
  {| ContentReaper.id := id;
     ContentReaper.expires_at := Some (Timestamp_fromMillis (clock + 1000));
     ContentReaper.answers := answers |}.

Definition only (q : string) (e : error) (id : string) : option error :=
  if String.eqb id q then Some e else None.

(** One expired question with 1001 answers; nothing fails. *)
Definition long_thread : ContentReaper.env :=
  {| ContentReaper.Timestamp_now := Timestamp_fromMillis clock;
     ContentReaper.questions := [expired "A" (numbered 1001)];
     ContentReaper.questions_get := None;
     ContentReaper.answers_get := fun _ => None;
     ContentReaper.batch_commit := fun _ => None |}.

(** The read of A's answers is rejected; B is expired, C is not. *)
Definition read_rejected : ContentReaper.env :=
  {| ContentReaper.Timestamp_now := Timestamp_fromMillis clock;
     ContentReaper.questions :=
       [expired "A" ["a1"; "a2"]; expired "B" ["b1"]; fresh "C" ["c1"]];
     ContentReaper.questions_get := None;
     ContentReaper.answers_get := only "A" unavailable;
     ContentReaper.batch_commit := fun _ => None |}.

(** One expired question with 1000 answers: the first 500 fill a batch
    that commits; the commit of the next 500 is rejected once. *)
Definition second_commit_rejected : ContentReaper.env :=
  {| ContentReaper.Timestamp_now := Timestamp_fromMillis clock;
     ContentReaper.questions := [expired "A" (numbered 1000)];
     ContentReaper.questions_get := None;
     ContentReaper.answers_get := fun _ => None;
     ContentReaper.batch_commit :=
       fun k => if Nat.eqb k 1 then Some unavailable else None |}.

(** One expired question with 500 answers: the answers fill the first
    batch, which commits; the commit after the loop, of the batch holding
    the question, is rejected. *)
Definition last_commit_rejected : ContentReaper.env :=
  {| ContentReaper.Timestamp_now := Timestamp_fromMillis clock;
     ContentReaper.questions := [expired "A" (numbered 500)];
     ContentReaper.questions_get := None;
     ContentReaper.answers_get := fun _ => None;
     ContentReaper.batch_commit :=
       fun k => if Nat.eqb k 0 then None else Some unavailable |}.

(** A, with its 499 answers, fills the first batch, whose commit is
    rejected once; B follows. *)
Definition first_commit_rejected : ContentReaper.env :=
  {| ContentReaper.Timestamp_now := Timestamp_fromMillis clock;
     ContentReaper.questions := [expired "A" (numbered 499); expired "B" ["b1"]];
     ContentReaper.questions_get := None;
     ContentReaper.answers_get := fun _ => None;
     ContentReaper.batch_commit :=
       fun k => if Nat.eqb k 0 then Some unavailable else None |}.

(** The HTTP endpoint. *)

Definition post_u1 : ManualEnqueue.Request :=
  {| ManualEnqueue.method := "POST";
     ManualEnqueue.req_body :=
       {| ManualEnqueue.userId := VStr "u1";
          ManualEnqueue.title := VUndefined;
          ManualEnqueue.body := VStr "Hi";
          ManualEnqueue.data := None |} |}.

(** The profile of u1 exists and holds a token; the store works. *)
Definition profiles : ManualEnqueue.env :=
  {| ManualEnqueue.profile_get :=
       fun uid =>
         inr {| ManualEnqueue.exists_ := bool_decide (uid = VStr "u1");
                ManualEnqueue.fcm_token :=
                  if bool_decide (uid = VStr "u1") then VStr "tok-1" else VUndefined |};
     ManualEnqueue.queue_add := fun _ => None |}.

(** The provider works; the store rejects the first update of the record
    and accepts the next. *)
Definition first_write_rejected : Dispatcher.env :=
  {| Dispatcher.Date_now := 1700000000000;
     Dispatcher.messaging_send := fun _ => inr "projects/p/messages/1";
     Dispatcher.ref_update := fun k _ => if Nat.eqb k 0 then Some unavailable else None;
     Dispatcher.profile_update := fun _ _ => None |}.

(** Every call is accepted: two expired questions, one that expires at this
    very instant, one that expires later and one without [expires_at]. *)
Definition all_well : ContentReaper.env :=
  {| ContentReaper.Timestamp_now := Timestamp_fromMillis clock;
     ContentReaper.questions :=
       [expired "A" ["a1"; "a2"];
        expired "B" [];
        {| ContentReaper.id := "now";
           ContentReaper.expires_at := Some (Timestamp_fromMillis clock);
           ContentReaper.answers := ["n1"] |};
        fresh "C" ["c1"];
        {| ContentReaper.id := "never";
           ContentReaper.expires_at := None;
           ContentReaper.answers := ["e1"] |}];
     ContentReaper.questions_get := None;
     ContentReaper.answers_get := fun _ => None;
     ContentReaper.batch_commit := fun _ => None |}.

(** In [first_commit_rejected]: the operations of the rejected commit, and
    the history that follows it. *)
Definition first_batch : list ref :=
  ContentReaper.question_refs (expired "A" (numbered 499)).

Definition after_first_rejection : list ContentReaper.event :=
  [ContentReaper.Console (ContentReaper.PostError "A" unavailable);
   ContentReaper.AnswersGet "B" None;
   ContentReaper.Console (ContentReaper.PostError "B" batch_sealed);
   ContentReaper.Commit first_batch None;
   ContentReaper.Console (ContentReaper.Finished 1 499)].

(** The store of [first_commit_rejected] with every call accepted. *)
Definition two_posts : ContentReaper.env :=
  {| ContentReaper.Timestamp_now := Timestamp_fromMillis clock;
     ContentReaper.questions := [expired "A" (numbered 499); expired "B" ["b1"]];
     ContentReaper.questions_get := None;
     ContentReaper.answers_get := fun _ => None;
     ContentReaper.batch_commit := fun _ => None |}.

(** The same store: A and its 499 answers fill the first batch, which
    commits; the commit after the loop, of B and its answer, is rejected. *)
Definition closing_commit_rejected : ContentReaper.env :=
  {| ContentReaper.Timestamp_now := Timestamp_fromMillis clock;
     ContentReaper.questions := [expired "A" (numbered 499); expired "B" ["b1"]];
     ContentReaper.questions_get := None;
     ContentReaper.answers_get := fun _ => None;
     ContentReaper.batch_commit :=
       fun k => if Nat.eqb k 0 then None else Some unavailable |}.

End Scenario.

(** * Properties *)

(** ** Strict equality and the effect primitives *)

Lemma strict_eq_true (v : value) : strict_eq v (VBool true) = true <-> v = VBool true.
Proof.
  destruct v as [| |[]| | |]; cbn; split; intros H; try discriminate; reflexivity.
Qed.

Lemma strict_eq_not_true (v : value) :
  v <> VBool true -> strict_eq v (VBool true) = false.
Proof.
  intros H. destruct (strict_eq v (VBool true)) eqn:Heq; [|reflexivity].
  apply strict_eq_true in Heq. contradiction.
Qed.

Section DispatcherFacts.
Import Dispatcher.
Variable E : env.
Variable snap : OutboxRecord.
Variable notificationId : string.

Lemma run_already_sent :
  sent snap = VBool true ->
  run E snap notificationId = (Resolved tt, [Console (AlreadySent notificationId)]).
Proof.
  intros H. unfold run, sendPushNotification. rewrite H. reflexivity.
Qed.

Lemma run_no_token :
  sent snap <> VBool true ->
  truthy (fcm_token snap) = false ->
  run E snap notificationId =
    (settle (ref_update E 0 no_token_fields),
     [Console (NoToken (user_id snap));
      RecordUpdate no_token_fields (ref_update E 0 no_token_fields)]).
Proof.
  intros Hs Ht. unfold run, sendPushNotification.
  rewrite (strict_eq_not_true _ Hs), Ht. cbn.
  destruct (ref_update E 0 _); reflexivity.
Qed.
End DispatcherFacts.

Section DispatcherTokenPath.
Import Dispatcher.
Variable E : env.
Variable snap : OutboxRecord.
Variable notificationId : string.
Hypothesis not_sent : sent snap <> VBool true.
Hypothesis has_token : truthy (fcm_token snap) = true.

Lemma run_send_rejected (e : JS.error) :
  messaging_send E (build_message E snap notificationId) = inl e ->
  run E snap notificationId =
    (settle (ref_update E 0 (failed_fields e)),
     MessagingSend (build_message E snap notificationId) (inl e)
       :: catch_events E snap e (ref_update E 0 (failed_fields e))).
Proof.
  intros Hm. unfold run, sendPushNotification, catch_events.
  rewrite (strict_eq_not_true _ not_sent), has_token.
  unfold try_catch, bind, send. cbn. rewrite Hm. cbn.
  destruct (ref_update E 0 (failed_fields e)) as [w|]; cbn; [reflexivity|].
  destruct (invalid_token_code (code e)); cbn; [|reflexivity].
  unfold profiles_doc_update.
  destruct (profile_update E (user_id snap) token_delete_fields); reflexivity.
Qed.

Lemma run_send_resolved (response : string) :
  messaging_send E (build_message E snap notificationId) = inr response ->
  run E snap notificationId =
    match ref_update E 0 (delivered_fields response) with
    | None =>
        (Resolved tt,
         [MessagingSend (build_message E snap notificationId) (inr response);
          Console (Sent (user_id snap) response);
          RecordUpdate (delivered_fields response) None])
    | Some w =>
        (settle (ref_update E 1 (failed_fields w)),
         [MessagingSend (build_message E snap notificationId) (inr response);
          Console (Sent (user_id snap) response);
          RecordUpdate (delivered_fields response) (Some w)]
         ++ catch_events E snap w (ref_update E 1 (failed_fields w)))
    end.
Proof.
  intros Hm. unfold run, sendPushNotification, catch_events.
  rewrite (strict_eq_not_true _ not_sent), has_token.
  unfold try_catch, bind, send. cbn. rewrite Hm. cbn.
  destruct (ref_update E 0 (delivered_fields response)) as [w|]; cbn; [|reflexivity].
  destruct (ref_update E 1 (failed_fields w)) as [w'|]; cbn; [reflexivity|].
  destruct (invalid_token_code (code w)); cbn; [|reflexivity].
  unfold profiles_doc_update.
  destruct (profile_update E (user_id snap) token_delete_fields); reflexivity.
Qed.
End DispatcherTokenPath.

(** ** NotificationDispatcher *)

(** C1. A record that already has [sent == true] is skipped: the invocation
    returns normally, having written nothing to the store and called the push
    provider not at all (it only logs one line). *)
Theorem dispatcher_skips_sent_record
    (E : Dispatcher.env) (snap : Dispatcher.OutboxRecord) (notificationId : string) :
  Dispatcher.sent snap = VBool true ->
  fst (Dispatcher.run E snap notificationId) = Resolved tt
  /\ Dispatcher.store_writes (snd (Dispatcher.run E snap notificationId)) = []
  /\ Dispatcher.provider_calls (snd (Dispatcher.run E snap notificationId)) = []
  /\ snd (Dispatcher.run E snap notificationId)
     = [Dispatcher.Console (Dispatcher.AlreadySent notificationId)].
Proof.
  intros H. rewrite (run_already_sent E snap notificationId H). cbn. auto.
Qed.

(** A record without a usable token ([!fcm_token]) gets the inline failure
    written and nothing else. *)
Lemma dispatcher_falsy_token
    (E : Dispatcher.env) (snap : Dispatcher.OutboxRecord) (notificationId : string) :
  Dispatcher.sent snap <> VBool true ->
  truthy (Dispatcher.fcm_token snap) = false ->
  Dispatcher.store_writes (snd (Dispatcher.run E snap notificationId))
  = [Dispatcher.RecordUpdate
       [("sent", Lit (VBool true));
        ("error", Lit (VStr "No FCM token"));
        ("sent_at", ServerTimestamp)]
       (Dispatcher.ref_update E 0 Dispatcher.no_token_fields)]
  /\ Dispatcher.provider_calls (snd (Dispatcher.run E snap notificationId)) = [].
Proof.
  intros Hs Ht. rewrite (run_no_token E snap notificationId Hs Ht). cbn. auto.
Qed.

(** C8. For a record with [sent != true] and no device token, the only call
    made is one update of the record with [sent: true],
    [error: 'No FCM token'] and [sent_at: serverTimestamp()]; the push
    provider is not called. *)
Theorem dispatcher_no_token
    (E : Dispatcher.env) (snap : Dispatcher.OutboxRecord) (notificationId : string) :
  Dispatcher.sent snap <> VBool true ->
  Dispatcher.fcm_token snap = VUndefined ->
  Dispatcher.store_writes (snd (Dispatcher.run E snap notificationId))
  = [Dispatcher.RecordUpdate
       [("sent", Lit (VBool true));
        ("error", Lit (VStr "No FCM token"));
        ("sent_at", ServerTimestamp)]
       (Dispatcher.ref_update E 0 Dispatcher.no_token_fields)]
  /\ Dispatcher.provider_calls (snd (Dispatcher.run E snap notificationId)) = [].
Proof.
  intros Hs Ht. apply dispatcher_falsy_token; [exact Hs|]. rewrite Ht. reflexivity.
Qed.

(** On a record already sent, with everything working. *)
Lemma dispatcher_skips_sent_record_witness :
  fst (Dispatcher.run Scenario.healthy Scenario.already_sent "n1") = Resolved tt
  /\ Dispatcher.store_writes
       (snd (Dispatcher.run Scenario.healthy Scenario.already_sent "n1")) = []
  /\ Dispatcher.provider_calls
       (snd (Dispatcher.run Scenario.healthy Scenario.already_sent "n1")) = []
  /\ snd (Dispatcher.run Scenario.healthy Scenario.already_sent "n1")
     = [Dispatcher.Console (Dispatcher.AlreadySent "n1")].
Proof.
  apply (dispatcher_skips_sent_record Scenario.healthy Scenario.already_sent "n1").
  reflexivity.
Defined.

(** On a record without a token, with a store that rejects the write. *)
Lemma dispatcher_no_token_witness :
  Dispatcher.store_writes
    (snd (Dispatcher.run Scenario.token_gone_store_down Scenario.tokenless "n1"))
  = [Dispatcher.RecordUpdate
       [("sent", Lit (VBool true));
        ("error", Lit (VStr "No FCM token"));
        ("sent_at", ServerTimestamp)]
       (Some Scenario.unavailable)]
  /\ Dispatcher.provider_calls
       (snd (Dispatcher.run Scenario.token_gone_store_down Scenario.tokenless "n1")) = [].
Proof.
  apply (dispatcher_no_token Scenario.token_gone_store_down Scenario.tokenless "n1").
  - discriminate.
  - reflexivity.
Defined.

Lemma catch_events_provider_calls
    (E : Dispatcher.env) (snap : Dispatcher.OutboxRecord) (e : error) (r : option error) :
  List.filter Dispatcher.is_provider_call (Dispatcher.catch_events E snap e r) = [].
Proof.
  unfold Dispatcher.catch_events. destruct r as [w|]; cbn; [reflexivity|].
  destruct (Dispatcher.invalid_token_code (code e)); cbn; [|reflexivity].
  destruct (Dispatcher.profile_update E _ _); reflexivity.
Qed.

(** On a record that is not yet sent and carries a token, the provider is
    called exactly once, with the message of lines 39-67. *)
Lemma dispatcher_sends_built_message
    (E : Dispatcher.env) (snap : Dispatcher.OutboxRecord) (notificationId : string) :
  Dispatcher.sent snap <> VBool true ->
  truthy (Dispatcher.fcm_token snap) = true ->
  Dispatcher.provider_calls (snd (Dispatcher.run E snap notificationId))
  = [Dispatcher.MessagingSend
       (Dispatcher.build_message E snap notificationId)
       (Dispatcher.messaging_send E (Dispatcher.build_message E snap notificationId))].
Proof.
  intros Hs Ht.
  destruct (Dispatcher.messaging_send E (Dispatcher.build_message E snap notificationId))
    as [e|response] eqn:Hm.
  - rewrite (run_send_rejected E snap notificationId Hs Ht e Hm).
    unfold Dispatcher.provider_calls.
    cbn [snd List.filter Dispatcher.is_provider_call].
    rewrite catch_events_provider_calls. reflexivity.
  - rewrite (run_send_resolved E snap notificationId Hs Ht response Hm).
    destruct (Dispatcher.ref_update E 0 (Dispatcher.delivered_fields response)) as [w|];
      [|reflexivity].
    unfold Dispatcher.provider_calls.
    cbn [snd List.filter Dispatcher.is_provider_call app].
    rewrite catch_events_provider_calls. reflexivity.
Qed.

(** C10. In the message handed to the provider, the keys [notificationId],
    [userId] and [timestamp] of [data] hold the values the dispatcher adds,
    whatever the caller-supplied map held under them; every other key keeps
    the caller's value. *)
Theorem dispatcher_system_keys_override
    (E : Dispatcher.env) (snap : Dispatcher.OutboxRecord) (notificationId : string) :
  Dispatcher.sent snap <> VBool true ->
  truthy (Dispatcher.fcm_token snap) = true ->
  exists m r,
    Dispatcher.provider_calls (snd (Dispatcher.run E snap notificationId))
    = [Dispatcher.MessagingSend m r]
    /\ Dispatcher.msg_data m !! "notificationId" = Some (VStr notificationId)
    /\ Dispatcher.msg_data m !! "userId" = Some (Dispatcher.user_id snap)
    /\ Dispatcher.msg_data m !! "timestamp"
       = Some (VStr (toString (Dispatcher.Date_now E)))
    /\ forall k : string,
         k <> "notificationId" -> k <> "userId" -> k <> "timestamp" ->
         Dispatcher.msg_data m !! k = Dispatcher.spread (Dispatcher.data snap) !! k.
Proof.
  intros Hs Ht.
  exists (Dispatcher.build_message E snap notificationId),
    (Dispatcher.messaging_send E (Dispatcher.build_message E snap notificationId)).
  split; [apply dispatcher_sends_built_message; assumption|].
  unfold Dispatcher.build_message; cbn [Dispatcher.msg_data].
  repeat split.
  - rewrite lookup_insert_ne by discriminate.
    rewrite lookup_insert_ne by discriminate.
    apply lookup_insert_eq.
  - rewrite lookup_insert_ne by discriminate. apply lookup_insert_eq.
  - apply lookup_insert_eq.
  - intros k H1 H2 H3.
    rewrite !lookup_insert_ne by congruence. reflexivity.
Qed.

(** On a record whose caller-supplied [data] uses all three keys. *)
Lemma dispatcher_system_keys_override_witness :
  exists m r,
    Dispatcher.provider_calls (snd (Dispatcher.run Scenario.healthy Scenario.queued "n1"))
    = [Dispatcher.MessagingSend m r]
    /\ Dispatcher.msg_data m !! "notificationId" = Some (VStr "n1")
    /\ Dispatcher.msg_data m !! "userId" = Some (VStr "u1")
    /\ Dispatcher.msg_data m !! "timestamp" = Some (VStr "1700000000000")
    /\ forall k : string,
         k <> "notificationId" -> k <> "userId" -> k <> "timestamp" ->
         Dispatcher.msg_data m !! k
         = Dispatcher.spread (Dispatcher.data Scenario.queued) !! k.
Proof.
  apply (dispatcher_system_keys_override Scenario.healthy Scenario.queued "n1").
  - discriminate.
  - reflexivity.
Defined.

Lemma invalid_token_code_spec (c : value) :
  Dispatcher.invalid_token_code c = true
  <-> c = VStr "messaging/invalid-registration-token"
      \/ c = VStr "messaging/registration-token-not-registered".
Proof.
  unfold Dispatcher.invalid_token_code. rewrite orb_true_iff.
  assert (Hs : forall s, strict_eq c (VStr s) = true <-> c = VStr s).
  { intros s. destruct c; cbn; try rewrite bool_decide_eq_true;
      split; intros H; try discriminate H; congruence. }
  rewrite !Hs. reflexivity.
Qed.

Lemma failed_fields_set_sent (e : error) :
  Dispatcher.is_terminal_write
    (Dispatcher.RecordUpdate (Dispatcher.failed_fields e) None) = true.
Proof. cbn. apply bool_decide_eq_true. constructor. Qed.

Lemma catch_events_profile_updates
    (E : Dispatcher.env) (snap : Dispatcher.OutboxRecord) (e : error) (r : option error) :
  List.filter Dispatcher.is_profile_update (Dispatcher.catch_events E snap e r)
  = match r with
    | Some _ => []
    | None =>
        if Dispatcher.invalid_token_code (code e) then
          [Dispatcher.ProfileUpdate (Dispatcher.user_id snap)
             Dispatcher.token_delete_fields
             (Dispatcher.profile_update E (Dispatcher.user_id snap)
                Dispatcher.token_delete_fields)]
        else []
    end.
Proof.
  unfold Dispatcher.catch_events. destruct r as [w|]; cbn; [reflexivity|].
  destruct (Dispatcher.invalid_token_code (code e)); cbn; [|reflexivity].
  destruct (Dispatcher.profile_update E _ _); reflexivity.
Qed.

Lemma catch_events_record_updates
    (E : Dispatcher.env) (snap : Dispatcher.OutboxRecord) (e : error) (r : option error) :
  List.filter Dispatcher.is_record_update (Dispatcher.catch_events E snap e r)
  = [Dispatcher.RecordUpdate (Dispatcher.failed_fields e) r].
Proof.
  unfold Dispatcher.catch_events. destruct r as [w|]; cbn; [reflexivity|].
  destruct (Dispatcher.invalid_token_code (code e)); cbn; [|reflexivity].
  destruct (Dispatcher.profile_update E _ _); reflexivity.
Qed.

(** C3 as stated fails when the store rejects the write that
    records the failure: the provider reports the token as unregistered,
    the update of line 85 throws out of the [catch] block, and the clean-up
    of lines 92-105 is never reached. *)
Lemma dispatcher_cleanup_skipped_when_failure_write_rejected :
  Dispatcher.messaging_send Scenario.token_gone_store_down
    (Dispatcher.build_message Scenario.token_gone_store_down Scenario.queued "n1")
  = inl Scenario.unregistered
  /\ code Scenario.unregistered = VStr "messaging/registration-token-not-registered"
  /\ Dispatcher.profile_updates
       (snd (Dispatcher.run Scenario.token_gone_store_down Scenario.queued "n1")) = []
  /\ fst (Dispatcher.run Scenario.token_gone_store_down Scenario.queued "n1")
     = Rejected Scenario.unavailable.
Proof. repeat split. Qed.

(** C3, amended.  When the provider call fails with error [e]: a failure of
    any other kind never leads to a profile update; and when the store
    accepts the write that records the failure, the profile's [fcm_token] is
    asked to be deleted if and only if [e.code] is the invalid-token or the
    unregistered-token code, and whatever that clean-up comes back with, the
    invocation returns normally and the one write made to the record is the
    resolved [sent: true] update. *)
Theorem dispatcher_token_cleanup
    (E : Dispatcher.env) (snap : Dispatcher.OutboxRecord) (notificationId : string)
    (e : error) :
  Dispatcher.sent snap <> VBool true ->
  truthy (Dispatcher.fcm_token snap) = true ->
  Dispatcher.messaging_send E (Dispatcher.build_message E snap notificationId) = inl e ->
  (Dispatcher.invalid_token_code (code e) = true
   <-> code e = VStr "messaging/invalid-registration-token"
       \/ code e = VStr "messaging/registration-token-not-registered")
  /\ (Dispatcher.invalid_token_code (code e) = false ->
      Dispatcher.profile_updates (snd (Dispatcher.run E snap notificationId)) = [])
  /\ (Dispatcher.ref_update E 0 (Dispatcher.failed_fields e) = None ->
      Dispatcher.profile_updates (snd (Dispatcher.run E snap notificationId))
      = (if Dispatcher.invalid_token_code (code e) then
           [Dispatcher.ProfileUpdate (Dispatcher.user_id snap)
              [("fcm_token", FieldDelete)]
              (Dispatcher.profile_update E (Dispatcher.user_id snap)
                 Dispatcher.token_delete_fields)]
         else [])
      /\ fst (Dispatcher.run E snap notificationId) = Resolved tt
      /\ Dispatcher.record_updates (snd (Dispatcher.run E snap notificationId))
         = [Dispatcher.RecordUpdate
              [("sent", Lit (VBool true));
               ("error", Lit (VStr (message e)));
               ("sent_at", ServerTimestamp)] None]).
Proof.
  intros Hs Ht Hm.
  rewrite (run_send_rejected E snap notificationId Hs Ht e Hm).
  unfold Dispatcher.profile_updates, Dispatcher.record_updates.
  cbn [fst snd List.filter Dispatcher.is_profile_update Dispatcher.is_record_update].
  rewrite catch_events_profile_updates, catch_events_record_updates.
  split; [apply invalid_token_code_spec|]. split.
  - intros Hc. rewrite Hc. destruct (Dispatcher.ref_update E 0 _); reflexivity.
  - intros Hw. rewrite Hw. cbn. repeat split.
Qed.

(** With an unregistered token and a profile update that is rejected. *)
Lemma dispatcher_token_cleanup_witness :
  (Dispatcher.invalid_token_code (code Scenario.unregistered) = true
   <-> code Scenario.unregistered = VStr "messaging/invalid-registration-token"
       \/ code Scenario.unregistered = VStr "messaging/registration-token-not-registered")
  /\ (Dispatcher.invalid_token_code (code Scenario.unregistered) = false ->
      Dispatcher.profile_updates
        (snd (Dispatcher.run Scenario.token_gone Scenario.queued "n1")) = [])
  /\ (Dispatcher.ref_update Scenario.token_gone 0
        (Dispatcher.failed_fields Scenario.unregistered) = None ->
      Dispatcher.profile_updates
        (snd (Dispatcher.run Scenario.token_gone Scenario.queued "n1"))
      = (if Dispatcher.invalid_token_code (code Scenario.unregistered) then
           [Dispatcher.ProfileUpdate (Dispatcher.user_id Scenario.queued)
              [("fcm_token", FieldDelete)]
              (Dispatcher.profile_update Scenario.token_gone
                 (Dispatcher.user_id Scenario.queued)
                 Dispatcher.token_delete_fields)]
         else [])
      /\ fst (Dispatcher.run Scenario.token_gone Scenario.queued "n1") = Resolved tt
      /\ Dispatcher.record_updates
           (snd (Dispatcher.run Scenario.token_gone Scenario.queued "n1"))
         = [Dispatcher.RecordUpdate
              [("sent", Lit (VBool true));
               ("error", Lit (VStr (message Scenario.unregistered)));
               ("sent_at", ServerTimestamp)] None]).
Proof.
  apply (dispatcher_token_cleanup Scenario.token_gone Scenario.queued "n1"
           Scenario.unregistered).
  - discriminate.
  - reflexivity.
  - reflexivity.
Defined.

(** C4 as stated fails when the store rejects the write of
    the terminal state: for a record without a token the update of line 29
    stands outside any [try], so its rejection leaves the invocation, and no
    [sent: true] write has been made. *)
Lemma dispatcher_rejected_write_escapes :
  fst (Dispatcher.run Scenario.token_gone_store_down Scenario.tokenless "n1")
  = Rejected Scenario.unavailable
  /\ existsb Dispatcher.is_terminal_write
       (snd (Dispatcher.run Scenario.token_gone_store_down Scenario.tokenless "n1"))
     = false.
Proof. split; reflexivity. Qed.

Lemma catch_events_last
    (E : Dispatcher.env) (snap : Dispatcher.OutboxRecord) (e w : error) :
  Dispatcher.catch_events E snap e (Some w)
  = [Dispatcher.Console (Dispatcher.SendError (Dispatcher.user_id snap) e)]
    ++ [Dispatcher.RecordUpdate (Dispatcher.failed_fields e) (Some w)].
Proof. reflexivity. Qed.

Lemma catch_events_terminal
    (E : Dispatcher.env) (snap : Dispatcher.OutboxRecord) (e : error) :
  existsb Dispatcher.is_terminal_write (Dispatcher.catch_events E snap e None) = true.
Proof.
  unfold Dispatcher.catch_events.
  change ([?a; ?b] ++ ?l) with (a :: b :: l).
  cbn [existsb]. rewrite failed_fields_set_sent. apply orb_true_r.
Qed.

(** C4, amended.  For a record with [sent != true], whatever the provider
    and the profile clean-up come back with: a [sent: true] update of the
    record is always issued; when the store accepts the updates of the
    record, the invocation returns normally with that terminal write made;
    and an exception leaves the invocation only as the rejection of the last
    update of the record. *)
Theorem dispatcher_terminal_write
    (E : Dispatcher.env) (snap : Dispatcher.OutboxRecord) (notificationId : string) :
  Dispatcher.sent snap <> VBool true ->
  (exists f r,
      In (Dispatcher.RecordUpdate f r) (snd (Dispatcher.run E snap notificationId))
      /\ In ("sent", Lit (VBool true)) f)
  /\ ((forall k f, Dispatcher.ref_update E k f = None) ->
      fst (Dispatcher.run E snap notificationId) = Resolved tt
      /\ existsb Dispatcher.is_terminal_write
           (snd (Dispatcher.run E snap notificationId)) = true)
  /\ (forall e, fst (Dispatcher.run E snap notificationId) = Rejected e ->
      exists tr f,
        snd (Dispatcher.run E snap notificationId)
        = tr ++ [Dispatcher.RecordUpdate f (Some e)]).
Proof.
  intros Hs.
  destruct (truthy (Dispatcher.fcm_token snap)) eqn:Ht.
  - destruct (Dispatcher.messaging_send E (Dispatcher.build_message E snap notificationId))
      as [e|response] eqn:Hm.
    + rewrite (run_send_rejected E snap notificationId Hs Ht e Hm).
      cbn [fst snd]. split; [|split].
      * exists (Dispatcher.failed_fields e),
          (Dispatcher.ref_update E 0 (Dispatcher.failed_fields e)).
        split; [|left; reflexivity].
        right. unfold Dispatcher.catch_events. right. left. reflexivity.
      * intros Hok. rewrite Hok. split; [reflexivity|].
        cbn [existsb Dispatcher.is_terminal_write]. apply catch_events_terminal.
      * intros w Hw.
        destruct (Dispatcher.ref_update E 0 (Dispatcher.failed_fields e)) as [w'|];
          [|discriminate Hw].
        injection Hw as ->. rewrite catch_events_last.
        eexists (_ :: _), _. reflexivity.
    + rewrite (run_send_resolved E snap notificationId Hs Ht response Hm).
      destruct (Dispatcher.ref_update E 0 (Dispatcher.delivered_fields response))
        as [w|] eqn:Hu.
      * cbn [fst snd]. split; [|split].
        -- exists (Dispatcher.delivered_fields response), (Some w).
           split; [|left; reflexivity]. right. right. left. reflexivity.
        -- intros Hok. rewrite Hok in Hu. discriminate Hu.
        -- intros w' Hw'.
           destruct (Dispatcher.ref_update E 1 (Dispatcher.failed_fields w)) as [w''|];
             [|discriminate Hw'].
           injection Hw' as ->. rewrite catch_events_last.
           eexists (_ :: _ :: _ :: _), _. reflexivity.
      * cbn [fst snd]. split; [|split].
        -- exists (Dispatcher.delivered_fields response), None.
           split; [|left; reflexivity]. right. right. left. reflexivity.
        -- intros _. split; [reflexivity|].
           cbn. rewrite orb_false_r. apply bool_decide_eq_true. constructor.
        -- intros w Hw. discriminate Hw.
  - rewrite (run_no_token E snap notificationId Hs Ht). cbn [fst snd].
    split; [|split].
    + exists Dispatcher.no_token_fields, (Dispatcher.ref_update E 0 Dispatcher.no_token_fields).
      split; [right; left; reflexivity|left; reflexivity].
    + intros Hok. rewrite Hok. split; [reflexivity|].
      cbn. rewrite orb_false_r. apply bool_decide_eq_true. constructor.
    + intros w Hw.
      destruct (Dispatcher.ref_update E 0 Dispatcher.no_token_fields) as [w'|];
        [|discriminate Hw].
      injection Hw as ->. exists [Dispatcher.Console (Dispatcher.NoToken (Dispatcher.user_id snap))], Dispatcher.no_token_fields.
      reflexivity.
Qed.

(** With an unregistered token, a working outbox and a rejected clean-up. *)
Lemma dispatcher_terminal_write_witness :
  (exists f r,
      In (Dispatcher.RecordUpdate f r)
        (snd (Dispatcher.run Scenario.token_gone Scenario.queued "n1"))
      /\ In ("sent", Lit (VBool true)) f)
  /\ ((forall k f, Dispatcher.ref_update Scenario.token_gone k f = None) ->
      fst (Dispatcher.run Scenario.token_gone Scenario.queued "n1") = Resolved tt
      /\ existsb Dispatcher.is_terminal_write
           (snd (Dispatcher.run Scenario.token_gone Scenario.queued "n1")) = true)
  /\ (forall e,
      fst (Dispatcher.run Scenario.token_gone Scenario.queued "n1") = Rejected e ->
      exists tr f,
        snd (Dispatcher.run Scenario.token_gone Scenario.queued "n1")
        = tr ++ [Dispatcher.RecordUpdate f (Some e)]).
Proof.
  apply (dispatcher_terminal_write Scenario.token_gone Scenario.queued "n1").
  discriminate.
Defined.

(** ** QueueReaper *)

Section QueueReaperFacts.
Import QueueReaper.
Variable E : env.

(** The [forEach] of lines 133-136 queues one delete per document and
    counts it; on a batch that has not been committed it cannot throw. *)
Lemma forEach_queues (docs : list QueueDocument) :
  forall (b : list ref) (n : nat) (tr : list event),
    for_of docs
      (fun doc => (delete (QueueDoc (id doc)) ;; incr_deletedCount)%async)
      ({| batch := {| ops := b; committed := false |}; deletedCount := n |}, tr)
    = (Resolved tt,
       ({| batch := {| ops := b ++ map doc_ref docs; committed := false |};
           deletedCount := n + length docs |}, tr)).
Proof.
  induction docs as [|d docs IH]; intros b n tr; cbn [for_of].
  - unfold ret. cbn. rewrite app_nil_r, Nat.add_0_r. reflexivity.
  - unfold bind at 1. unfold bind at 1. cbn.
    rewrite IH. cbn. rewrite <- app_assoc, Nat.add_succ_r. reflexivity.
Qed.

Lemma run_eq :
  run E =
    match query_get E with
    | Some e => (Rejected e, [QueryGet (Some e)])
    | None =>
        match matched E with
        | [] => (Resolved tt, [QueryGet None])
        | _ :: _ =>
            (settle (batch_commit E),
             [QueryGet None; Commit (map doc_ref (matched E)) (batch_commit E)]
             ++ match batch_commit E with
                | None => [Console (Cleaned (length (matched E)))]
                | Some _ => []
                end)
        end
    end.
Proof.
  unfold run, cleanupNotificationQueue.
  fold (matched E). unfold bind at 1. unfold get_old. cbn.
  destruct (query_get E) as [e|]; [reflexivity|].
  fold (matched E). unfold batch_new. unfold bind at 1.
  rewrite forEach_queues. cbn.
  destruct (matched E) as [|d ds]; [reflexivity|].
  unfold bind, commit, console, modify, ret, get. cbn.
  destruct (batch_commit E); reflexivity.
Qed.
End QueueReaperFacts.

Lemma NoDup_map_In_inj {A B} (f : A -> B) (l : list A) (x y : A) :
  List.NoDup (map f l) -> In x l -> In y l -> f x = f y -> x = y.
Proof.
  induction l as [|a l IH]; cbn; intros Hnd Hx Hy Hf; [contradiction|].
  inversion Hnd as [|? ? Hnotin Hnd']; subst.
  destruct Hx as [->|Hx], Hy as [->|Hy]; auto.
  - exfalso. apply Hnotin. rewrite Hf. apply in_map. exact Hy.
  - exfalso. apply Hnotin. rewrite <- Hf. apply in_map. exact Hx.
Qed.

Lemma In_firstn {A} (n : nat) (l : list A) (x : A) : In x (firstn n l) -> In x l.
Proof.
  revert l; induction n as [|n IH]; intros [|a l]; cbn; try contradiction.
  intros [->|H]; [left; reflexivity|right; apply IH; exact H].
Qed.

Section QueueReaperRetention.
Import QueueReaper.
Variable E : env.

Local Abbreviation cutoff := (Timestamp_fromMillis (Date_now E - 24 * 60 * 60 * 1000)).

Lemma matched_In (d : QueueDocument) :
  In d (matched E) ->
  In d (queue E) /\ sent d = VBool true
  /\ exists s, sent_at d = Some s /\ s < cutoff.
Proof.
  unfold matched, limit, where_sent_at_lt, where_sent_true. intros H.
  apply In_firstn in H. apply filter_In in H as [H Hlt].
  apply filter_In in H as [Hin Hsent].
  apply strict_eq_true in Hsent.
  split; [exact Hin|]. split; [exact Hsent|].
  destruct (sent_at d) as [s|]; [|discriminate Hlt].
  exists s. split; [reflexivity|]. apply Z.ltb_lt. exact Hlt.
Qed.

Lemma matched_all (d : QueueDocument) (s : Timestamp) :
  (length (where_sent_at_lt cutoff (where_sent_true (queue E))) <= 500)%nat ->
  In d (queue E) -> sent d = VBool true -> sent_at d = Some s -> s < cutoff ->
  In d (matched E).
Proof.
  intros Hlen Hin Hsent Hat Hlt. unfold matched, limit.
  rewrite firstn_all2 by exact Hlen.
  apply filter_In. split.
  - apply filter_In. split; [exact Hin|]. apply strict_eq_true. exact Hsent.
  - rewrite Hat. apply Z.ltb_lt. exact Hlt.
Qed.

Lemma commits_run :
  commits (snd (run E))
  = match query_get E, matched E with
    | None, _ :: _ => [map doc_ref (matched E)]
    | _, _ => []
    end.
Proof.
  rewrite run_eq. destruct (query_get E); [reflexivity|].
  destruct (matched E); [reflexivity|].
  cbn. destruct (batch_commit E); reflexivity.
Qed.

Lemma deleted_run :
  deleted (snd (run E))
  = match query_get E, batch_commit E with
    | None, None => map doc_ref (matched E)
    | _, _ => []
    end.
Proof.
  rewrite run_eq. destruct (query_get E); [reflexivity|].
  destruct (matched E); [destruct (batch_commit E); reflexivity|].
  cbn. destruct (batch_commit E); cbn; [reflexivity|].
  rewrite app_nil_r. reflexivity.
Qed.

Lemma deleted_matched (d : QueueDocument) :
  List.NoDup (map id (queue E)) ->
  In d (queue E) -> In (doc_ref d) (deleted (snd (run E))) -> In d (matched E).
Proof.
  intros Hnd Hin Hdel. rewrite deleted_run in Hdel.
  destruct (query_get E); [contradiction|].
  destruct (batch_commit E); [contradiction|].
  apply in_map_iff in Hdel as (d' & Href & Hin').
  assert (d' = d) as <-; [|exact Hin'].
  apply (NoDup_map_In_inj id (queue E)); auto.
  - apply matched_In in Hin'. tauto.
  - unfold doc_ref in Href. congruence.
Qed.
End QueueReaperRetention.

(** C5. A run of the queue reaper issues at most one commit, holding the
    deletes of the records the query returns: those with [sent == true] and
    [sent_at] before now minus 24 hours, at most 500 of them, and all of them
    when no more than 500 match.  When the query and that commit resolve
    these are exactly the records removed.  A record sent 23 hours ago, and a
    record whose [sent] is not [true], is not removed; and when nothing
    matches nothing is committed. *)
Theorem queue_reaper_retention (E : QueueReaper.env) :
  List.NoDup (map QueueReaper.id (QueueReaper.queue E)) ->
  (* one batch, holding the matched records; none when nothing matches *)
  QueueReaper.commits (snd (QueueReaper.run E))
  = match QueueReaper.query_get E, QueueReaper.matched E with
    | None, _ :: _ => [map QueueReaper.doc_ref (QueueReaper.matched E)]
    | _, _ => []
    end
  /\ (length (QueueReaper.matched E) <= 500)%nat
  /\ (QueueReaper.query_get E = None -> QueueReaper.batch_commit E = None ->
      QueueReaper.deleted (snd (QueueReaper.run E))
      = map QueueReaper.doc_ref (QueueReaper.matched E))
  (* only old, sent records are removed *)
  /\ (forall d, In d (QueueReaper.queue E) ->
      In (QueueReaper.doc_ref d) (QueueReaper.deleted (snd (QueueReaper.run E))) ->
      QueueReaper.sent d = VBool true
      /\ exists s, QueueReaper.sent_at d = Some s
                   /\ s < Timestamp_fromMillis (QueueReaper.Date_now E - 86400000))
  (* all of them, up to the cap *)
  /\ (forall d s,
      (length (QueueReaper.where_sent_at_lt
                 (Timestamp_fromMillis (QueueReaper.Date_now E - 86400000))
                 (QueueReaper.where_sent_true (QueueReaper.queue E))) <= 500)%nat ->
      QueueReaper.query_get E = None -> QueueReaper.batch_commit E = None ->
      In d (QueueReaper.queue E) ->
      QueueReaper.sent d = VBool true ->
      QueueReaper.sent_at d = Some s ->
      s < Timestamp_fromMillis (QueueReaper.Date_now E - 86400000) ->
      In (QueueReaper.doc_ref d) (QueueReaper.deleted (snd (QueueReaper.run E))))
  (* 23 hours old: kept *)
  /\ (forall d, In d (QueueReaper.queue E) ->
      QueueReaper.sent_at d
      = Some (Timestamp_fromMillis (QueueReaper.Date_now E - 23 * 60 * 60 * 1000)) ->
      ~ In (QueueReaper.doc_ref d) (QueueReaper.deleted (snd (QueueReaper.run E))))
  (* not sent: kept, at any age *)
  /\ (forall d, In d (QueueReaper.queue E) ->
      QueueReaper.sent d <> VBool true ->
      ~ In (QueueReaper.doc_ref d) (QueueReaper.deleted (snd (QueueReaper.run E)))).
Proof.
  intros Hnd.
  assert (Hold : forall d, In d (QueueReaper.queue E) ->
      In (QueueReaper.doc_ref d) (QueueReaper.deleted (snd (QueueReaper.run E))) ->
      QueueReaper.sent d = VBool true
      /\ exists s, QueueReaper.sent_at d = Some s
                   /\ s < Timestamp_fromMillis (QueueReaper.Date_now E - 86400000)).
  { intros d Hin Hdel.
    pose proof (deleted_matched E d Hnd Hin Hdel) as Hm.
    apply matched_In in Hm. tauto. }
  split; [apply commits_run|].
  split; [apply firstn_le_length|].
  split; [intros Hq Hc; rewrite deleted_run, Hq, Hc; reflexivity|].
  split; [exact Hold|].
  split.
  - intros d s Hlen Hq Hc Hin Hsent Hat Hlt.
    rewrite deleted_run, Hq, Hc. apply in_map.
    apply (matched_all E d s); assumption.
  - split.
    + intros d Hin Hat Hdel.
      destruct (Hold d Hin Hdel) as (_ & s & Hs & Hlt).
      rewrite Hat in Hs. injection Hs as <-.
      unfold Timestamp_fromMillis in Hlt. lia.
    + intros d Hin Hsent Hdel.
      destruct (Hold d Hin Hdel) as (Ht & _). contradiction.
Qed.

(** On an outbox with a record sent 25 hours ago, one sent 23 hours ago
    and an unsent one of 30 days: only the first goes. *)
Lemma queue_reaper_retention_witness :
  QueueReaper.commits (snd (QueueReaper.run Scenario.outbox)) = [[QueueDoc "sent-25h"]]
  /\ QueueReaper.deleted (snd (QueueReaper.run Scenario.outbox)) = [QueueDoc "sent-25h"]
  /\ ~ In (QueueDoc "sent-23h") (QueueReaper.deleted (snd (QueueReaper.run Scenario.outbox)))
  /\ ~ In (QueueDoc "unsent-30d") (QueueReaper.deleted (snd (QueueReaper.run Scenario.outbox))).
Proof.
  destruct (queue_reaper_retention Scenario.outbox)
    as (Hcommits & _ & Hdeleted & _ & _ & Hrecent & Hunsent).
  { cbn. repeat (constructor; [cbn; intuition discriminate|]). constructor. }
  split; [exact Hcommits|]. split; [apply Hdeleted; reflexivity|]. split.
  - apply (Hrecent
             {| QueueReaper.id := "sent-23h";
                QueueReaper.sent := VBool true;
                QueueReaper.sent_at :=
                  Some (Timestamp_fromMillis (Scenario.clock - Scenario.hours 23)) |}).
    + right. left. reflexivity.
    + reflexivity.
  - apply (Hunsent
             {| QueueReaper.id := "unsent-30d";
                QueueReaper.sent := VBool false;
                QueueReaper.sent_at :=
                  Some (Timestamp_fromMillis (Scenario.clock - Scenario.hours 720)) |}).
    + right. right. left. reflexivity.
    + discriminate.
Defined.

(** ** ContentReaper *)

Section ContentReaperSteps.
Import ContentReaper.
Variable E : env.

Lemma delete_question_eq (doc : Question) :
  delete_question E doc
  = (let* answersSnapshot := get_answers E doc in
     for_of answersSnapshot
       (fun answerDoc => queue_op E (AnswerDoc (id doc) answerDoc) count_answer) ;;
     queue_op E (QuestionDoc (id doc)) count_question)%async.
Proof. reflexivity. Qed.

Variable bump : locals -> locals.
Hypothesis bump_batch : forall v, batch (bump v) = batch v.
Hypothesis bump_ops : forall v, batchOperations (bump v) = batchOperations v.

Lemma queue_op_spec (r : ref) (v : locals) (tr : list event) :
  consistent v ->
  exists c v' tr',
    queue_op E r bump (v, tr) = (c, (v', tr'))
    /\ queue_op_outcome E r v tr c v' tr'.
Proof.
  intros (Hlen & Hle & Hlt).
  unfold queue_op, bind, delete, batch_delete.
  destruct (committed (batch v)) eqn:Hc.
  - eexists _, _, _. split; [reflexivity|]. apply refused. exact Hc.
  - specialize (Hlt eq_refl).
    unfold flush_if_full, bind, get, assign, modify.
    cbn -[Nat.leb MAX_BATCH_SIZE].
    rewrite bump_ops. cbn -[Nat.leb MAX_BATCH_SIZE].
    destruct (Nat.leb MAX_BATCH_SIZE (S (batchOperations v))) eqn:Hfull.
    + apply Nat.leb_le in Hfull.
      assert (Hcap : S (batchOperations v) = MAX_BATCH_SIZE) by lia.
      unfold commit, console, modify. cbn -[Nat.leb MAX_BATCH_SIZE].
      rewrite bump_batch. cbn -[Nat.leb MAX_BATCH_SIZE].
      destruct (batch_commit E (length (List.filter is_commit tr))) as [e|] eqn:Hk;
        cbn -[Nat.leb MAX_BATCH_SIZE].
      * eexists _, _, _. split; [reflexivity|].
        apply flush_failed; cbn -[MAX_BATCH_SIZE]; try assumption; try reflexivity.
        rewrite bump_ops. cbn -[MAX_BATCH_SIZE]. exact Hcap.
      * eexists _, _, _. split; [reflexivity|].
        rewrite <- app_assoc. cbn -[MAX_BATCH_SIZE].
        apply flushed; cbn -[MAX_BATCH_SIZE]; try assumption; reflexivity.
    + apply Nat.leb_gt in Hfull.
      eexists _, _, _. split; [reflexivity|].
      apply queued; cbn -[MAX_BATCH_SIZE]; try assumption.
      * rewrite bump_batch. reflexivity.
      * rewrite bump_ops. reflexivity.
Qed.
End ContentReaperSteps.

Section ContentReaperLoops.
Import ContentReaper.
Variable E : env.

Lemma quiet_nil : quiet [].
Proof. repeat split. constructor. Qed.

Lemma quiet_app (a b : list event) : quiet a -> quiet b -> quiet (a ++ b).
Proof.
  intros (Ha1 & Ha2 & Ha3) (Hb1 & Hb2 & Hb3).
  unfold quiet, commits, answers_reads, post_errors in *.
  rewrite !flat_map_app. rewrite Ha2, Ha3, Hb2, Hb3.
  repeat split. apply Forall_app; split; assumption.
Qed.

Lemma deleted_app (a b : list event) : deleted (a ++ b) = deleted a ++ deleted b.
Proof. apply flat_map_app. Qed.

Lemma commits_app (a b : list event) : commits (a ++ b) = commits a ++ commits b.
Proof. apply flat_map_app. Qed.

Lemma answers_reads_app (a b : list event) :
  answers_reads (a ++ b) = answers_reads a ++ answers_reads b.
Proof. apply flat_map_app. Qed.

Lemma post_errors_app (a b : list event) :
  post_errors (a ++ b) = post_errors a ++ post_errors b.
Proof. apply flat_map_app. Qed.

Lemma In_post_errors (q : string) (tr : list event) :
  In q (post_errors tr) <-> exists e, In (Console (PostError q e)) tr.
Proof.
  unfold post_errors. rewrite in_flat_map. split.
  - intros (ev & Hin & Hq). destruct ev as [[]| | |]; cbn in Hq; try contradiction.
    destruct Hq as [->|[]]. eexists. exact Hin.
  - intros (e & Hin). eexists. split; [exact Hin|]. left. reflexivity.
Qed.

Section QueueOp.
Variable bump : locals -> locals.
Hypothesis bump_batch : forall v, batch (bump v) = batch v.
Hypothesis bump_ops : forall v, batchOperations (bump v) = batchOperations v.

(** One queued delete keeps the counter and the batch in step, loses
    nothing that was queued or removed, commits at most a full batch, and,
    when it returns, has the document queued or removed. *)
Lemma queue_op_sound (r : ref) (v : locals) (tr : list event)
    (c : completion unit) (v' : locals) (tr' : list event) :
  consistent v ->
  queue_op E r bump (v, tr) = (c, (v', tr')) ->
  consistent v'
  /\ incl (reach (v, tr)) (reach (v', tr'))
  /\ (exists ext, tr' = tr ++ ext /\ quiet ext)
  /\ (c = Resolved tt -> In r (reach (v', tr'))).
Proof.
  intros Hv Hrun.
  destruct (queue_op_spec E bump bump_batch bump_ops r v tr Hv)
    as (c0 & v0 & tr0 & Heq & Hcase).
  rewrite Hrun in Heq. injection Heq as <- <- <-.
  destruct Hv as (Hlen & Hle & Hlt).
  unfold reach; cbn [fst snd].
  destruct Hcase as [Hc | v' Hc Hn Hb Ho | v' d a Hc Hn Hk Hb Ho | v' e Hc Hn Hk Hb Ho].
  - split; [repeat split; assumption|].
    split; [apply incl_refl|].
    split; [exists []; rewrite app_nil_r; split; [reflexivity|apply quiet_nil]|].
    discriminate.
  - split.
    { unfold consistent. rewrite Hb, Ho. cbn [ops committed].
      rewrite length_app. cbn [length]. repeat split; lia. }
    split.
    { rewrite Hb. cbn [ops]. intros x Hx. apply in_app_iff in Hx as [Hx|Hx];
        apply in_app_iff; [left|right; apply in_app_iff; left]; exact Hx. }
    split; [exists []; rewrite app_nil_r; split; [reflexivity|apply quiet_nil]|].
    intros _. rewrite Hb. cbn [ops]. apply in_app_iff. right.
    apply in_app_iff. right. left. reflexivity.
  - split.
    { unfold consistent. rewrite Hb, Ho. cbn. repeat split; unfold MAX_BATCH_SIZE; intros; lia. }
    split.
    { rewrite Hb, deleted_app. cbn. rewrite !app_nil_r.
      intros x Hx. apply in_app_iff in Hx as [Hx|Hx]; apply in_app_iff;
        [left|right; apply in_app_iff; left]; exact Hx. }
    split.
    { eexists. split; [reflexivity|]. split; [|split; reflexivity].
      cbn [commits flat_map app]. constructor; [|constructor].
      unfold capped. rewrite length_app. cbn [length]. lia. }
    intros _. rewrite Hb, deleted_app. cbn. rewrite !app_nil_r.
    apply in_app_iff. right. apply in_app_iff. right. left. reflexivity.
  - split.
    { unfold consistent. rewrite Hb, Ho. cbn [ops committed].
      rewrite length_app. cbn [length]. repeat split; intros; try lia; discriminate. }
    split.
    { rewrite Hb, deleted_app. cbn. rewrite !app_nil_r.
      intros x Hx. apply in_app_iff in Hx as [Hx|Hx]; apply in_app_iff;
        [left|right; apply in_app_iff; left]; exact Hx. }
    split.
    { eexists. split; [reflexivity|]. split; [|split; reflexivity].
      cbn [commits flat_map app]. constructor; [|constructor].
      unfold capped. rewrite length_app. cbn [length]. lia. }
    discriminate.
Qed.
End QueueOp.
End ContentReaperLoops.

Section ContentReaperRun.
Import ContentReaper.
Variable E : env.

Lemma count_answer_batch (v : locals) : batch (count_answer v) = batch v.
Proof. reflexivity. Qed.

Lemma count_answer_ops (v : locals) :
  batchOperations (count_answer v) = batchOperations v.
Proof. reflexivity. Qed.

Lemma count_question_batch (v : locals) : batch (count_question v) = batch v.
Proof. reflexivity. Qed.

Lemma count_question_ops (v : locals) :
  batchOperations (count_question v) = batchOperations v.
Proof. reflexivity. Qed.

Lemma reach_app_quiet (v : locals) (tr ext : list event) :
  deleted ext = [] -> reach (v, tr ++ ext) = reach (v, tr).
Proof.
  intros H. unfold reach. cbn [fst snd]. rewrite deleted_app, H, app_nil_r. reflexivity.
Qed.

(** The inner loop of lines 185-197. *)
Lemma answers_loop_sound (qid : string) (l : list string) :
  forall (v : locals) (tr : list event) (c : completion unit)
         (v' : locals) (tr' : list event),
    consistent v ->
    for_of l (fun a => queue_op E (AnswerDoc qid a) count_answer) (v, tr)
    = (c, (v', tr')) ->
    consistent v'
    /\ incl (reach (v, tr)) (reach (v', tr'))
    /\ (exists ext, tr' = tr ++ ext /\ quiet ext)
    /\ (c = Resolved tt -> forall a, In a l -> In (AnswerDoc qid a) (reach (v', tr'))).
Proof.
  induction l as [|a l IH]; intros v tr c v' tr' Hv Hrun.
  - cbn in Hrun. injection Hrun as <- <- <-.
    split; [exact Hv|]. split; [apply incl_refl|].
    split; [exists []; rewrite app_nil_r; split; [reflexivity|apply quiet_nil]|].
    intros _ a [].
  - cbn [for_of] in Hrun. unfold bind in Hrun.
    destruct (queue_op E (AnswerDoc qid a) count_answer (v, tr))
      as [c1 [v1 tr1]] eqn:Hop.
    destruct (queue_op_sound E count_answer count_answer_batch count_answer_ops
                _ _ _ _ _ _ Hv Hop) as (Hv1 & Hinc1 & (ext1 & -> & Hq1) & Hin1).
    destruct c1 as [[]|e].
    + destruct (IH _ _ _ _ _ Hv1 Hrun) as (Hv' & Hinc & (ext2 & -> & Hq2) & Hin).
      split; [exact Hv'|].
      split; [eapply incl_tran; eassumption|].
      split; [exists (ext1 ++ ext2); rewrite app_assoc; split;
              [reflexivity|apply quiet_app; assumption]|].
      intros Hc b [<-|Hb].
      * apply Hinc. apply Hin1. reflexivity.
      * apply Hin; assumption.
    + injection Hrun as <- <- <-.
      split; [exact Hv1|]. split; [exact Hinc1|].
      split; [exists ext1; split; [reflexivity|exact Hq1]|].
      discriminate.
Qed.

(** The body of the [try] for one question. *)
Lemma delete_question_sound (q : Question) (v : locals) (tr : list event)
    (c : completion unit) (v' : locals) (tr' : list event) :
  consistent v ->
  delete_question E q (v, tr) = (c, (v', tr')) ->
  consistent v'
  /\ incl (reach (v, tr)) (reach (v', tr'))
  /\ (exists ext,
        tr' = tr ++ AnswersGet (id q) (answers_get E (id q)) :: ext /\ quiet ext)
  /\ (c = Resolved tt -> incl (question_refs q) (reach (v', tr')))
  /\ (forall e, answers_get E (id q) = Some e -> c = Rejected e).
Proof.
  intros Hv Hrun. rewrite delete_question_eq in Hrun.
  unfold bind at 1 in Hrun. unfold get_answers in Hrun.
  assert (Hread : forall x, reach (v, tr ++ [AnswersGet (id q) x]) = reach (v, tr))
    by (intros x; apply reach_app_quiet; reflexivity).
  destruct (answers_get E (id q)) as [e|] eqn:Hget.
  - injection Hrun as <- <- <-.
    split; [exact Hv|]. split; [rewrite Hread; apply incl_refl|].
    split; [exists []; split; [reflexivity|apply quiet_nil]|].
    split; [discriminate|]. intros e' He'. injection He' as <-. reflexivity.
  - unfold bind at 1 in Hrun.
    destruct (for_of (answers q)
                (fun a => queue_op E (AnswerDoc (id q) a) count_answer)
                (v, tr ++ [AnswersGet (id q) None])) as [c1 [v1 tr1]] eqn:Hloop.
    destruct (answers_loop_sound _ _ _ _ _ _ _ Hv Hloop)
      as (Hv1 & Hinc1 & (ext1 & -> & Hq1) & Hin1).
    rewrite Hread in Hinc1.
    destruct c1 as [[]|e].
    + destruct (queue_op_sound E count_question count_question_batch
                  count_question_ops _ _ _ _ _ _ Hv1 Hrun)
        as (Hv' & Hinc & (ext2 & -> & Hq2) & Hin).
      split; [exact Hv'|].
      split; [eapply incl_tran; eassumption|].
      split.
      { exists (ext1 ++ ext2). rewrite <- !app_assoc. cbn.
        split; [reflexivity|apply quiet_app; assumption]. }
      split; [|discriminate].
      intros Hc x Hx. unfold question_refs, answer_refs in Hx.
      apply in_app_iff in Hx as [Hx|[<-|[]]].
      * apply in_map_iff in Hx as (a & <- & Ha).
        apply Hinc. apply Hin1; [reflexivity|exact Ha].
      * apply Hin. exact Hc.
    + injection Hrun as <- <- <-.
      split; [exact Hv1|]. split; [exact Hinc1|].
      split.
      { exists ext1. rewrite <- app_assoc. cbn. split; [reflexivity|exact Hq1]. }
      split; discriminate.
Qed.
End ContentReaperRun.

Section ContentReaperWhole.
Import ContentReaper.
Variable E : env.

(** The loop of lines 180-215: every iteration ends normally, whatever its
    [try] block did. *)
Lemma questions_loop_sound (docs : list Question) :
  forall (v : locals) (tr : list event) (c : completion unit)
         (v' : locals) (tr' : list event),
    consistent v ->
    delete_questions E docs (v, tr) = (c, (v', tr')) ->
    c = Resolved tt
    /\ consistent v'
    /\ incl (reach (v, tr)) (reach (v', tr'))
    /\ exists ext,
         tr' = tr ++ ext
         /\ Forall capped (commits ext)
         /\ answers_reads ext = map id docs
         /\ (forall q, In q docs ->
               In (id q) (post_errors ext)
               \/ incl (question_refs q) (reach (v', tr')))
         /\ (forall q e, In q docs -> answers_get E (id q) = Some e ->
               In (Console (PostError (id q) e)) ext).
Proof.
  induction docs as [|d docs IH]; intros v tr c v' tr' Hv Hrun.
  - cbn in Hrun. injection Hrun as <- <- <-.
    split; [reflexivity|]. split; [exact Hv|]. split; [apply incl_refl|].
    exists []. rewrite app_nil_r. split; [reflexivity|].
    split; [constructor|]. split; [reflexivity|].
    split; [intros q []|intros q e []].
  - unfold delete_questions in Hrun. cbn [for_of] in Hrun.
    unfold bind at 1 in Hrun. unfold try_catch at 1 in Hrun.
    destruct (delete_question E d (v, tr)) as [c1 [v1 tr1]] eqn:Hq.
    destruct (delete_question_sound E d _ _ _ _ _ Hv Hq)
      as (Hv1 & Hinc1 & (ext1 & -> & (Hcap1 & Hreads1 & Herr1)) & Hrefs1 & Hfail1).
    set (got := AnswersGet (id d) (answers_get E (id d))) in *.
    destruct c1 as [[]|e].
    + fold (delete_questions E docs) in Hrun.
      destruct (IH _ _ _ _ _ Hv1 Hrun)
        as (-> & Hv' & Hinc & (ext2 & -> & Hcap2 & Hreads2 & Hall2 & Hlog2)).
      split; [reflexivity|]. split; [exact Hv'|].
      split; [eapply incl_tran; eassumption|].
      exists ((got :: ext1) ++ ext2). rewrite app_assoc. split; [reflexivity|].
      split.
      { rewrite commits_app. apply Forall_app. split; [exact Hcap1|exact Hcap2]. }
      split.
      { rewrite answers_reads_app.
        change (answers_reads (got :: ext1)) with (id d :: answers_reads ext1).
        rewrite Hreads1, Hreads2. reflexivity. }
      split.
      * intros q [<-|Hin].
        -- right. eapply incl_tran; [apply Hrefs1; reflexivity|exact Hinc].
        -- destruct (Hall2 q Hin) as [H|H]; [left|right; exact H].
           rewrite post_errors_app. apply in_app_iff. right. exact H.
      * intros q e [<-|Hin] Hget.
        -- specialize (Hfail1 e Hget). discriminate Hfail1.
        -- apply in_app_iff. right. apply (Hlog2 q e Hin Hget).
    + unfold console, modify in Hrun. cbn [fst snd] in Hrun.
      fold (delete_questions E docs) in Hrun.
      assert (Hr : reach (v1, (tr ++ got :: ext1) ++ [Console (PostError (id d) e)])
                   = reach (v1, tr ++ got :: ext1))
        by (apply reach_app_quiet; reflexivity).
      destruct (IH _ _ _ _ _ Hv1 Hrun)
        as (-> & Hv' & Hinc & (ext2 & -> & Hcap2 & Hreads2 & Hall2 & Hlog2)).
      rewrite Hr in Hinc.
      split; [reflexivity|]. split; [exact Hv'|].
      split; [eapply incl_tran; eassumption|].
      exists (((got :: ext1) ++ [Console (PostError (id d) e)]) ++ ext2).
      split; [rewrite !app_assoc; reflexivity|].
      split.
      { rewrite !commits_app. cbn [commits flat_map]. rewrite app_nil_r.
        apply Forall_app. split; [exact Hcap1|exact Hcap2]. }
      split.
      { rewrite !answers_reads_app.
        change (answers_reads (got :: ext1)) with (id d :: answers_reads ext1).
        rewrite Hreads1, Hreads2. reflexivity. }
      split.
      * intros q [<-|Hin].
        -- left. rewrite !post_errors_app. apply in_app_iff. left.
           apply in_app_iff. right. left. reflexivity.
        -- destruct (Hall2 q Hin) as [H|H]; [left|right; exact H].
           rewrite post_errors_app. apply in_app_iff. right. exact H.
      * intros q e' [<-|Hin] Hget.
        -- specialize (Hfail1 e' Hget). injection Hfail1 as ->.
           apply in_app_iff. left. apply in_app_iff. right. left. reflexivity.
        -- apply in_app_iff. right. apply (Hlog2 q e' Hin Hget).
Qed.
End ContentReaperWhole.

Section ContentReaperOutcome.
Import ContentReaper.
Variable E : env.

Lemma consistent_init : consistent init.
Proof. unfold consistent, init, MAX_BATCH_SIZE. cbn. repeat split; intros; lia. Qed.

Lemma run_query_rejected (e : error) :
  questions_get E = Some e ->
  run E = (Rejected e, [Console Starting; QuestionsGet (Some e)]).
Proof.
  intros H. unfold run, cleanupExpiredPosts, bind, console, modify, get_expired.
  cbn. rewrite H. reflexivity.
Qed.

Lemma run_nothing_expired :
  questions_get E = None -> matched E = [] ->
  run E = (Resolved tt, [Console Starting; QuestionsGet None; Console NothingExpired]).
Proof.
  intros H Hm. unfold run, cleanupExpiredPosts, bind, console, modify, get_expired.
  cbn. rewrite H. fold (matched E). rewrite Hm. reflexivity.
Qed.

(** A run whose query found something: the loop over the matched
    questions, then at most one more commit. *)
Lemma run_found :
  questions_get E = None -> matched E <> [] ->
  exists (v : locals) (ext fin : list event) (c : completion unit),
    run E
    = (c, [Console Starting; QuestionsGet None; Console (Found (length (matched E)))]
          ++ ext ++ fin)
    /\ delete_questions E (matched E)
         (init, [Console Starting; QuestionsGet None;
                 Console (Found (length (matched E)))])
       = (Resolved tt,
          (v, [Console Starting; QuestionsGet None;
               Console (Found (length (matched E)))] ++ ext))
    /\ consistent v
    /\ Forall capped (commits ext)
    /\ answers_reads ext = map id (matched E)
    /\ (forall q, In q (matched E) ->
          In (id q) (post_errors ext)
          \/ incl (question_refs q) (deleted ext ++ ops (batch v)))
    /\ (forall q e, In q (matched E) -> answers_get E (id q) = Some e ->
          In (Console (PostError (id q) e)) ext)
    /\ ((batchOperations v = 0%nat /\ c = Resolved tt /\ quiet fin
         /\ deleted fin = [])
        \/ (exists k l,
              (0 < batchOperations v)%nat
              /\ c = settle (batch_commit E k)
              /\ fin = Commit (ops (batch v)) (batch_commit E k) :: l
              /\ quiet l /\ deleted l = [])).
Proof.
  intros H Hm.
  unfold run, cleanupExpiredPosts.
  unfold bind at 1. unfold console at 1, modify at 1. cbn [fst snd app].
  unfold bind at 1. unfold get_expired. rewrite H. fold (matched E).
  destruct (matched E) as [|q0 qs] eqn:Hmatched; [contradiction|].
  unfold bind at 1. unfold console at 1, modify at 1. cbn [fst snd app].
  unfold bind at 1.
  destruct (delete_questions E (q0 :: qs)
              (init, [Console Starting; QuestionsGet None;
                      Console (Found (length (q0 :: qs)))]))
    as [c1 [v1 tr1]] eqn:Hloop.
  destruct (questions_loop_sound E _ _ _ _ _ _ consistent_init Hloop)
    as (-> & Hv1 & _ & (ext & -> & Hcap & Hreads & Hall & Hlog)).
  exists v1, ext.
  assert (Hreach : forall q, In q (q0 :: qs) ->
            In (id q) (post_errors ext)
            \/ incl (question_refs q) (deleted ext ++ ops (batch v1))).
  { intros q Hq. destruct (Hall q Hq) as [Hl|Hr]; [left; exact Hl|right].
    unfold reach in Hr. cbn [fst snd] in Hr. rewrite deleted_app in Hr. exact Hr. }
  unfold bind at 1. unfold get at 1. cbn [fst snd].
  destruct (Nat.ltb 0 (batchOperations v1)) eqn:Hpos.
  - apply Nat.ltb_lt in Hpos.
    unfold bind, commit, console, modify, ret. cbn [fst snd].
    set (k := length (List.filter is_commit
                ([Console Starting; QuestionsGet None;
                  Console (Found (length (q0 :: qs)))] ++ ext))).
    destruct (batch_commit E k) as [e|] eqn:Hk; cbn [settle fst snd].
    + exists [Commit (ops (batch v1)) (Some e)], (Rejected e).
      split; [rewrite <- app_assoc; reflexivity|].
      split; [reflexivity|].
      repeat (split; [assumption|]).
      right. exists k, []. rewrite Hk. repeat split; try assumption. constructor.
    + exists [Commit (ops (batch v1)) None;
              Console (Finished (deletedCount v1) (totalAnswersDeleted v1))],
        (Resolved tt).
      split; [rewrite <- !app_assoc; reflexivity|].
      split; [reflexivity|].
      repeat (split; [assumption|]).
      right. exists k, [Console (Finished (deletedCount v1) (totalAnswersDeleted v1))].
      rewrite Hk. repeat split; try assumption. constructor.
  - apply Nat.ltb_ge in Hpos.
    destruct (Nat.ltb 0 (deletedCount v1));
      unfold bind, console, modify, ret; cbn [fst snd].
    + exists [Console (Finished (deletedCount v1) (totalAnswersDeleted v1))],
        (Resolved tt).
      split; [rewrite <- !app_assoc; reflexivity|].
      split; [reflexivity|].
      repeat (split; [assumption|]).
      left. repeat split; try lia. constructor.
    + exists [], (Resolved tt). split; [rewrite !app_nil_r; reflexivity|].
      split; [reflexivity|].
      repeat (split; [assumption|]).
      left. repeat split; try lia. constructor.
Qed.
End ContentReaperOutcome.

(** C2. Every [commit()] a run of the content reaper issues carries at
    most 500 operations: whatever the number of answers of a question, and
    whichever of the query, the reads of the answers and the commits
    themselves fail. *)
Theorem content_reaper_batch_cap (E : ContentReaper.env) :
  Forall (fun d : list ref => (length d <= 500)%nat)
    (ContentReaper.commits (snd (ContentReaper.run E))).
Proof.
  change (Forall ContentReaper.capped (ContentReaper.commits (snd (ContentReaper.run E)))).
  destruct (ContentReaper.questions_get E) as [e|] eqn:Hq.
  - rewrite (run_query_rejected E e Hq). constructor.
  - destruct (ContentReaper.matched E) as [|q0 qs] eqn:Hm.
    + rewrite (run_nothing_expired E Hq Hm). constructor.
    + assert (Hne : ContentReaper.matched E <> []) by (rewrite Hm; discriminate).
      destruct (run_found E Hq Hne)
        as (v & ext & fin & c & -> & _ & Hv & Hcap & _ & _ & _ & Hfin).
      cbn [snd]. rewrite !commits_app. cbn [ContentReaper.commits flat_map app].
      apply Forall_app. split; [exact Hcap|].
      destruct Hfin as [(_ & _ & (Hf & _) & _) | (k & l & _ & _ & -> & (Hl & _) & _)].
      * exact Hf.
      * change (ContentReaper.commits (ContentReaper.Commit ?d ?r :: ?t))
          with (d :: ContentReaper.commits t).
        constructor; [|exact Hl].
        destruct Hv as (Hlen & Hle & _). unfold ContentReaper.capped. lia.
Qed.

Section ContentReaperCommitsResolve.
Import ContentReaper.
Variable E : env.
Hypothesis commits_ok : forall k, batch_commit E k = None.

Lemma queue_op_ok (bump : locals -> locals)
    (bump_batch : forall v, batch (bump v) = batch v)
    (bump_ops : forall v, batchOperations (bump v) = batchOperations v)
    (r : ref) (v : locals) (tr : list event) :
  consistent v -> committed (batch v) = false ->
  exists v' tr',
    queue_op E r bump (v, tr) = (Resolved tt, (v', tr'))
    /\ consistent v' /\ committed (batch v') = false
    /\ reach (v', tr') = reach (v, tr) ++ [r].
Proof.
  intros Hv Hopen.
  destruct (queue_op_spec E bump bump_batch bump_ops r v tr Hv)
    as (c & v' & tr' & Heq & Hcase).
  destruct (queue_op_sound E bump bump_batch bump_ops _ _ _ _ _ _ Hv Heq) as (Hv' & _).
  unfold reach; cbn [fst snd].
  destruct Hcase as [Hc | v' Hc Hn Hb Ho | v' d a Hc Hn Hk Hb Ho | v' e Hc Hn Hk Hb Ho].
  - congruence.
  - exists v', tr. split; [exact Heq|]. split; [exact Hv'|].
    rewrite Hb. cbn [ops committed]. split; [reflexivity|]. apply app_assoc.
  - eexists v', _. split; [exact Heq|]. split; [exact Hv'|].
    rewrite Hb, deleted_app. cbn. split; [reflexivity|].
    rewrite !app_nil_r. apply app_assoc.
  - rewrite commits_ok in Hk. discriminate Hk.
Qed.

Lemma answers_loop_ok (qid : string) (l : list string) :
  forall (v : locals) (tr : list event),
    consistent v -> committed (batch v) = false ->
    exists v' tr',
      for_of l (fun a => queue_op E (AnswerDoc qid a) count_answer) (v, tr)
      = (Resolved tt, (v', tr'))
      /\ consistent v' /\ committed (batch v') = false
      /\ reach (v', tr') = reach (v, tr) ++ map (AnswerDoc qid) l.
Proof.
  induction l as [|a l IH]; intros v tr Hv Hopen.
  - exists v, tr. cbn. rewrite app_nil_r. auto.
  - destruct (queue_op_ok count_answer count_answer_batch count_answer_ops
                (AnswerDoc qid a) v tr Hv Hopen)
      as (v1 & tr1 & Hop & Hv1 & Hopen1 & Hreach1).
    destruct (IH v1 tr1 Hv1 Hopen1) as (v2 & tr2 & Hloop & Hv2 & Hopen2 & Hreach2).
    exists v2, tr2. cbn [for_of]. unfold bind. rewrite Hop, Hloop.
    split; [reflexivity|]. split; [exact Hv2|]. split; [exact Hopen2|].
    rewrite Hreach2, Hreach1, <- app_assoc. reflexivity.
Qed.

Lemma delete_question_ok (q : Question) (v : locals) (tr : list event) :
  consistent v -> committed (batch v) = false ->
  exists c v' tr',
    delete_question E q (v, tr) = (c, (v', tr'))
    /\ consistent v' /\ committed (batch v') = false
    /\ reach (v', tr') = reach (v, tr) ++ cascade E q
    /\ forall l, reach (v', tr' ++ [Console l]) = reach (v', tr').
Proof.
  intros Hv Hopen. rewrite delete_question_eq. unfold cascade.
  unfold bind at 1. unfold get_answers.
  assert (Hread : forall x, reach (v, tr ++ [AnswersGet (id q) x]) = reach (v, tr))
    by (intros x; apply reach_app_quiet; reflexivity).
  assert (Hlog : forall v' tr' l, reach (v', tr' ++ [Console l]) = reach (v', tr'))
    by (intros; apply reach_app_quiet; reflexivity).
  destruct (answers_get E (id q)) as [e|].
  - eexists _, _, _. split; [reflexivity|].
    split; [exact Hv|]. split; [exact Hopen|].
    split; [rewrite Hread, app_nil_r; reflexivity|intros l; apply Hlog].
  - destruct (answers_loop_ok (id q) (answers q) v
                (tr ++ [AnswersGet (id q) None]) Hv Hopen)
      as (v1 & tr1 & Hloop & Hv1 & Hopen1 & Hreach1).
    destruct (queue_op_ok count_question count_question_batch count_question_ops
                (QuestionDoc (id q)) v1 tr1 Hv1 Hopen1)
      as (v2 & tr2 & Hop & Hv2 & Hopen2 & Hreach2).
    exists (Resolved tt), v2, tr2. unfold bind. rewrite Hloop, Hop.
    split; [reflexivity|]. split; [exact Hv2|]. split; [exact Hopen2|].
    split; [|apply Hlog].
    rewrite Hreach2, Hreach1, Hread. unfold question_refs, answer_refs.
    rewrite <- app_assoc. reflexivity.
Qed.

Lemma questions_loop_ok (docs : list Question) :
  forall (v : locals) (tr : list event),
    consistent v -> committed (batch v) = false ->
    exists v' tr',
      delete_questions E docs (v, tr) = (Resolved tt, (v', tr'))
      /\ reach (v', tr') = reach (v, tr) ++ flat_map (cascade E) docs.
Proof.
  induction docs as [|d docs IH]; intros v tr Hv Hopen.
  - exists v, tr. cbn. rewrite app_nil_r. auto.
  - destruct (delete_question_ok d v tr Hv Hopen)
      as (c1 & v1 & tr1 & Hq & Hv1 & Hopen1 & Hreach1 & Hlog).
    unfold delete_questions. cbn [for_of]. unfold bind at 1. unfold try_catch at 1.
    rewrite Hq. fold (delete_questions E docs).
    destruct c1 as [[]|e].
    + destruct (IH v1 tr1 Hv1 Hopen1) as (v2 & tr2 & Hloop & Hreach2).
      exists v2, tr2. split; [exact Hloop|].
      rewrite Hreach2, Hreach1. cbn [flat_map]. rewrite app_assoc. reflexivity.
    + unfold console, modify. cbn [fst snd].
      destruct (IH v1 (tr1 ++ [Console (PostError (id d) e)]) Hv1 Hopen1)
        as (v2 & tr2 & Hloop & Hreach2).
      exists v2, tr2. split; [exact Hloop|].
      rewrite Hreach2, Hlog, Hreach1. cbn [flat_map]. rewrite app_assoc. reflexivity.
Qed.

(** When every commit resolves, a run removes exactly what it queued. *)
Lemma deleted_when_commits_resolve :
  questions_get E = None ->
  deleted (snd (run E)) = flat_map (cascade E) (matched E).
Proof.
  intros Hq.
  destruct (matched E) as [|q0 qs] eqn:Hm.
  - rewrite (run_nothing_expired E Hq Hm). reflexivity.
  - assert (Hne : matched E <> []) by (rewrite Hm; discriminate).
    destruct (run_found E Hq Hne)
      as (v & ext & fin & c & -> & Hloop & Hv & _ & _ & _ & _ & Hfin).
    destruct (questions_loop_ok (matched E) init
                [Console Starting; QuestionsGet None;
                 Console (Found (length (matched E)))] consistent_init eq_refl)
      as (v' & tr' & Hloop' & Hreach).
    rewrite Hloop in Hloop'. injection Hloop' as <- <-.
    assert (Hall : deleted ext ++ ops (batch v) = flat_map (cascade E) (q0 :: qs))
      by (rewrite <- Hm; exact Hreach).
    cbn [snd]. rewrite !deleted_app.
    change (deleted [Console Starting; QuestionsGet None;
                     Console (Found (length (matched E)))]) with (@nil ref).
    cbn [app]. rewrite <- Hall. f_equal.
    destruct Hfin as [(Hz & _ & _ & Hd) | (k & l & _ & _ & -> & _ & Hd)].
    + rewrite Hd. destruct Hv as (Hlen & _). rewrite Hz in Hlen.
      destruct (ops (batch v)); [reflexivity|discriminate Hlen].
    + rewrite commits_ok.
      change (deleted (Commit (ops (batch v)) None :: l))
        with (ops (batch v) ++ deleted l).
      rewrite Hd, app_nil_r. reflexivity.
Qed.
End ContentReaperCommitsResolve.

(** Membership in a computed list, by evaluation. *)
Lemma In_by_decide {A} `{EqDecision A} (x : A) (l : list A) :
  bool_decide (x ∈ l) = true -> In x l.
Proof. intros H. apply list_elem_of_In. apply bool_decide_eq_true in H. exact H. Qed.

Lemma not_In_by_decide {A} `{EqDecision A} (x : A) (l : list A) :
  bool_decide (x ∈ l) = false -> ~ In x l.
Proof.
  intros H Hin. apply list_elem_of_In in Hin.
  apply bool_decide_eq_false in H. contradiction.
Qed.

(** A question with 1001 answers is removed in three commits of 500, 500
    and 2 operations. *)
Example long_thread_commits :
  map (@length ref) (ContentReaper.commits (snd (ContentReaper.run Scenario.long_thread)))
  = [500; 500; 2]%nat
  /\ length (ContentReaper.deleted (snd (ContentReaper.run Scenario.long_thread)))
     = 1002%nat.
Proof. split; [vm_compute; reflexivity|vm_compute; reflexivity]. Qed.

(** After a commit issued inside the loop is rejected, the committed batch
    stays the current one: the deletes of every later question are refused,
    and the commit after the loop sends the rejected batch again. *)
Example rejected_commit_blocks_later_questions :
  ContentReaper.post_errors
    (snd (ContentReaper.run Scenario.first_commit_rejected)) = ["A"; "B"]
  /\ map (@length ref)
       (ContentReaper.commits (snd (ContentReaper.run Scenario.first_commit_rejected)))
     = [500; 500]%nat
  /\ fst (ContentReaper.run Scenario.first_commit_rejected) = Resolved tt
  /\ ContentReaper.deleted (snd (ContentReaper.run Scenario.first_commit_rejected))
     = ContentReaper.question_refs (Scenario.expired "A" (Scenario.numbered 499))
  /\ ~ In (QuestionDoc "B")
        (ContentReaper.deleted (snd (ContentReaper.run Scenario.first_commit_rejected))).
Proof.
  split; [vm_compute; reflexivity|].
  split; [vm_compute; reflexivity|].
  split; [vm_compute; reflexivity|].
  split; [vm_compute; reflexivity|].
  apply not_In_by_decide. vm_compute. reflexivity.
Qed.

Section ContentReaperCascade.
Import ContentReaper.
Variable E : env.

Lemma question_refs_owner (q : Question) (r : ref) :
  In r (question_refs q) -> owner r = Some (id q).
Proof.
  unfold question_refs, answer_refs. intros H.
  apply in_app_iff in H as [H|[<-|[]]]; [|reflexivity].
  apply in_map_iff in H as (a & <- & _). reflexivity.
Qed.

Lemma cascade_read (M : list Question) (r : ref) :
  In r (flat_map (cascade E) M) ->
  exists q, In q M /\ In r (question_refs q) /\ answers_get E (id q) = None.
Proof.
  intros H. apply in_flat_map in H as (q & Hq & Hr). exists q.
  unfold cascade in Hr. destruct (answers_get E (id q)); [contradiction|]. auto.
Qed.

Lemma cascade_all (M : list Question) (q : Question) :
  In q M -> answers_get E (id q) = None ->
  incl (question_refs q) (flat_map (cascade E) M).
Proof.
  intros Hq Hget r Hr. apply in_flat_map. exists q. split; [exact Hq|].
  unfold cascade. rewrite Hget. exact Hr.
Qed.

Lemma cascade_iff (M : list Question) (q : Question) (r : ref) :
  In q M -> In r (question_refs q) ->
  In r (flat_map (cascade E) M) <-> answers_get E (id q) = None.
Proof.
  intros Hq Hr. split.
  - intros H. apply cascade_read in H as (q' & _ & Hr' & Hget).
    apply question_refs_owner in Hr, Hr'. congruence.
  - intros Hget. apply (cascade_all M q Hq Hget). exact Hr.
Qed.
End ContentReaperCascade.

(** C6 as stated fails when a commit is rejected.  A
    question has 1000 answers: the first 500 fill a batch that commits; the
    commit of the next 500, issued inside the [try], is rejected, which ends
    the processing of the question before its own delete is queued.  The
    failure is caught and logged, and at the end of the run answers are gone
    while the question is still there. *)
Lemma content_reaper_answers_gone_question_kept :
  ContentReaper.post_errors
    (snd (ContentReaper.run Scenario.second_commit_rejected)) = ["A"]
  /\ In (AnswerDoc "A" "0")
       (ContentReaper.deleted (snd (ContentReaper.run Scenario.second_commit_rejected)))
  /\ ~ In (QuestionDoc "A")
       (ContentReaper.deleted (snd (ContentReaper.run Scenario.second_commit_rejected))).
Proof.
  split; [vm_compute; reflexivity|]. split.
  - apply In_by_decide. vm_compute. reflexivity.
  - apply not_In_by_decide. vm_compute. reflexivity.
Qed.

(** The same without any failure inside the loop: a question with exactly
    500 answers has them committed in one batch and is itself queued in the
    next, whose commit, after the loop, is rejected. *)
Example last_commit_rejected_run :
  ContentReaper.deleted (snd (ContentReaper.run Scenario.last_commit_rejected))
  = ContentReaper.answer_refs (Scenario.expired "A" (Scenario.numbered 500))
  /\ ContentReaper.post_errors (snd (ContentReaper.run Scenario.last_commit_rejected)) = []
  /\ fst (ContentReaper.run Scenario.last_commit_rejected) = Rejected Scenario.unavailable.
Proof.
  split; [vm_compute; reflexivity|].
  split; [vm_compute; reflexivity|vm_compute; reflexivity].
Qed.

(** In [read_rejected]: A is skipped, B and its answer go. *)
Example read_rejected_run :
  ContentReaper.deleted (snd (ContentReaper.run Scenario.read_rejected))
  = [AnswerDoc "B" "b1"; QuestionDoc "B"]
  /\ ContentReaper.answers_reads (snd (ContentReaper.run Scenario.read_rejected))
     = ["A"; "B"]
  /\ ContentReaper.post_errors (snd (ContentReaper.run Scenario.read_rejected)) = ["A"].
Proof. repeat split. Qed.

(** X18. When the query resolves, the answers of every matched question
    are read, in query order, whatever happened to the questions before it;
    a rejected read of a question's answers is caught and logged under the
    question's id; and when the run returns normally, every matched question
    for which no failure was logged has been removed together with its
    answers. *)
Theorem content_reaper_every_post_attempted (E : ContentReaper.env) :
  ContentReaper.questions_get E = None ->
  ContentReaper.answers_reads (snd (ContentReaper.run E))
  = map ContentReaper.id (ContentReaper.matched E)
  /\ (forall q e,
        In q (ContentReaper.matched E) ->
        ContentReaper.answers_get E (ContentReaper.id q) = Some e ->
        In (ContentReaper.Console (ContentReaper.PostError (ContentReaper.id q) e))
          (snd (ContentReaper.run E)))
  /\ (fst (ContentReaper.run E) = Resolved tt ->
      forall q,
        In q (ContentReaper.matched E) ->
        (forall e,
            ~ In (ContentReaper.Console (ContentReaper.PostError (ContentReaper.id q) e))
                (snd (ContentReaper.run E))) ->
        In (QuestionDoc (ContentReaper.id q))
          (ContentReaper.deleted (snd (ContentReaper.run E)))
        /\ forall a, In a (ContentReaper.answers q) ->
                     In (AnswerDoc (ContentReaper.id q) a)
                       (ContentReaper.deleted (snd (ContentReaper.run E)))).
Proof.
  intros Hq.
  destruct (ContentReaper.matched E) as [|q0 qs] eqn:Hm.
  - rewrite (run_nothing_expired E Hq Hm). cbn. split; [reflexivity|].
    split; [intros q e []|intros _ q []].
  - assert (Hne : ContentReaper.matched E <> []) by (rewrite Hm; discriminate).
    destruct (run_found E Hq Hne)
      as (v & ext & fin & c & -> & _ & Hv & _ & Hreads & Hall & Hlog & Hfin).
    rewrite Hm in Hreads, Hall, Hlog. cbn [fst snd].
    assert (Hfin_reads : ContentReaper.answers_reads fin = []).
    { destruct Hfin as [(_ & _ & (_ & Hr & _) & _) | (k & l & _ & _ & -> & (_ & Hr & _) & _)];
        [exact Hr|exact Hr]. }
    split; [|split].
    + rewrite !answers_reads_app, Hfin_reads, app_nil_r. exact Hreads.
    + intros q e Hin Hget. apply in_app_iff. right. apply in_app_iff. left.
      apply (Hlog q e Hin Hget).
    + intros Hc q Hin Hclean.
      assert (Hrefs : incl (ContentReaper.question_refs q)
                        (ContentReaper.deleted ext ++ ops (ContentReaper.batch v))).
      { destruct (Hall q Hin) as [Herr|Hr]; [|exact Hr].
        apply In_post_errors in Herr as (e & He). exfalso.
        apply (Hclean e). apply in_app_iff. right. apply in_app_iff. left. exact He. }
      assert (Hdel : incl (ContentReaper.deleted ext ++ ops (ContentReaper.batch v))
                       (ContentReaper.deleted
                          ([ContentReaper.Console ContentReaper.Starting;
                            ContentReaper.QuestionsGet None;
                            ContentReaper.Console
                              (ContentReaper.Found (length (ContentReaper.matched E)))]
                           ++ ext ++ fin))).
      { rewrite !deleted_app. intros r Hr. apply in_app_iff. right.
        apply in_app_iff in Hr as [Hr|Hr]; apply in_app_iff; [left; exact Hr|right].
        destruct Hfin as [(Hz & _ & _ & _) | (k & l & _ & Hs & -> & _ & _)].
        - destruct Hv as (Hlen & _). rewrite Hz in Hlen.
          destruct (ops (ContentReaper.batch v)); [contradiction|discriminate Hlen].
        - rewrite Hs in Hc. destruct (ContentReaper.batch_commit E k); [discriminate Hc|].
          change (ContentReaper.deleted (ContentReaper.Commit ?d None :: ?t))
            with (d ++ ContentReaper.deleted t).
          apply in_app_iff. left. exact Hr. }
      split.
      * apply Hdel, Hrefs. unfold ContentReaper.question_refs.
        apply in_app_iff. right. left. reflexivity.
      * intros a Ha. apply Hdel, Hrefs.
        unfold ContentReaper.question_refs, ContentReaper.answer_refs.
        apply in_app_iff. left. apply in_map. exact Ha.
Qed.

(** On a run in which the read of the first question's answers is rejected. *)
Lemma content_reaper_every_post_attempted_witness :
  ContentReaper.answers_reads (snd (ContentReaper.run Scenario.read_rejected))
  = map ContentReaper.id (ContentReaper.matched Scenario.read_rejected)
  /\ (forall q e,
        In q (ContentReaper.matched Scenario.read_rejected) ->
        ContentReaper.answers_get Scenario.read_rejected (ContentReaper.id q) = Some e ->
        In (ContentReaper.Console (ContentReaper.PostError (ContentReaper.id q) e))
          (snd (ContentReaper.run Scenario.read_rejected)))
  /\ (fst (ContentReaper.run Scenario.read_rejected) = Resolved tt ->
      forall q,
        In q (ContentReaper.matched Scenario.read_rejected) ->
        (forall e,
            ~ In (ContentReaper.Console (ContentReaper.PostError (ContentReaper.id q) e))
                (snd (ContentReaper.run Scenario.read_rejected))) ->
        In (QuestionDoc (ContentReaper.id q))
          (ContentReaper.deleted (snd (ContentReaper.run Scenario.read_rejected)))
        /\ forall a, In a (ContentReaper.answers q) ->
                     In (AnswerDoc (ContentReaper.id q) a)
                       (ContentReaper.deleted (snd (ContentReaper.run Scenario.read_rejected)))).
Proof.
  apply (content_reaper_every_post_attempted Scenario.read_rejected).
  reflexivity.
Defined.

(** ** ManualEnqueue *)

Section ManualEnqueueFacts.
Import ManualEnqueue.
Variable E : env.
Variable req : Request.

Lemma run_post :
  method req = "POST" ->
  run E req
  = try_catch
      (let b := req_body req in
       if negb (truthy (userId b)) then
         ret (respond 400 (Json [("error", VStr "userId is required")]))
       else
         let* userDoc := get_profile E (userId b) in
         if negb (exists_ userDoc) then
           ret (respond 404 (Json [("error", VStr "User not found")]))
         else
           if negb (truthy (fcm_token userDoc)) then
             ret (respond 400 (Json [("error", VStr "User has no FCM token")]))
           else
             add E (new_outbox_document b (fcm_token userDoc)) ;;
             ret (respond 200
                    (Json [("success", VBool true);
                           ("message", VStr "Notification queued for sending")])))%async
      (fun error =>
         (console (HandlerError error) ;;
          ret (respond 500 (Json [("error", VStr (message error))])))%async) [].
Proof.
  intros H. unfold run, sendTestNotification. rewrite H. reflexivity.
Qed.

Lemma run_post_found (p : ProfileSnapshot) :
  method req = "POST" ->
  truthy (userId (req_body req)) = true ->
  profile_get E (userId (req_body req)) = inr p ->
  exists_ p = true ->
  truthy (fcm_token p) = true ->
  run E req
  = match queue_add E (new_outbox_document (req_body req) (fcm_token p)) with
    | None =>
        (Resolved
           (respond 200
              (Json [("success", VBool true);
                     ("message", VStr "Notification queued for sending")])),
         [ProfileGet (userId (req_body req)) (inr p);
          QueueAdd (new_outbox_document (req_body req) (fcm_token p)) None])
    | Some e =>
        (Resolved (respond 500 (Json [("error", VStr (message e))])),
         [ProfileGet (userId (req_body req)) (inr p);
          QueueAdd (new_outbox_document (req_body req) (fcm_token p)) (Some e);
          Console (HandlerError e)])
    end.
Proof.
  intros Hm Hu Hp He Ht. rewrite (run_post Hm).
  unfold try_catch, bind, get_profile, add. cbn zeta. rewrite Hu. cbn [negb].
  rewrite Hp, He. cbn [negb]. rewrite Ht. cbn [negb].
  destruct (queue_add E _); reflexivity.
Qed.
End ManualEnqueueFacts.

(** C9. The endpoint answers: 204 to OPTIONS; 405 to any method other than
    OPTIONS and POST; to a POST, 400 [userId is required] when the body has
    no [userId], 404 [User not found] when the profile does not exist, 400
    [User has no FCM token] when the profile has no token, none of these
    inserting anything; and for a profile with a token it asks the store
    for exactly one insert, of the new outbox record with [sent: false], and
    with that insert done answers 200 with the success message. *)
Theorem manual_enqueue_contract (E : ManualEnqueue.env) (req : ManualEnqueue.Request) :
  (ManualEnqueue.method req = "OPTIONS" ->
   ManualEnqueue.run E req = (Resolved (ManualEnqueue.respond 204 (ManualEnqueue.Text "")), []))
  /\ (ManualEnqueue.method req <> "OPTIONS" -> ManualEnqueue.method req <> "POST" ->
      ManualEnqueue.run E req
      = (Resolved (ManualEnqueue.respond 405 (ManualEnqueue.Text "Method Not Allowed")), []))
  /\ (ManualEnqueue.method req = "POST" ->
      truthy (ManualEnqueue.userId (ManualEnqueue.req_body req)) = false ->
      ManualEnqueue.run E req
      = (Resolved
           (ManualEnqueue.respond 400
              (ManualEnqueue.Json [("error", VStr "userId is required")])), []))
  /\ (forall p,
      ManualEnqueue.method req = "POST" ->
      truthy (ManualEnqueue.userId (ManualEnqueue.req_body req)) = true ->
      ManualEnqueue.profile_get E (ManualEnqueue.userId (ManualEnqueue.req_body req))
      = inr p ->
      (ManualEnqueue.exists_ p = false ->
       fst (ManualEnqueue.run E req)
       = Resolved
           (ManualEnqueue.respond 404
              (ManualEnqueue.Json [("error", VStr "User not found")]))
       /\ ManualEnqueue.inserted (snd (ManualEnqueue.run E req)) = [])
      /\ (ManualEnqueue.exists_ p = true ->
          truthy (ManualEnqueue.fcm_token p) = false ->
          fst (ManualEnqueue.run E req)
          = Resolved
              (ManualEnqueue.respond 400
                 (ManualEnqueue.Json [("error", VStr "User has no FCM token")]))
          /\ ManualEnqueue.inserted (snd (ManualEnqueue.run E req)) = [])
      /\ (ManualEnqueue.exists_ p = true ->
          truthy (ManualEnqueue.fcm_token p) = true ->
          exists doc,
            ManualEnqueue.adds (snd (ManualEnqueue.run E req)) = [doc]
            /\ In ("sent", Lit (VBool false)) doc
            /\ In ("user_id", Lit (ManualEnqueue.userId (ManualEnqueue.req_body req))) doc
            /\ In ("fcm_token", Lit (ManualEnqueue.fcm_token p)) doc
            /\ (ManualEnqueue.queue_add E doc = None ->
                fst (ManualEnqueue.run E req)
                = Resolved
                    (ManualEnqueue.respond 200
                       (ManualEnqueue.Json
                          [("success", VBool true);
                           ("message", VStr "Notification queued for sending")]))
                /\ ManualEnqueue.inserted (snd (ManualEnqueue.run E req)) = [doc]))).
Proof.
  split; [|split; [|split; [|]]].
  - intros H. unfold ManualEnqueue.run, ManualEnqueue.sendTestNotification.
    rewrite H. reflexivity.
  - intros H1 H2. unfold ManualEnqueue.run, ManualEnqueue.sendTestNotification.
    apply String.eqb_neq in H1, H2. rewrite H1, H2. reflexivity.
  - intros Hm Hu. rewrite (run_post E req Hm).
    unfold try_catch. cbn zeta. rewrite Hu. reflexivity.
  - intros p Hm Hu Hp. split; [|split].
    + intros He. rewrite (run_post E req Hm).
      unfold try_catch, bind, ManualEnqueue.get_profile. cbn zeta.
      rewrite Hu. cbn [negb]. rewrite Hp, He. cbn. auto.
    + intros He Ht. rewrite (run_post E req Hm).
      unfold try_catch, bind, ManualEnqueue.get_profile. cbn zeta.
      rewrite Hu. cbn [negb]. rewrite Hp, He. cbn [negb]. rewrite Ht. cbn. auto.
    + intros He Ht. rewrite (run_post_found E req p Hm Hu Hp He Ht).
      exists (ManualEnqueue.new_outbox_document (ManualEnqueue.req_body req)
                (ManualEnqueue.fcm_token p)).
      split; [destruct (ManualEnqueue.queue_add E _); reflexivity|].
      split; [unfold ManualEnqueue.new_outbox_document; cbn [In]; auto 10|].
      split; [left; reflexivity|]. split; [right; left; reflexivity|].
      intros Hadd. rewrite Hadd. split; reflexivity.
Qed.

(** A POST for an existing user with a token. *)
Example manual_enqueue_queued :
  fst (ManualEnqueue.run Scenario.profiles Scenario.post_u1)
  = Resolved
      (ManualEnqueue.respond 200
         (ManualEnqueue.Json
            [("success", VBool true);
             ("message", VStr "Notification queued for sending")]))
  /\ ManualEnqueue.inserted (snd (ManualEnqueue.run Scenario.profiles Scenario.post_u1))
     = [[("user_id", Lit (VStr "u1"));
         ("fcm_token", Lit (VStr "tok-1"));
         ("title", Lit (VStr "Test Notification"));
         ("body", Lit (VStr "Hi"));
         ("data", MapValue ∅);
         ("created_at", ServerTimestamp);
         ("sent", Lit (VBool false))]].
Proof. split; reflexivity. Qed.

(** A POST for a user whose profile holds a token. *)
Lemma manual_enqueue_contract_witness :
  exists doc,
    ManualEnqueue.adds (snd (ManualEnqueue.run Scenario.profiles Scenario.post_u1)) = [doc]
    /\ In ("sent", Lit (VBool false)) doc
    /\ fst (ManualEnqueue.run Scenario.profiles Scenario.post_u1)
       = Resolved
           (ManualEnqueue.respond 200
              (ManualEnqueue.Json
                 [("success", VBool true);
                  ("message", VStr "Notification queued for sending")]))
    /\ ManualEnqueue.inserted (snd (ManualEnqueue.run Scenario.profiles Scenario.post_u1))
       = [doc].
Proof.
  destruct (manual_enqueue_contract Scenario.profiles Scenario.post_u1)
    as (_ & _ & _ & H).
  destruct (H {| ManualEnqueue.exists_ := true; ManualEnqueue.fcm_token := VStr "tok-1" |}
              eq_refl eq_refl eq_refl) as (_ & _ & Hq).
  destruct (Hq eq_refl eq_refl) as (doc & Hadds & Hsent & _ & _ & Hok).
  exists doc. split; [exact Hadds|]. split; [exact Hsent|].
  apply Hok. injection Hadds as <-. reflexivity.
Defined.

(** * Further properties of the four functions *)

(** ** NotificationDispatcher: what one invocation does and never does *)

(** Splits an invocation into the paths of the handler and rewrites its
    history into the explicit list of calls of that path. *)
Ltac dispatcher_paths E snap notificationId :=
  let Hs := fresh "Hsent" in
  let Ht := fresh "Htoken" in
  let Hm := fresh "Hsend" in
  destruct (decide (Dispatcher.sent snap = VBool true)) as [Hs|Hs];
  [ rewrite (run_already_sent E snap notificationId Hs)
  | destruct (truthy (Dispatcher.fcm_token snap)) eqn:Ht;
    [ destruct (Dispatcher.messaging_send E
                  (Dispatcher.build_message E snap notificationId)) as [?e|?response] eqn:Hm;
      [ rewrite (run_send_rejected E snap notificationId Hs Ht _ Hm)
      | rewrite (run_send_resolved E snap notificationId Hs Ht _ Hm);
        destruct (Dispatcher.ref_update E 0 (Dispatcher.delivered_fields response))
          as [?w|] ]
    | rewrite (run_no_token E snap notificationId Hs Ht) ] ];
  unfold Dispatcher.catch_events;
  repeat match goal with
         | |- context [match Dispatcher.ref_update E ?k ?f with _ => _ end] =>
             destruct (Dispatcher.ref_update E k f)
         | |- context [settle (Dispatcher.ref_update E ?k ?f)] =>
             destruct (Dispatcher.ref_update E k f)
         | |- context [Dispatcher.RecordUpdate ?f (Dispatcher.ref_update E ?k ?f)] =>
             destruct (Dispatcher.ref_update E k f)
         | |- context [if Dispatcher.invalid_token_code ?c then _ else _] =>
             destruct (Dispatcher.invalid_token_code c)
         | |- context [match Dispatcher.profile_update E ?u ?f with _ => _ end] =>
             destruct (Dispatcher.profile_update E u f)
         end.

(** X1. One invocation calls the push provider at most once, updates the
    outbox record at most twice, of which at most one update is accepted
    with [sent: true], and updates the profile at most once. *)
Theorem dispatcher_call_bounds
    (E : Dispatcher.env) (snap : Dispatcher.OutboxRecord) (notificationId : string) :
  (length (Dispatcher.provider_calls (snd (Dispatcher.run E snap notificationId))) <= 1)%nat
  /\ (length (Dispatcher.record_updates (snd (Dispatcher.run E snap notificationId))) <= 2)%nat
  /\ (length (List.filter Dispatcher.is_terminal_write
                (snd (Dispatcher.run E snap notificationId))) <= 1)%nat
  /\ (length (Dispatcher.profile_updates (snd (Dispatcher.run E snap notificationId))) <= 1)%nat.
Proof.
  unfold Dispatcher.provider_calls, Dispatcher.record_updates, Dispatcher.profile_updates.
  dispatcher_paths E snap notificationId;
    cbn [snd app List.filter Dispatcher.is_provider_call Dispatcher.is_record_update
           Dispatcher.is_profile_update Dispatcher.is_terminal_write length];
    repeat match goal with
           | |- context [bool_decide ?P] => destruct (bool_decide P)
           end;
    cbn [length]; repeat split; lia.
Qed.

(** X2. Whatever happens, every update of the outbox record that an
    invocation issues sets [sent: true] and [sent_at: serverTimestamp()]
    (none ever sets [sent] back), and the only update of a profile it issues
    is the deletion of the [fcm_token] field of the record's own user. *)
Theorem dispatcher_writes_shape
    (E : Dispatcher.env) (snap : Dispatcher.OutboxRecord) (notificationId : string) :
  (forall f r,
      In (Dispatcher.RecordUpdate f r) (snd (Dispatcher.run E snap notificationId)) ->
      In ("sent", Lit (VBool true)) f
      /\ In ("sent_at", ServerTimestamp) f
      /\ ~ In ("sent", Lit (VBool false)) f)
  /\ (forall uid f r,
        In (Dispatcher.ProfileUpdate uid f r) (snd (Dispatcher.run E snap notificationId)) ->
        uid = Dispatcher.user_id snap /\ f = [("fcm_token", FieldDelete)]).
Proof.
  assert (Hshape : forall f,
             f = Dispatcher.no_token_fields
             \/ (exists s, f = Dispatcher.delivered_fields s)
             \/ (exists e, f = Dispatcher.failed_fields e) ->
             In ("sent", Lit (VBool true)) f
             /\ In ("sent_at", ServerTimestamp) f
             /\ ~ In ("sent", Lit (VBool false)) f).
  { intros f [->|[(s & ->)|(e & ->)]]; cbn;
      (split; [tauto|split; [tauto|intros H; repeat destruct H as [H|H]; try discriminate H; exact H]]). }
  split.
  - intros f r.
    dispatcher_paths E snap notificationId; cbn [snd app In]; intros H;
      repeat destruct H as [H|H]; try discriminate H; try contradiction;
      injection H as <- _; apply Hshape; eauto.
  - intros uid f r.
    dispatcher_paths E snap notificationId; cbn [snd app In]; intros H;
      repeat destruct H as [H|H]; try discriminate H; try contradiction;
      injection H as <- <- _; split; reflexivity.
Qed.

(** X3. The push provider is called if and only if the record is not
    already sent and its token is truthy: a token that is absent, [null],
    [false], [0], [NaN] or the empty string never reaches the provider. *)
Theorem dispatcher_provider_called_iff
    (E : Dispatcher.env) (snap : Dispatcher.OutboxRecord) (notificationId : string) :
  (Dispatcher.provider_calls (snd (Dispatcher.run E snap notificationId)) <> []
   <-> Dispatcher.sent snap <> VBool true /\ truthy (Dispatcher.fcm_token snap) = true)
  /\ (truthy (Dispatcher.fcm_token snap) = false
      <-> Dispatcher.fcm_token snap = VUndefined
          \/ Dispatcher.fcm_token snap = VNull
          \/ Dispatcher.fcm_token snap = VBool false
          \/ Dispatcher.fcm_token snap = VNum 0
          \/ Dispatcher.fcm_token snap = VNaN
          \/ Dispatcher.fcm_token snap = VStr "").
Proof.
  split.
  - destruct (decide (Dispatcher.sent snap = VBool true)) as [Hs|Hs].
    + rewrite (run_already_sent E snap notificationId Hs). cbn. split; [tauto|].
      intros (Hn & _). contradiction.
    + destruct (truthy (Dispatcher.fcm_token snap)) eqn:Ht.
      * rewrite (dispatcher_sends_built_message E snap notificationId Hs Ht).
        split; [auto|discriminate].
      * rewrite (run_no_token E snap notificationId Hs Ht). cbn. split; [tauto|].
        intros (_ & H). discriminate H.
  - destruct (Dispatcher.fcm_token snap) as [| |[]|n| |s]; cbn.
    + split; auto.
    + split; auto.
    + split; [discriminate|]. intros H. repeat destruct H as [H|H]; discriminate H.
    + split; auto 7.
    + destruct (Z.eqb_spec n 0) as [->|Hn]; cbn.
      * split; auto 7.
      * split; [discriminate|]. intros H.
        repeat destruct H as [H|H]; try discriminate H. injection H as ->. contradiction.
    + split; auto 7.
    + destruct s as [|a s]; cbn.
      * split; auto 10.
      * split; [discriminate|]. intros H. repeat destruct H as [H|H]; discriminate H.
Qed.

(** X4. Delivery: when the provider accepts the message and the store
    accepts the update, the invocation returns normally and its only store
    write is [{sent: true, sent_at: serverTimestamp(), fcm_response: id}]
    with the id the provider returned; no profile is touched. *)
Theorem dispatcher_delivery_recorded
    (E : Dispatcher.env) (snap : Dispatcher.OutboxRecord) (notificationId : string)
    (response : string) :
  Dispatcher.sent snap <> VBool true ->
  truthy (Dispatcher.fcm_token snap) = true ->
  Dispatcher.messaging_send E (Dispatcher.build_message E snap notificationId)
  = inr response ->
  Dispatcher.ref_update E 0 (Dispatcher.delivered_fields response) = None ->
  fst (Dispatcher.run E snap notificationId) = Resolved tt
  /\ Dispatcher.store_writes (snd (Dispatcher.run E snap notificationId))
     = [Dispatcher.RecordUpdate
          [("sent", Lit (VBool true));
           ("sent_at", ServerTimestamp);
           ("fcm_response", Lit (VStr response))] None].
Proof.
  intros Hs Ht Hm Hu.
  rewrite (run_send_resolved E snap notificationId Hs Ht response Hm), Hu.
  split; reflexivity.
Qed.

(** On a queued record, with everything working. *)
Lemma dispatcher_delivery_recorded_witness :
  fst (Dispatcher.run Scenario.healthy Scenario.queued "n1") = Resolved tt
  /\ Dispatcher.store_writes (snd (Dispatcher.run Scenario.healthy Scenario.queued "n1"))
     = [Dispatcher.RecordUpdate
          [("sent", Lit (VBool true));
           ("sent_at", ServerTimestamp);
           ("fcm_response", Lit (VStr "projects/p/messages/1"))] None].
Proof.
  apply (dispatcher_delivery_recorded Scenario.healthy Scenario.queued "n1"
           "projects/p/messages/1").
  - discriminate.
  - reflexivity.
  - reflexivity.
  - reflexivity.
Defined.

(** X5. A delivered notification whose outcome cannot be written: when the
    provider accepts the message but the store rejects the update of lines
    74-78 with error [w], the rejection is caught by the same [catch] as a
    provider failure.  The provider is not called again; a second update
    records [error: w.message] on the record, and the invocation ends as
    that second update does. *)
Theorem dispatcher_delivered_write_rejected
    (E : Dispatcher.env) (snap : Dispatcher.OutboxRecord) (notificationId : string)
    (response : string) (w : error) :
  Dispatcher.sent snap <> VBool true ->
  truthy (Dispatcher.fcm_token snap) = true ->
  Dispatcher.messaging_send E (Dispatcher.build_message E snap notificationId)
  = inr response ->
  Dispatcher.ref_update E 0 (Dispatcher.delivered_fields response) = Some w ->
  Dispatcher.provider_calls (snd (Dispatcher.run E snap notificationId))
  = [Dispatcher.MessagingSend (Dispatcher.build_message E snap notificationId)
       (inr response)]
  /\ Dispatcher.record_updates (snd (Dispatcher.run E snap notificationId))
     = [Dispatcher.RecordUpdate (Dispatcher.delivered_fields response) (Some w);
        Dispatcher.RecordUpdate
          [("sent", Lit (VBool true));
           ("error", Lit (VStr (message w)));
           ("sent_at", ServerTimestamp)]
          (Dispatcher.ref_update E 1 (Dispatcher.failed_fields w))]
  /\ fst (Dispatcher.run E snap notificationId)
     = settle (Dispatcher.ref_update E 1 (Dispatcher.failed_fields w)).
Proof.
  intros Hs Ht Hm Hu.
  rewrite (run_send_resolved E snap notificationId Hs Ht response Hm), Hu.
  unfold Dispatcher.provider_calls, Dispatcher.record_updates.
  cbn [fst snd app List.filter Dispatcher.is_provider_call Dispatcher.is_record_update].
  rewrite catch_events_provider_calls, catch_events_record_updates.
  repeat split.
Qed.

(** With a delivered message and a store that rejects the first update. *)
Lemma dispatcher_delivered_write_rejected_witness :
  Dispatcher.provider_calls
    (snd (Dispatcher.run Scenario.first_write_rejected Scenario.queued "n1"))
  = [Dispatcher.MessagingSend
       (Dispatcher.build_message Scenario.first_write_rejected Scenario.queued "n1")
       (inr "projects/p/messages/1")]
  /\ Dispatcher.record_updates
       (snd (Dispatcher.run Scenario.first_write_rejected Scenario.queued "n1"))
     = [Dispatcher.RecordUpdate (Dispatcher.delivered_fields "projects/p/messages/1")
          (Some Scenario.unavailable);
        Dispatcher.RecordUpdate
          [("sent", Lit (VBool true));
           ("error", Lit (VStr (message Scenario.unavailable)));
           ("sent_at", ServerTimestamp)]
          None]
  /\ fst (Dispatcher.run Scenario.first_write_rejected Scenario.queued "n1")
     = Resolved tt.
Proof.
  apply (dispatcher_delivered_write_rejected Scenario.first_write_rejected
           Scenario.queued "n1" "projects/p/messages/1" Scenario.unavailable).
  - discriminate.
  - reflexivity.
  - reflexivity.
  - reflexivity.
Defined.

(** ** QueueReaper: failures, the count it logs, and a second run *)

(** X6. The queue reaper handles no failure itself: a rejected query
    leaves the run before any batch is committed, and a rejected commit
    leaves it with nothing deleted and nothing logged.  When the commit is
    accepted, the number it logs is the number of documents deleted. *)
Theorem queue_reaper_outcomes (E : QueueReaper.env) :
  (forall e, QueueReaper.query_get E = Some e ->
     QueueReaper.run E = (Rejected e, [QueueReaper.QueryGet (Some e)]))
  /\ (forall e, QueueReaper.query_get E = None -> QueueReaper.matched E <> [] ->
        QueueReaper.batch_commit E = Some e ->
        fst (QueueReaper.run E) = Rejected e
        /\ QueueReaper.deleted (snd (QueueReaper.run E)) = []
        /\ forall n, ~ In (QueueReaper.Console (QueueReaper.Cleaned n))
                        (snd (QueueReaper.run E)))
  /\ (QueueReaper.query_get E = None -> QueueReaper.matched E <> [] ->
      QueueReaper.batch_commit E = None ->
      fst (QueueReaper.run E) = Resolved tt
      /\ forall n, In (QueueReaper.Console (QueueReaper.Cleaned n)) (snd (QueueReaper.run E))
                   <-> n = length (QueueReaper.deleted (snd (QueueReaper.run E)))).
Proof.
  split; [|split].
  - intros e Hq. rewrite run_eq, Hq. reflexivity.
  - intros e Hq Hm Hc. rewrite run_eq, Hq.
    destruct (QueueReaper.matched E) as [|d ds]; [contradiction|].
    rewrite Hc. cbn. split; [reflexivity|]. split; [reflexivity|].
    intros n [H|[H|[]]]; discriminate H.
  - intros Hq Hm Hc. rewrite run_eq, Hq.
    destruct (QueueReaper.matched E) as [|d ds] eqn:Hmatched; [contradiction|].
    rewrite Hc. cbn [fst snd settle app]. split; [reflexivity|].
    intros n.
    change (QueueReaper.deleted
              [QueueReaper.QueryGet None;
               QueueReaper.Commit (map QueueReaper.doc_ref (d :: ds)) None;
               QueueReaper.Console (QueueReaper.Cleaned (length (d :: ds)))])
      with (map QueueReaper.doc_ref (d :: ds) ++ []).
    rewrite app_nil_r, length_map. split.
    + intros [H|[H|[H|[]]]]; try discriminate H. injection H as <-. reflexivity.
    + intros ->. right. right. left. reflexivity.
Qed.

Lemma filter_swap {A} (p q : A -> bool) (l : list A) :
  List.filter p (List.filter q l) = List.filter q (List.filter p l).
Proof.
  induction l as [|a l IH]; [reflexivity|]. cbn.
  destruct (q a) eqn:Hq, (p a) eqn:Hp; cbn; rewrite ?Hq, ?Hp, IH; reflexivity.
Qed.

Lemma NoDup_map_filter {A B} (f : A -> B) (p : A -> bool) (l : list A) :
  List.NoDup (map f l) -> List.NoDup (map f (List.filter p l)).
Proof.
  induction l as [|a l IH]; cbn; intros H; [constructor|].
  inversion H as [|? ? Hnotin Hnd]; subst.
  destruct (p a); cbn; [|auto].
  constructor; [|auto]. intros Hin. apply Hnotin.
  apply in_map_iff in Hin as (x & Hx & Hin). apply filter_In in Hin as (Hin & _).
  rewrite <- Hx. apply in_map. exact Hin.
Qed.

(** Dropping from a list without repeated keys the elements whose key is
    among those of its first [n] elements leaves the rest of the list. *)
Lemma filter_out_firstn {A B} `{EqDecision B} (f : A -> B) (l : list A) :
  forall n : nat,
    List.NoDup (map f l) ->
    List.filter (fun d => negb (bool_decide (f d ∈ map f (firstn n l)))) l = skipn n l.
Proof.
  induction l as [|a l IH]; intros n Hnd.
  - destruct n; reflexivity.
  - inversion Hnd as [|? ? Hnotin Hnd']; subst. destruct n as [|n].
    + cbn [firstn map skipn].
      rewrite <- (List.filter_ext_in (fun _ => true)).
      * clear. induction (a :: l) as [|x xs IHx]; cbn; [reflexivity|f_equal; exact IHx].
      * intros x _. symmetry. apply negb_true_iff, bool_decide_eq_false.
        apply not_elem_of_nil.
    + cbn [firstn map skipn List.filter].
      rewrite (bool_decide_eq_true_2 _ (list_elem_of_here _ _)). cbn [negb].
      rewrite <- (IH n Hnd'). apply List.filter_ext_in.
      intros x Hx. f_equal. apply bool_decide_ext. rewrite elem_of_cons.
      split; [|tauto]. intros [Heq|H]; [|exact H].
      exfalso. apply Hnotin. rewrite <- Heq. apply in_map. exact Hx.
Qed.

(** X7. Runs compose: after a run whose query and commit were accepted,
    the next run at the same clock finds the records that matched beyond the
    first 500, again at most 500 of them; when at most 500 matched, it finds
    nothing and commits nothing. *)
Theorem queue_reaper_next_run (E : QueueReaper.env) :
  List.NoDup (map QueueReaper.id (QueueReaper.queue E)) ->
  QueueReaper.query_get E = None ->
  QueueReaper.batch_commit E = None ->
  QueueReaper.matched
    (QueueReaper.after E (QueueReaper.deleted (snd (QueueReaper.run E))))
  = limit 500
      (skipn 500
         (QueueReaper.where_sent_at_lt
            (Timestamp_fromMillis (QueueReaper.Date_now E - 24 * 60 * 60 * 1000))
            (QueueReaper.where_sent_true (QueueReaper.queue E))))
  /\ ((length (QueueReaper.where_sent_at_lt
                 (Timestamp_fromMillis (QueueReaper.Date_now E - 24 * 60 * 60 * 1000))
                 (QueueReaper.where_sent_true (QueueReaper.queue E))) <= 500)%nat ->
      QueueReaper.commits
        (snd (QueueReaper.run
                (QueueReaper.after E (QueueReaper.deleted (snd (QueueReaper.run E))))))
      = []).
Proof.
  intros Hnd Hq Hc.
  set (M := QueueReaper.where_sent_at_lt
              (Timestamp_fromMillis (QueueReaper.Date_now E - 24 * 60 * 60 * 1000))
              (QueueReaper.where_sent_true (QueueReaper.queue E))).
  assert (Hnext : QueueReaper.matched
                    (QueueReaper.after E (QueueReaper.deleted (snd (QueueReaper.run E))))
                  = limit 500 (skipn 500 M)).
  { rewrite deleted_run, Hq, Hc.
    unfold QueueReaper.matched at 1, QueueReaper.after.
    cbn [QueueReaper.queue QueueReaper.Date_now]. f_equal.
    unfold QueueReaper.where_sent_at_lt at 1, QueueReaper.where_sent_true at 1.
    rewrite (filter_swap _ _ (QueueReaper.queue E)), filter_swap.
    fold (QueueReaper.where_sent_true (QueueReaper.queue E)).
    fold (QueueReaper.where_sent_at_lt
            (Timestamp_fromMillis (QueueReaper.Date_now E - 24 * 60 * 60 * 1000))
            (QueueReaper.where_sent_true (QueueReaper.queue E))).
    fold M. unfold QueueReaper.matched, limit. fold M.
    apply (filter_out_firstn QueueReaper.doc_ref M 500).
    assert (Hids : List.NoDup (map QueueReaper.id M)).
    { unfold M, QueueReaper.where_sent_at_lt, QueueReaper.where_sent_true.
      apply NoDup_map_filter, NoDup_map_filter, Hnd. }
    clear -Hids. induction M as [|a M IH]; cbn; [constructor|].
    inversion Hids as [|? ? Hnotin Hnd]; subst. constructor; [|auto].
    intros Hin. apply Hnotin. apply in_map_iff in Hin as (x & Hx & Hin).
    unfold QueueReaper.doc_ref in Hx. injection Hx as Hx. rewrite <- Hx.
    apply in_map. exact Hin. }
  split; [exact Hnext|].
  intros Hlen. rewrite commits_run, Hnext.
  rewrite skipn_all2 by exact Hlen.
  destruct (QueueReaper.query_get _); reflexivity.
Qed.

(** On the outbox of the scenario: the second run finds nothing. *)
Lemma queue_reaper_next_run_witness :
  QueueReaper.matched
    (QueueReaper.after Scenario.outbox
       (QueueReaper.deleted (snd (QueueReaper.run Scenario.outbox)))) = []
  /\ QueueReaper.commits
       (snd (QueueReaper.run
               (QueueReaper.after Scenario.outbox
                  (QueueReaper.deleted (snd (QueueReaper.run Scenario.outbox)))))) = [].
Proof.
  destruct (queue_reaper_next_run Scenario.outbox) as (Hnext & Hnone).
  - cbn. repeat (constructor; [cbn; intuition discriminate|]). constructor.
  - reflexivity.
  - reflexivity.
  - split; [exact Hnext|]. apply Hnone. vm_compute. lia.
Defined.

(** ** ContentReaper: what a run can touch, and the shape of its commits *)

Section ContentReaperBounds.
Import ContentReaper.
Variable E : env.

Lemma full_commits_nil : full_commits [].
Proof. constructor. Qed.

Lemma full_commits_app (a b : list event) :
  full_commits a -> full_commits b -> full_commits (a ++ b).
Proof.
  unfold full_commits. rewrite commits_app. intros Ha Hb.
  apply Forall_app. split; assumption.
Qed.

(** One queued delete adds at most its document to what is queued or
    removed, and commits, if at all, a full batch. *)
Lemma queue_op_bound (bump : locals -> locals)
    (bump_batch : forall v, batch (bump v) = batch v)
    (bump_ops : forall v, batchOperations (bump v) = batchOperations v)
    (r : ref) (v : locals) (tr : list event)
    (c : completion unit) (v' : locals) (tr' : list event) :
  consistent v ->
  queue_op E r bump (v, tr) = (c, (v', tr')) ->
  incl (reach (v', tr')) (reach (v, tr) ++ [r])
  /\ exists ext, tr' = tr ++ ext /\ full_commits ext.
Proof.
  intros Hv Hrun.
  destruct (queue_op_spec E bump bump_batch bump_ops r v tr Hv)
    as (c0 & v0 & tr0 & Heq & Hcase).
  rewrite Hrun in Heq. injection Heq as <- <- <-.
  destruct Hv as (Hlen & _ & _).
  unfold reach; cbn [fst snd].
  destruct Hcase as [Hc | v' Hc Hn Hb Ho | v' d a Hc Hn Hk Hb Ho | v' e Hc Hn Hk Hb Ho].
  - split; [apply incl_appl, incl_refl|].
    exists []. rewrite app_nil_r. split; [reflexivity|apply full_commits_nil].
  - split; [rewrite Hb; cbn [ops]; rewrite app_assoc; apply incl_refl|].
    exists []. rewrite app_nil_r. split; [reflexivity|apply full_commits_nil].
  - split.
    + rewrite Hb, deleted_app. cbn. rewrite !app_nil_r, app_assoc. apply incl_refl.
    + eexists. split; [reflexivity|]. unfold full_commits. cbn [commits flat_map app].
      constructor; [|constructor]. rewrite length_app. cbn [length]. lia.
  - split.
    + rewrite Hb, deleted_app. cbn. rewrite !app_nil_r, app_assoc. apply incl_refl.
    + eexists. split; [reflexivity|]. unfold full_commits. cbn [commits flat_map app].
      constructor; [|constructor]. rewrite length_app. cbn [length]. lia.
Qed.

Lemma answers_loop_bound (qid : string) (l : list string) :
  forall (v : locals) (tr : list event) (c : completion unit)
         (v' : locals) (tr' : list event),
    consistent v ->
    for_of l (fun a => queue_op E (AnswerDoc qid a) count_answer) (v, tr)
    = (c, (v', tr')) ->
    incl (reach (v', tr')) (reach (v, tr) ++ map (AnswerDoc qid) l)
    /\ exists ext, tr' = tr ++ ext /\ full_commits ext.
Proof.
  induction l as [|a l IH]; intros v tr c v' tr' Hv Hrun.
  - cbn in Hrun. injection Hrun as <- <- <-. cbn [map]. rewrite app_nil_r.
    split; [apply incl_refl|]. exists []. rewrite app_nil_r.
    split; [reflexivity|apply full_commits_nil].
  - cbn [for_of] in Hrun. unfold bind in Hrun.
    destruct (queue_op E (AnswerDoc qid a) count_answer (v, tr))
      as [c1 [v1 tr1]] eqn:Hop.
    destruct (queue_op_sound E count_answer count_answer_batch count_answer_ops
                _ _ _ _ _ _ Hv Hop) as (Hv1 & _).
    destruct (queue_op_bound count_answer count_answer_batch count_answer_ops
                _ _ _ _ _ _ Hv Hop) as (Hb1 & ext1 & -> & Hf1).
    destruct c1 as [[]|e].
    + destruct (IH _ _ _ _ _ Hv1 Hrun) as (Hb2 & ext2 & -> & Hf2). split.
      * intros x Hx. apply Hb2 in Hx. cbn [map].
        apply in_app_iff in Hx as [Hx|Hx].
        -- apply Hb1 in Hx. apply in_app_iff in Hx as [Hx|[<-|[]]];
             apply in_app_iff; [left; exact Hx|right; left; reflexivity].
        -- apply in_app_iff. right. right. exact Hx.
      * exists (ext1 ++ ext2). rewrite app_assoc.
        split; [reflexivity|apply full_commits_app; assumption].
    + injection Hrun as <- <- <-. split.
      * intros x Hx. apply Hb1 in Hx. cbn [map].
        apply in_app_iff in Hx as [Hx|[<-|[]]];
          apply in_app_iff; [left; exact Hx|right; left; reflexivity].
      * exists ext1. split; [reflexivity|exact Hf1].
Qed.

Lemma delete_question_bound (q : Question) (v : locals) (tr : list event)
    (c : completion unit) (v' : locals) (tr' : list event) :
  consistent v ->
  delete_question E q (v, tr) = (c, (v', tr')) ->
  incl (reach (v', tr')) (reach (v, tr) ++ question_refs q)
  /\ exists ext, tr' = tr ++ ext /\ full_commits ext.
Proof.
  intros Hv Hrun. rewrite delete_question_eq in Hrun.
  unfold bind at 1 in Hrun. unfold get_answers in Hrun.
  assert (Hread : forall x, reach (v, tr ++ [AnswersGet (id q) x]) = reach (v, tr))
    by (intros x; apply reach_app_quiet; reflexivity).
  destruct (answers_get E (id q)) as [e|] eqn:Hget.
  - injection Hrun as <- <- <-. rewrite Hread.
    split; [apply incl_appl, incl_refl|].
    eexists. split; [reflexivity|]. constructor.
  - unfold bind at 1 in Hrun.
    destruct (for_of (answers q)
                (fun a => queue_op E (AnswerDoc (id q) a) count_answer)
                (v, tr ++ [AnswersGet (id q) None])) as [c1 [v1 tr1]] eqn:Hloop.
    destruct (answers_loop_sound E _ _ _ _ _ _ _ Hv Hloop) as (Hv1 & _).
    destruct (answers_loop_bound _ _ _ _ _ _ _ Hv Hloop) as (Hb1 & ext1 & -> & Hf1).
    rewrite Hread in Hb1.
    assert (Hfirst : full_commits ([AnswersGet (id q) None] ++ ext1))
      by (apply full_commits_app; [constructor|exact Hf1]).
    destruct c1 as [[]|e].
    + destruct (queue_op_bound count_question count_question_batch
                  count_question_ops _ _ _ _ _ _ Hv1 Hrun)
        as (Hb2 & ext2 & -> & Hf2). split.
      * intros x Hx. apply Hb2 in Hx. unfold question_refs, answer_refs.
        apply in_app_iff in Hx as [Hx|[<-|[]]].
        -- apply Hb1 in Hx. apply in_app_iff in Hx as [Hx|Hx];
             apply in_app_iff; [left; exact Hx|right].
           apply in_app_iff. left. exact Hx.
        -- apply in_app_iff. right. apply in_app_iff. right. left. reflexivity.
      * exists (([AnswersGet (id q) None] ++ ext1) ++ ext2).
        rewrite <- !app_assoc. split; [reflexivity|].
        rewrite app_assoc. apply full_commits_app; assumption.
    + injection Hrun as <- <- <-. split.
      * intros x Hx. apply Hb1 in Hx. unfold question_refs, answer_refs.
        apply in_app_iff in Hx as [Hx|Hx]; apply in_app_iff; [left; exact Hx|right].
        apply in_app_iff. left. exact Hx.
      * exists ([AnswersGet (id q) None] ++ ext1).
        rewrite <- app_assoc. split; [reflexivity|exact Hfirst].
Qed.

Lemma questions_loop_bound (docs : list Question) :
  forall (v : locals) (tr : list event) (c : completion unit)
         (v' : locals) (tr' : list event),
    consistent v ->
    delete_questions E docs (v, tr) = (c, (v', tr')) ->
    incl (reach (v', tr')) (reach (v, tr) ++ flat_map question_refs docs)
    /\ exists ext, tr' = tr ++ ext /\ full_commits ext.
Proof.
  induction docs as [|d docs IH]; intros v tr c v' tr' Hv Hrun.
  - cbn in Hrun. injection Hrun as <- <- <-. cbn [flat_map]. rewrite app_nil_r.
    split; [apply incl_refl|]. exists []. rewrite app_nil_r.
    split; [reflexivity|apply full_commits_nil].
  - unfold delete_questions in Hrun. cbn [for_of] in Hrun.
    unfold bind at 1 in Hrun. unfold try_catch at 1 in Hrun.
    destruct (delete_question E d (v, tr)) as [c1 [v1 tr1]] eqn:Hq.
    destruct (delete_question_sound E d _ _ _ _ _ Hv Hq) as (Hv1 & _).
    destruct (delete_question_bound d _ _ _ _ _ Hv Hq) as (Hb1 & ext1 & -> & Hf1).
    fold (delete_questions E docs) in Hrun.
    assert (Hstep : forall v2 tr2 ext1',
               reach (v1, tr ++ ext1') = reach (v1, tr ++ ext1) ->
               full_commits ext1' ->
               delete_questions E docs (v1, tr ++ ext1') = (c, (v2, tr2)) ->
               incl (reach (v2, tr2)) (reach (v, tr) ++ flat_map question_refs (d :: docs))
               /\ exists ext, tr2 = tr ++ ext /\ full_commits ext).
    { intros v2 tr2 ext1' Hsame Hf1' Hloop.
      destruct (IH _ _ _ _ _ Hv1 Hloop) as (Hb2 & ext2 & -> & Hf2). split.
      - intros x Hx. apply Hb2 in Hx. rewrite Hsame in Hx. cbn [flat_map].
        apply in_app_iff in Hx as [Hx|Hx].
        + apply Hb1 in Hx. apply in_app_iff in Hx as [Hx|Hx];
            apply in_app_iff; [left; exact Hx|right].
          apply in_app_iff. left. exact Hx.
        + apply in_app_iff. right. apply in_app_iff. right. exact Hx.
      - exists (ext1' ++ ext2). rewrite app_assoc.
        split; [reflexivity|apply full_commits_app; assumption]. }
    destruct c1 as [[]|e].
    + apply (Hstep v' tr' ext1); [reflexivity|exact Hf1|exact Hrun].
    + unfold console, modify in Hrun. cbn [fst snd] in Hrun.
      rewrite <- app_assoc in Hrun.
      apply (Hstep v' tr' (ext1 ++ [Console (PostError (id d) e)])).
      * rewrite app_assoc. apply reach_app_quiet. reflexivity.
      * apply full_commits_app; [exact Hf1|constructor].
      * exact Hrun.
Qed.
End ContentReaperBounds.

Section ContentReaperShape.
Import ContentReaper.
Variable E : env.

(** A run whose query found something is the loop followed by the closing
    lines. *)
Lemma run_shape :
  questions_get E = None -> matched E <> [] ->
  exists (v : locals) (ext : list event),
    delete_questions E (matched E) (init, opening E)
    = (Resolved tt, (v, opening E ++ ext))
    /\ consistent v
    /\ full_commits ext
    /\ incl (deleted ext ++ ops (batch v)) (flat_map question_refs (matched E))
    /\ run E
       = (fst (closing E v (opening E ++ ext)),
          opening E ++ ext ++ snd (closing E v (opening E ++ ext))).
Proof.
  intros H Hm.
  destruct (delete_questions E (matched E) (init, opening E))
    as [c1 [v1 tr1]] eqn:Hloop.
  destruct (questions_loop_sound E _ _ _ _ _ _ consistent_init Hloop)
    as (-> & Hv1 & _ & (ext & -> & _)).
  destruct (questions_loop_bound E _ _ _ _ _ _ consistent_init Hloop)
    as (Hbound & ext' & Hext & Hfull).
  apply app_inv_head in Hext. subst ext'.
  exists v1, ext. split; [reflexivity|]. split; [exact Hv1|]. split; [exact Hfull|].
  split.
  { unfold reach in Hbound. cbn [fst snd] in Hbound. rewrite deleted_app in Hbound.
    exact Hbound. }
  unfold closing, opening in *.
  unfold run, cleanupExpiredPosts.
  unfold bind at 1. unfold console at 1, modify at 1. cbn [fst snd app].
  unfold bind at 1. unfold get_expired. rewrite H. fold (matched E).
  destruct (matched E) as [|q0 qs] eqn:Hmatched; [contradiction|].
  unfold bind at 1. unfold console at 1, modify at 1. cbn [fst snd app].
  unfold bind at 1. cbn [app] in Hloop. rewrite Hloop.
  unfold bind at 1. unfold get at 1. cbn [fst snd app].
  destruct (Nat.ltb 0 (batchOperations v1)).
  - unfold bind, commit, console, modify, ret. cbn [fst snd].
    destruct (batch_commit E _) as [e|]; cbn [settle fst snd app];
      rewrite <- ?app_assoc; reflexivity.
  - destruct (Nat.ltb 0 (deletedCount v1));
      unfold bind, console, modify, ret; cbn [fst snd app];
      rewrite ?app_nil_r; reflexivity.
Qed.

Lemma matched_expired (q : Question) :
  In q (matched E) -> In q (questions E) /\ expired E q.
Proof.
  unfold matched, limit, where_expires_at_lt. intros H.
  apply In_firstn in H. apply filter_In in H as (Hin & Hlt).
  split; [exact Hin|]. unfold expired.
  destruct (expires_at q) as [x|]; [|discriminate Hlt].
  exists x. split; [reflexivity|]. apply Z.ltb_lt. exact Hlt.
Qed.

Lemma closing_commits (v : locals) (tr : list event) :
  commits (snd (closing E v tr))
  = if Nat.ltb 0 (batchOperations v) then [ops (batch v)] else [].
Proof.
  unfold closing. destruct (Nat.ltb 0 (batchOperations v)).
  - cbn. destruct (batch_commit E _); reflexivity.
  - destruct (Nat.ltb 0 (deletedCount v)); reflexivity.
Qed.

Lemma closing_deleted (v : locals) (tr : list event) :
  incl (deleted (snd (closing E v tr))) (ops (batch v)).
Proof.
  unfold closing. destruct (Nat.ltb 0 (batchOperations v)).
  - cbn [snd]. destruct (batch_commit E _); cbn.
    + intros x [].
    + rewrite app_nil_r. apply incl_refl.
  - destruct (Nat.ltb 0 (deletedCount v)); intros x [].
Qed.

Lemma closing_reads (v : locals) (tr : list event) :
  answers_reads (snd (closing E v tr)) = [].
Proof.
  unfold closing. destruct (Nat.ltb 0 (batchOperations v)).
  - cbn. destruct (batch_commit E _); reflexivity.
  - destruct (Nat.ltb 0 (deletedCount v)); reflexivity.
Qed.
End ContentReaperShape.

(** X8. Whatever fails, a run of the content reaper removes nothing but
    questions that the query matched ([expires_at] strictly before now) and
    answers of such questions, reads the answers of no other question, and
    reads at most 500 questions' answers. *)
Theorem content_reaper_touches_only_expired (E : ContentReaper.env) :
  (forall r, In r (ContentReaper.deleted (snd (ContentReaper.run E))) ->
     exists q, In q (ContentReaper.questions E)
               /\ ContentReaper.expired E q
               /\ In r (ContentReaper.question_refs q))
  /\ (forall i, In i (ContentReaper.answers_reads (snd (ContentReaper.run E))) ->
        exists q, In q (ContentReaper.questions E)
                  /\ ContentReaper.expired E q
                  /\ ContentReaper.id q = i)
  /\ (length (ContentReaper.answers_reads (snd (ContentReaper.run E))) <= 500)%nat.
Proof.
  destruct (ContentReaper.questions_get E) as [e|] eqn:Hq.
  { rewrite (run_query_rejected E e Hq). cbn.
    split; [intros r []|]. split; [intros i []|lia]. }
  destruct (ContentReaper.matched E) as [|q0 qs] eqn:Hm.
  { rewrite (run_nothing_expired E Hq Hm). cbn.
    split; [intros r []|]. split; [intros i []|lia]. }
  assert (Hne : ContentReaper.matched E <> []) by (rewrite Hm; discriminate).
  destruct (run_shape E Hq Hne) as (v & ext & Hloop & Hv & _ & Hbound & ->).
  destruct (questions_loop_sound E _ _ _ _ _ _ (consistent_init) Hloop)
    as (_ & _ & _ & (ext' & Hext & _ & Hreads & _)).
  apply app_inv_head in Hext. subst ext'.
  cbn [snd].
  assert (Hr : ContentReaper.answers_reads
                 (ContentReaper.opening E ++ ext
                  ++ snd (ContentReaper.closing E v (ContentReaper.opening E ++ ext)))
               = map ContentReaper.id (ContentReaper.matched E)).
  { rewrite !answers_reads_app, closing_reads, app_nil_r. exact Hreads. }
  split; [|split].
  - intros r Hr'. rewrite !deleted_app in Hr'.
    change (ContentReaper.deleted (ContentReaper.opening E)) with (@nil ref) in Hr'.
    cbn [app] in Hr'.
    assert (Hin : In r (flat_map ContentReaper.question_refs (ContentReaper.matched E))).
    { apply Hbound. apply in_app_iff in Hr' as [H|H]; apply in_app_iff;
        [left; exact H|right]. apply (closing_deleted E v _ r H). }
    apply in_flat_map in Hin as (q & Hq' & Hrq).
    destruct (matched_expired E q Hq') as (Hin & Hexp). eauto.
  - intros i Hi. rewrite Hr in Hi. apply in_map_iff in Hi as (q & <- & Hq').
    destruct (matched_expired E q Hq') as (Hin & Hexp). eauto.
  - rewrite Hr, length_map. apply firstn_le_length.
Qed.

(** Everything a run removes lies under a question the query matched. *)
Lemma run_deleted_matched (E : ContentReaper.env) (r : ref) :
  In r (ContentReaper.deleted (snd (ContentReaper.run E))) ->
  exists q, In q (ContentReaper.matched E) /\ In r (ContentReaper.question_refs q).
Proof.
  destruct (ContentReaper.questions_get E) as [e|] eqn:Hq.
  { rewrite (run_query_rejected E e Hq). intros []. }
  destruct (ContentReaper.matched E) as [|q0 qs] eqn:Hm.
  { rewrite (run_nothing_expired E Hq Hm). intros []. }
  assert (Hne : ContentReaper.matched E <> []) by (rewrite Hm; discriminate).
  destruct (run_shape E Hq Hne) as (v & ext & _ & _ & _ & Hbound & ->).
  rewrite Hm in Hbound. cbn [snd]. rewrite !deleted_app.
  change (ContentReaper.deleted (ContentReaper.opening E)) with (@nil ref).
  cbn [app]. intros Hr. apply in_flat_map. apply Hbound.
  apply in_app_iff in Hr as [H|H]; apply in_app_iff; [left; exact H|right].
  apply (closing_deleted E v _ r H).
Qed.

(** X9. Expiry, when every call is accepted and at most 500 questions are
    expired (ids being unique): the run returns normally; a question is
    removed exactly when its [expires_at] lies strictly before now, together
    with all its answers; a question that expires at this very instant or
    later, or has no [expires_at], keeps itself and its answers. *)
Theorem content_reaper_expiry (E : ContentReaper.env) :
  ContentReaper.questions_get E = None ->
  (forall i, ContentReaper.answers_get E i = None) ->
  (forall k, ContentReaper.batch_commit E k = None) ->
  List.NoDup (map ContentReaper.id (ContentReaper.questions E)) ->
  (length (ContentReaper.where_expires_at_lt (ContentReaper.Timestamp_now E)
             (ContentReaper.questions E)) <= 500)%nat ->
  fst (ContentReaper.run E) = Resolved tt
  /\ forall q, In q (ContentReaper.questions E) ->
       (In (QuestionDoc (ContentReaper.id q))
          (ContentReaper.deleted (snd (ContentReaper.run E)))
        <-> ContentReaper.expired E q)
       /\ (ContentReaper.expired E q ->
           forall a, In a (ContentReaper.answers q) ->
             In (AnswerDoc (ContentReaper.id q) a)
               (ContentReaper.deleted (snd (ContentReaper.run E))))
       /\ (~ ContentReaper.expired E q ->
           forall a, ~ In (AnswerDoc (ContentReaper.id q) a)
                         (ContentReaper.deleted (snd (ContentReaper.run E)))).
Proof.
  intros Hq Hreads Hcommits Hnd Hlen. split.
  - destruct (ContentReaper.matched E) as [|q0 qs] eqn:Hm.
    + rewrite (run_nothing_expired E Hq Hm). reflexivity.
    + assert (Hne : ContentReaper.matched E <> []) by (rewrite Hm; discriminate).
      destruct (run_shape E Hq Hne) as (v & ext & _ & _ & _ & _ & ->).
      cbn [fst]. unfold ContentReaper.closing.
      destruct (Nat.ltb 0 (ContentReaper.batchOperations v)).
      * rewrite Hcommits. reflexivity.
      * destruct (Nat.ltb 0 (ContentReaper.deletedCount v)); reflexivity.
  - intros q Hin.
    assert (Hmatched : ContentReaper.expired E q -> In q (ContentReaper.matched E)).
    { intros (x & Hx & Hlt). unfold ContentReaper.matched, limit.
      rewrite firstn_all2 by exact Hlen. apply filter_In. split; [exact Hin|].
      rewrite Hx. apply Z.ltb_lt. exact Hlt. }
    assert (Hall : ContentReaper.expired E q ->
                   incl (ContentReaper.question_refs q)
                     (ContentReaper.deleted (snd (ContentReaper.run E)))).
    { intros Hexp. rewrite (deleted_when_commits_resolve E Hcommits Hq).
      apply cascade_all; [apply Hmatched, Hexp|apply Hreads]. }
    assert (Honly : forall r, owner r = Some (ContentReaper.id q) ->
                    In r (ContentReaper.deleted (snd (ContentReaper.run E))) ->
                    ContentReaper.expired E q).
    { intros r Hown Hr. apply run_deleted_matched in Hr as (q' & Hq' & Hrq).
      apply question_refs_owner in Hrq. rewrite Hown in Hrq. injection Hrq as Hid.
      destruct (matched_expired E q' Hq') as (Hin' & Hexp).
      assert (q' = q) as <-; [|exact Hexp].
      apply (NoDup_map_In_inj ContentReaper.id (ContentReaper.questions E)); auto. }
    split; [split|split].
    + apply (Honly (QuestionDoc (ContentReaper.id q))). reflexivity.
    + intros Hexp. apply (Hall Hexp). unfold ContentReaper.question_refs.
      apply in_app_iff. right. left. reflexivity.
    + intros Hexp a Ha. apply (Hall Hexp).
      unfold ContentReaper.question_refs, ContentReaper.answer_refs.
      apply in_app_iff. left. apply in_map. exact Ha.
    + intros Hnot a Ha. apply Hnot.
      apply (Honly (AnswerDoc (ContentReaper.id q) a)); [reflexivity|exact Ha].
Qed.

(** X10. The commits of a run: all of them but possibly the last carry
    exactly 500 operations, the last carries between 1 and 500; an empty
    batch is never committed. *)
Theorem content_reaper_commit_sizes (E : ContentReaper.env) :
  exists (filled last : list (list ref)),
    ContentReaper.commits (snd (ContentReaper.run E)) = filled ++ last
    /\ Forall (fun d : list ref => length d = 500%nat) filled
    /\ (last = []
        \/ exists d, last = [d] /\ (1 <= length d <= 500)%nat).
Proof.
  destruct (ContentReaper.questions_get E) as [e|] eqn:Hq.
  { rewrite (run_query_rejected E e Hq). exists [], []. cbn. auto. }
  destruct (ContentReaper.matched E) as [|q0 qs] eqn:Hm.
  { rewrite (run_nothing_expired E Hq Hm). exists [], []. cbn. auto. }
  assert (Hne : ContentReaper.matched E <> []) by (rewrite Hm; discriminate).
  destruct (run_shape E Hq Hne) as (v & ext & _ & Hv & Hfull & _ & ->).
  cbn [snd]. rewrite !commits_app, closing_commits.
  change (ContentReaper.commits (ContentReaper.opening E)) with (@nil (list ref)).
  cbn [app]. exists (ContentReaper.commits ext).
  destruct (Nat.ltb 0 (ContentReaper.batchOperations v)) eqn:Hpos.
  - exists [ops (ContentReaper.batch v)]. split; [reflexivity|].
    split; [exact Hfull|]. right. eexists. split; [reflexivity|].
    apply Nat.ltb_lt in Hpos. destruct Hv as (Hlen & Hle & _).
    unfold ContentReaper.MAX_BATCH_SIZE in Hle. lia.
  - exists []. split; [reflexivity|]. split; [exact Hfull|]. left. reflexivity.
Qed.

(** X11. No work: when the query is rejected the rejection leaves the run,
    and when the query matches no question the run returns normally; in
    both cases no answers are read and nothing is committed. *)
Theorem content_reaper_no_work (E : ContentReaper.env) :
  (forall e, ContentReaper.questions_get E = Some e ->
     fst (ContentReaper.run E) = Rejected e
     /\ ContentReaper.answers_reads (snd (ContentReaper.run E)) = []
     /\ ContentReaper.commits (snd (ContentReaper.run E)) = [])
  /\ (ContentReaper.questions_get E = None ->
      (forall q, In q (ContentReaper.questions E) -> ~ ContentReaper.expired E q) ->
      fst (ContentReaper.run E) = Resolved tt
      /\ ContentReaper.answers_reads (snd (ContentReaper.run E)) = []
      /\ ContentReaper.commits (snd (ContentReaper.run E)) = []).
Proof.
  split.
  - intros e Hq. rewrite (run_query_rejected E e Hq). repeat split.
  - intros Hq Hnone.
    assert (Hm : ContentReaper.matched E = []).
    { destruct (ContentReaper.matched E) as [|q0 qs] eqn:Hm; [reflexivity|].
      exfalso. destruct (matched_expired E q0) as (Hin & Hexp).
      - rewrite Hm. left. reflexivity.
      - apply (Hnone q0 Hin Hexp). }
    rewrite (run_nothing_expired E Hq Hm). repeat split.
Qed.

(** With every call accepted: A and B go, the others stay. *)
Lemma content_reaper_expiry_witness :
  fst (ContentReaper.run Scenario.all_well) = Resolved tt
  /\ ContentReaper.deleted (snd (ContentReaper.run Scenario.all_well))
     = [AnswerDoc "A" "a1"; AnswerDoc "A" "a2"; QuestionDoc "A"; QuestionDoc "B"]
  /\ forall q, In q (ContentReaper.questions Scenario.all_well) ->
       In (QuestionDoc (ContentReaper.id q))
         (ContentReaper.deleted (snd (ContentReaper.run Scenario.all_well)))
       <-> ContentReaper.expired Scenario.all_well q.
Proof.
  destruct (content_reaper_expiry Scenario.all_well) as (Hrun & Hall).
  - reflexivity.
  - intros i. reflexivity.
  - intros k. reflexivity.
  - cbn. repeat (constructor; [cbn; intuition discriminate|]). constructor.
  - vm_compute. lia.
  - split; [exact Hrun|]. split; [vm_compute; reflexivity|].
    intros q Hq. destruct (Hall q Hq) as (H & _). exact H.
Defined.

(** ** ContentReaper: after a rejected commit *)

Section ContentReaperRejection.
Import ContentReaper.
Variable E : env.

Lemma after_rejection_app (a b : list event) :
  after_rejection (a ++ b)
  = match after_rejection a with
    | Some (d, rest) => Some (d, rest ++ b)
    | None => after_rejection b
    end.
Proof.
  induction a as [|ev a IH]; [reflexivity|].
  destruct ev as [l|r|q r|d [e|]]; cbn; auto.
Qed.

Lemma after_rejection_commits (tr : list event) (d : list ref) (rest : list event) :
  after_rejection tr = Some (d, rest) -> In d (commits tr).
Proof.
  induction tr as [|ev tr IH]; [discriminate|].
  destruct ev as [l|r|q r|d' [e|]]; cbn; intros H; auto.
  injection H as <- _. left. reflexivity.
Qed.

(** On a committed batch a delete is refused and changes nothing. *)
Lemma queue_op_sealed (bump : locals -> locals) (r : ref)
    (v : locals) (tr : list event) :
  committed (batch v) = true ->
  queue_op E r bump (v, tr) = (Rejected batch_sealed, (v, tr)).
Proof.
  intros H. unfold queue_op, bind, delete, batch_delete. rewrite H. reflexivity.
Qed.

Lemma delete_question_sealed (q : Question) (v : locals) (tr : list event) :
  committed (batch v) = true ->
  delete_question E q (v, tr)
  = (Rejected match answers_get E (id q) with Some e => e | None => batch_sealed end,
     (v, tr ++ [AnswersGet (id q) (answers_get E (id q))])).
Proof.
  intros H. rewrite delete_question_eq. unfold bind at 1. unfold get_answers.
  destruct (answers_get E (id q)) as [e|]; [reflexivity|].
  destruct (answers q) as [|a l]; cbn [for_of].
  - unfold bind, ret. rewrite queue_op_sealed by exact H. reflexivity.
  - unfold bind. rewrite queue_op_sealed by exact H. reflexivity.
Qed.

(** Once the current batch is a committed one, the loop reads every
    remaining question's answers, logs a failure for each of them, and
    changes neither the batch nor the counters. *)
Lemma questions_loop_sealed (docs : list Question) :
  forall (v : locals) (tr : list event),
    committed (batch v) = true ->
    delete_questions E docs (v, tr)
    = (Resolved tt, (v, tr ++ flat_map (refused_events E) docs)).
Proof.
  induction docs as [|d docs IH]; intros v tr H.
  - cbn. rewrite app_nil_r. reflexivity.
  - unfold delete_questions. cbn [for_of]. unfold bind at 1. unfold try_catch at 1.
    rewrite (delete_question_sealed d v tr H).
    fold (delete_questions E docs).
    unfold console, modify. cbn [fst snd]. rewrite (IH _ _ H).
    cbn [flat_map refused_events]. rewrite <- !app_assoc. reflexivity.
Qed.

Lemma refused_events_summary (docs : list Question) :
  commits (flat_map (refused_events E) docs) = []
  /\ answers_reads (flat_map (refused_events E) docs) = map id docs
  /\ post_errors (flat_map (refused_events E) docs) = map id docs.
Proof.
  induction docs as [|d docs (IH1 & IH2 & IH3)]; [repeat split|].
  cbn [flat_map refused_events app map].
  split; [exact IH1|]. split.
  - change (answers_reads (?a :: ?b :: ?l)) with (id d :: answers_reads l).
    rewrite IH2. reflexivity.
  - change (post_errors (?a :: ?b :: ?l)) with (id d :: post_errors l).
    rewrite IH3. reflexivity.
Qed.

Lemma queue_op_open (bump : locals -> locals)
    (bump_batch : forall v, batch (bump v) = batch v)
    (bump_ops : forall v, batchOperations (bump v) = batchOperations v)
    (r : ref) (v : locals) (tr : list event)
    (c : completion unit) (v' : locals) (tr' : list event) :
  consistent v -> committed (batch v) = false ->
  queue_op E r bump (v, tr) = (c, (v', tr')) ->
  exists ext, tr' = tr ++ ext /\ open_or_rejected ext c v'.
Proof.
  intros Hv Hopen Hrun.
  destruct (queue_op_spec E bump bump_batch bump_ops r v tr Hv)
    as (c0 & v0 & tr0 & Heq & Hcase).
  rewrite Hrun in Heq. injection Heq as <- <- <-.
  destruct Hcase as [Hc | v' Hc Hn Hb Ho | v' d a Hc Hn Hk Hb Ho | v' e Hc Hn Hk Hb Ho].
  - congruence.
  - exists []. rewrite app_nil_r. split; [reflexivity|]. left.
    rewrite Hb. split; reflexivity.
  - eexists. split; [reflexivity|]. left. rewrite Hb. split; reflexivity.
  - eexists. split; [reflexivity|]. right. exists (ops (batch v) ++ [r]), e.
    rewrite Hb. repeat split.
Qed.

Lemma answers_loop_open (qid : string) (l : list string) :
  forall (v : locals) (tr : list event) (c : completion unit)
         (v' : locals) (tr' : list event),
    consistent v -> committed (batch v) = false ->
    for_of l (fun a => queue_op E (AnswerDoc qid a) count_answer) (v, tr)
    = (c, (v', tr')) ->
    exists ext, tr' = tr ++ ext /\ open_or_rejected ext c v'.
Proof.
  induction l as [|a l IH]; intros v tr c v' tr' Hv Hopen Hrun.
  - cbn in Hrun. injection Hrun as <- <- <-. exists []. rewrite app_nil_r.
    split; [reflexivity|]. left. split; [reflexivity|exact Hopen].
  - cbn [for_of] in Hrun. unfold bind in Hrun.
    destruct (queue_op E (AnswerDoc qid a) count_answer (v, tr))
      as [c1 [v1 tr1]] eqn:Hop.
    destruct (queue_op_sound E count_answer count_answer_batch count_answer_ops
                _ _ _ _ _ _ Hv Hop) as (Hv1 & _).
    destruct (queue_op_open count_answer count_answer_batch count_answer_ops
                _ _ _ _ _ _ Hv Hopen Hop) as (ext1 & -> & H1).
    destruct c1 as [[]|e].
    + destruct H1 as [(Hnone & Hopen1) | (d & e & _ & Hc & _)]; [|discriminate Hc].
      destruct (IH _ _ _ _ _ Hv1 Hopen1 Hrun) as (ext2 & -> & H2).
      exists (ext1 ++ ext2). rewrite app_assoc. split; [reflexivity|].
      unfold open_or_rejected. rewrite after_rejection_app, Hnone. exact H2.
    + injection Hrun as <- <- <-. exists ext1. split; [reflexivity|exact H1].
Qed.

Lemma delete_question_open (q : Question) (v : locals) (tr : list event)
    (c : completion unit) (v' : locals) (tr' : list event) :
  consistent v -> committed (batch v) = false ->
  delete_question E q (v, tr) = (c, (v', tr')) ->
  exists ext, tr' = tr ++ ext /\ open_or_rejected ext c v'.
Proof.
  intros Hv Hopen Hrun. rewrite delete_question_eq in Hrun.
  unfold bind at 1 in Hrun. unfold get_answers in Hrun.
  destruct (answers_get E (id q)) as [e|] eqn:Hget.
  - injection Hrun as <- <- <-. eexists. split; [reflexivity|].
    left. split; [reflexivity|exact Hopen].
  - unfold bind at 1 in Hrun.
    destruct (for_of (answers q)
                (fun a => queue_op E (AnswerDoc (id q) a) count_answer)
                (v, tr ++ [AnswersGet (id q) None])) as [c1 [v1 tr1]] eqn:Hloop.
    destruct (answers_loop_sound E _ _ _ _ _ _ _ Hv Hloop) as (Hv1 & _).
    destruct (answers_loop_open _ _ _ _ _ _ _ Hv Hopen Hloop) as (ext1 & -> & H1).
    destruct c1 as [[]|e].
    + destruct H1 as [(Hnone & Hopen1) | (d & e & _ & Hc & _)]; [|discriminate Hc].
      destruct (queue_op_open count_question count_question_batch count_question_ops
                  _ _ _ _ _ _ Hv1 Hopen1 Hrun) as (ext2 & -> & H2).
      exists ([AnswersGet (id q) None] ++ ext1 ++ ext2).
      rewrite <- !app_assoc. split; [reflexivity|].
      unfold open_or_rejected. cbn [app after_rejection].
      rewrite after_rejection_app, Hnone. exact H2.
    + injection Hrun as <- <- <-.
      exists ([AnswersGet (id q) None] ++ ext1).
      rewrite <- !app_assoc. split; [reflexivity|exact H1].
Qed.

(** The loop, started on an open batch: either no commit is rejected, or
    what follows the first rejected commit is the failure logged for the
    question being processed and then, for every remaining question, its
    read and its logged failure. *)
Lemma questions_loop_open (docs : list Question) :
  forall (v : locals) (tr : list event) (c : completion unit)
         (v' : locals) (tr' : list event),
    consistent v -> committed (batch v) = false ->
    delete_questions E docs (v, tr) = (c, (v', tr')) ->
    exists ext,
      tr' = tr ++ ext
      /\ ((after_rejection ext = None /\ committed (batch v') = false)
          \/ (exists d q0 e later,
                after_rejection ext
                = Some (d, Console (PostError q0 e) :: flat_map (refused_events E) later)
                /\ committed (batch v') = true
                /\ ops (batch v') = d)).
Proof.
  induction docs as [|q docs IH]; intros v tr c v' tr' Hv Hopen Hrun.
  - cbn in Hrun. injection Hrun as <- <- <-. exists []. rewrite app_nil_r.
    split; [reflexivity|]. left. split; [reflexivity|exact Hopen].
  - unfold delete_questions in Hrun. cbn [for_of] in Hrun.
    unfold bind at 1 in Hrun. unfold try_catch at 1 in Hrun.
    destruct (delete_question E q (v, tr)) as [c1 [v1 tr1]] eqn:Hq.
    destruct (delete_question_sound E q _ _ _ _ _ Hv Hq) as (Hv1 & _).
    destruct (delete_question_open q _ _ _ _ _ Hv Hopen Hq) as (ext1 & -> & H1).
    fold (delete_questions E docs) in Hrun.
    destruct c1 as [[]|e].
    + destruct H1 as [(Hnone & Hopen1) | (d & e & _ & Hc & _)]; [|discriminate Hc].
      destruct (IH _ _ _ _ _ Hv1 Hopen1 Hrun) as (ext2 & -> & H2).
      exists (ext1 ++ ext2). rewrite app_assoc. split; [reflexivity|].
      rewrite after_rejection_app, Hnone. exact H2.
    + unfold console, modify in Hrun. cbn [fst snd] in Hrun.
      destruct H1 as [(Hnone & Hopen1) | (d & e' & Hsome & Hc & Hsealed & Hops)].
      * destruct (IH _ _ _ _ _ Hv1 Hopen1 Hrun) as (ext2 & -> & H2).
        exists ((ext1 ++ [Console (PostError (id q) e)]) ++ ext2).
        rewrite !app_assoc. split; [reflexivity|].
        rewrite <- !app_assoc.
        rewrite after_rejection_app, Hnone. exact H2.
      * rewrite (questions_loop_sealed docs _ _ Hsealed) in Hrun.
        injection Hrun as <- <- <-.
        exists (ext1 ++ [Console (PostError (id q) e)] ++ flat_map (refused_events E) docs).
        rewrite !app_assoc. split; [reflexivity|]. right.
        exists d, (id q), e, docs. rewrite <- !app_assoc.
        rewrite after_rejection_app, Hsome. cbn [app].
        split; [reflexivity|]. split; [exact Hsealed|exact Hops].
Qed.
End ContentReaperRejection.

Lemma after_rejection_opening (E : ContentReaper.env) (tr : list ContentReaper.event) :
  ContentReaper.after_rejection (ContentReaper.opening E ++ tr)
  = ContentReaper.after_rejection tr.
Proof. reflexivity. Qed.

(** X12. A rejected commit is either the run's last call, from which the
    run ends rejected, or a commit of exactly 500 operations issued inside
    the loop.  In the second case the batch is neither replaced nor reset:
    the question being processed and every later question is logged as
    failed (each later one after its answers have been read), nothing more
    is queued, and the only commit that follows is one retry of the very
    same 500 operations at the end of the run. *)
Theorem content_reaper_rejected_commit_retried
    (E : ContentReaper.env) (d : list ref) (rest : list ContentReaper.event) :
  ContentReaper.after_rejection (snd (ContentReaper.run E)) = Some (d, rest) ->
  (rest = [] /\ exists e, fst (ContentReaper.run E) = Rejected e)
  \/ (length d = 500%nat
      /\ ContentReaper.commits rest = [d]
      /\ exists q0,
           ContentReaper.post_errors rest = q0 :: ContentReaper.answers_reads rest).
Proof.
  intros H.
  destruct (ContentReaper.questions_get E) as [e|] eqn:Hq.
  { rewrite (run_query_rejected E e Hq) in H. discriminate H. }
  destruct (ContentReaper.matched E) as [|q0 qs] eqn:Hm.
  { rewrite (run_nothing_expired E Hq Hm) in H. discriminate H. }
  assert (Hne : ContentReaper.matched E <> []) by (rewrite Hm; discriminate).
  clear Hm.
  destruct (run_shape E Hq Hne) as (v & ext & Hloop & Hv & Hfull & _ & Hrun).
  rewrite Hrun in H |- *. cbn [fst snd] in H |- *.
  destruct (questions_loop_open E _ _ _ _ _ _ consistent_init
              eq_refl Hloop) as (ext' & Hext & Hcase).
  apply app_inv_head in Hext. subst ext'.
  rewrite after_rejection_opening, after_rejection_app in H.
  destruct (ContentReaper.closing E v (ContentReaper.opening E ++ ext))
    as [c fin] eqn:Hc.
  cbn [fst snd] in H |- *.
  destruct Hcase as [(Hnone & Hopen) | (d' & p & e & later & Hsome & Hsealed & Hops)].
  - rewrite Hnone in H. left.
    unfold ContentReaper.closing in Hc.
    destruct (Nat.ltb 0 (ContentReaper.batchOperations v)).
    + destruct (ContentReaper.batch_commit E _) as [e|];
        injection Hc as <- <-; cbn in H; [|discriminate H].
      injection H as _ <-. split; [reflexivity|]. exists e. reflexivity.
    + destruct (Nat.ltb 0 (ContentReaper.deletedCount v));
        injection Hc as <- <-; discriminate H.
  - rewrite Hsome in H. injection H as <- <-. right.
    assert (Hlen : length d' = 500%nat).
    { apply after_rejection_commits in Hsome.
      unfold ContentReaper.full_commits in Hfull.
      apply (proj1 (List.Forall_forall _ _) Hfull d' Hsome). }
    split; [exact Hlen|].
    destruct (refused_events_summary E later) as (R1 & R2 & R3).
    assert (Hfin : ContentReaper.commits fin = [d']
                   /\ ContentReaper.answers_reads fin = []
                   /\ ContentReaper.post_errors fin = []).
    { destruct Hv as (Hv1 & _). rewrite Hops, Hlen in Hv1.
      unfold ContentReaper.closing in Hc. rewrite <- Hv1 in Hc.
      cbn [Nat.ltb Nat.leb] in Hc.
      destruct (ContentReaper.batch_commit E _) as [e'|];
        injection Hc as <- <-; rewrite Hops; repeat split. }
    destruct Hfin as (F1 & F2 & F3).
    change (ContentReaper.Console (ContentReaper.PostError p e)
              :: flat_map (ContentReaper.refused_events E) later ++ fin)
      with ([ContentReaper.Console (ContentReaper.PostError p e)]
              ++ flat_map (ContentReaper.refused_events E) later ++ fin).
    rewrite !commits_app, !answers_reads_app, !post_errors_app.
    rewrite R1, R2, R3, F1, F2, F3. split; [reflexivity|].
    exists p. cbn. rewrite !app_nil_r. reflexivity.
Qed.

(** The first commit (A's 499 answers and A) is rejected: A and B are
    logged as failed and the same 500 operations are committed at the end. *)
Lemma content_reaper_rejected_commit_retried_witness :
  ContentReaper.after_rejection (snd (ContentReaper.run Scenario.first_commit_rejected))
  = Some (Scenario.first_batch, Scenario.after_first_rejection)
  /\ length Scenario.first_batch = 500%nat
  /\ ContentReaper.commits Scenario.after_first_rejection = [Scenario.first_batch]
  /\ exists q0,
       ContentReaper.post_errors Scenario.after_first_rejection
       = q0 :: ContentReaper.answers_reads Scenario.after_first_rejection.
Proof.
  assert (H : ContentReaper.after_rejection
                (snd (ContentReaper.run Scenario.first_commit_rejected))
              = Some (Scenario.first_batch, Scenario.after_first_rejection))
    by (vm_compute; reflexivity).
  split; [exact H|].
  destruct (content_reaper_rejected_commit_retried _ _ _ H)
    as [(Hnil & _) | Hretry]; [discriminate Hnil|exact Hretry].
Defined.

(** ** ManualEnqueue: answers, store failures and the insert guard *)

(** Every path of the endpoint: the method tests, the [userId] test, the
    outcome of the lookup, the two tests on the profile and the outcome of
    the insert. *)
Ltac enqueue_paths E req :=
  unfold ManualEnqueue.run, ManualEnqueue.sendTestNotification;
  destruct (String.eqb (ManualEnqueue.method req) "OPTIONS") eqn:Hoptions;
  [|destruct (String.eqb (ManualEnqueue.method req) "POST") eqn:Hpost;
    [unfold try_catch, bind, ManualEnqueue.get_profile, ManualEnqueue.add,
       ManualEnqueue.console, modify, ret;
     cbn zeta;
     destruct (truthy (ManualEnqueue.userId (ManualEnqueue.req_body req))) eqn:Huid;
     [destruct (ManualEnqueue.profile_get E
                  (ManualEnqueue.userId (ManualEnqueue.req_body req)))
        as [e|p] eqn:Hget;
      [|destruct (ManualEnqueue.exists_ p) eqn:Hexists;
        [destruct (truthy (ManualEnqueue.fcm_token p)) eqn:Htoken;
         [destruct (ManualEnqueue.queue_add E
                      (ManualEnqueue.new_outbox_document
                         (ManualEnqueue.req_body req) (ManualEnqueue.fcm_token p)))
            as [e|] eqn:Hadd|]|]]|]|]];
  cbn [negb fst snd app].

(** X13. The endpoint never throws: whatever the request and whatever the
    store does, it answers once, with the three CORS headers and one of the
    statuses 204, 405, 400, 404, 200, 500.  It answers 200 exactly when a
    document has been inserted and 500 exactly when it has caught and logged
    an error; it looks a profile up at most once and requests at most one
    insert, never without a lookup before. *)
Theorem manual_enqueue_always_answers
    (E : ManualEnqueue.env) (req : ManualEnqueue.Request) :
  exists resp,
    fst (ManualEnqueue.run E req) = Resolved resp
    /\ ManualEnqueue.headers resp = ManualEnqueue.cors
    /\ In (ManualEnqueue.status resp) [204; 405; 400; 404; 200; 500]
    /\ (ManualEnqueue.status resp = 200
        <-> ManualEnqueue.inserted (snd (ManualEnqueue.run E req)) <> [])
    /\ (ManualEnqueue.status resp = 500
        <-> ManualEnqueue.logged_errors (snd (ManualEnqueue.run E req)) <> [])
    /\ (length (ManualEnqueue.lookups (snd (ManualEnqueue.run E req))) <= 1)%nat
    /\ (length (ManualEnqueue.adds (snd (ManualEnqueue.run E req)))
        <= length (ManualEnqueue.lookups (snd (ManualEnqueue.run E req))))%nat.
Proof.
  enqueue_paths E req;
    (eexists; split; [reflexivity|]; split; [reflexivity|];
     split; [cbn; auto 10|];
     split; [split; intros H; cbn in H;
             first [discriminate H | reflexivity | discriminate
                   | exfalso; apply H; reflexivity]|];
     split; [split; intros H; cbn in H;
             first [discriminate H | reflexivity | discriminate
                   | exfalso; apply H; reflexivity]|];
     split; cbn; lia).
Qed.

(** X14. A rejected store call is answered 500 with the error's message and
    is logged: when the lookup of the profile is rejected no insert is
    requested; when the insert is rejected nothing has been inserted.  In
    both cases the handler itself returns normally. *)
Theorem manual_enqueue_store_failure
    (E : ManualEnqueue.env) (req : ManualEnqueue.Request) :
  ManualEnqueue.method req = "POST" ->
  truthy (ManualEnqueue.userId (ManualEnqueue.req_body req)) = true ->
  (forall e,
      ManualEnqueue.profile_get E (ManualEnqueue.userId (ManualEnqueue.req_body req))
      = inl e ->
      ManualEnqueue.run E req
      = (Resolved (ManualEnqueue.respond 500
                     (ManualEnqueue.Json [("error", VStr (message e))])),
         [ManualEnqueue.ProfileGet (ManualEnqueue.userId (ManualEnqueue.req_body req))
            (inl e);
          ManualEnqueue.Console (ManualEnqueue.HandlerError e)]))
  /\ (forall p e,
        ManualEnqueue.profile_get E (ManualEnqueue.userId (ManualEnqueue.req_body req))
        = inr p ->
        ManualEnqueue.exists_ p = true ->
        truthy (ManualEnqueue.fcm_token p) = true ->
        ManualEnqueue.queue_add E
          (ManualEnqueue.new_outbox_document (ManualEnqueue.req_body req)
             (ManualEnqueue.fcm_token p)) = Some e ->
        fst (ManualEnqueue.run E req)
        = Resolved (ManualEnqueue.respond 500
                      (ManualEnqueue.Json [("error", VStr (message e))]))
        /\ ManualEnqueue.inserted (snd (ManualEnqueue.run E req)) = []
        /\ ManualEnqueue.logged_errors (snd (ManualEnqueue.run E req)) = [e]).
Proof.
  intros Hm Hu. split.
  - intros e He. rewrite (run_post E req Hm).
    unfold try_catch, bind, ManualEnqueue.get_profile, ManualEnqueue.console, modify, ret.
    cbn zeta. rewrite Hu. cbn [negb]. rewrite He. reflexivity.
  - intros p e Hp Hex Ht Hadd.
    rewrite (run_post_found E req p Hm Hu Hp Hex Ht), Hadd.
    repeat split.
Qed.

(** The profile lookup of u1 is rejected. *)
Lemma manual_enqueue_store_failure_witness :
  ManualEnqueue.run
    {| ManualEnqueue.profile_get := fun _ => inl Scenario.unavailable;
       ManualEnqueue.queue_add := fun _ => None |}
    Scenario.post_u1
  = (Resolved (ManualEnqueue.respond 500
                 (ManualEnqueue.Json
                    [("error", VStr (message Scenario.unavailable))])),
     [ManualEnqueue.ProfileGet (VStr "u1") (inl Scenario.unavailable);
      ManualEnqueue.Console (ManualEnqueue.HandlerError Scenario.unavailable)]).
Proof.
  destruct (manual_enqueue_store_failure
              {| ManualEnqueue.profile_get := fun _ => inl Scenario.unavailable;
                 ManualEnqueue.queue_add := fun _ => None |}
              Scenario.post_u1 eq_refl eq_refl) as (H & _).
  apply (H Scenario.unavailable). reflexivity.
Defined.

(** X15. An insert is requested only for a POST with a truthy [userId]
    whose profile was found with a truthy token, and the document is the
    one built from the request body and that profile's token: its [sent] is
    false, its title and body are the request's or the endpoint's defaults,
    never an empty string or another falsy value. *)
Theorem manual_enqueue_insert_guard
    (E : ManualEnqueue.env) (req : ManualEnqueue.Request) (doc : fields) :
  In doc (ManualEnqueue.adds (snd (ManualEnqueue.run E req))) ->
  ManualEnqueue.method req = "POST"
  /\ truthy (ManualEnqueue.userId (ManualEnqueue.req_body req)) = true
  /\ exists p,
       ManualEnqueue.profile_get E (ManualEnqueue.userId (ManualEnqueue.req_body req))
       = inr p
       /\ ManualEnqueue.exists_ p = true
       /\ truthy (ManualEnqueue.fcm_token p) = true
       /\ doc = ManualEnqueue.new_outbox_document (ManualEnqueue.req_body req)
                  (ManualEnqueue.fcm_token p)
       /\ exists t b,
            In ("title", Lit t) doc /\ truthy t = true
            /\ In ("body", Lit b) doc /\ truthy b = true.
Proof.
  assert (Hor : forall v d, truthy d = true -> truthy (or_else v d) = true).
  { intros v d Hd. unfold or_else. destruct (truthy v) eqn:Hv; [exact Hv|exact Hd]. }
  revert doc. enqueue_paths E req; intros doc Hin; cbn in Hin;
    try contradiction; destruct Hin as [<-|[]];
    (split; [apply String.eqb_eq; exact Hpost|]; split; [reflexivity|];
     exists p; split; [reflexivity|]; split; [exact Hexists|];
     split; [exact Htoken|]; split; [reflexivity|];
     eexists; eexists;
     split; [right; right; left; reflexivity|];
     split; [apply Hor; reflexivity|];
     split; [right; right; right; left; reflexivity|];
     apply Hor; reflexivity).
Qed.

(** A POST for u1, whose profile holds a token. *)
Lemma manual_enqueue_insert_guard_witness :
  ManualEnqueue.method Scenario.post_u1 = "POST"
  /\ truthy (ManualEnqueue.userId (ManualEnqueue.req_body Scenario.post_u1)) = true
  /\ exists p,
       ManualEnqueue.profile_get Scenario.profiles
         (ManualEnqueue.userId (ManualEnqueue.req_body Scenario.post_u1)) = inr p
       /\ ManualEnqueue.exists_ p = true
       /\ truthy (ManualEnqueue.fcm_token p) = true
       /\ ManualEnqueue.new_outbox_document (ManualEnqueue.req_body Scenario.post_u1)
            (VStr "tok-1")
          = ManualEnqueue.new_outbox_document (ManualEnqueue.req_body Scenario.post_u1)
              (ManualEnqueue.fcm_token p)
       /\ exists t b,
            In ("title", Lit t)
              (ManualEnqueue.new_outbox_document
                 (ManualEnqueue.req_body Scenario.post_u1) (VStr "tok-1"))
            /\ truthy t = true
            /\ In ("body", Lit b)
                 (ManualEnqueue.new_outbox_document
                    (ManualEnqueue.req_body Scenario.post_u1) (VStr "tok-1"))
            /\ truthy b = true.
Proof.
  apply (manual_enqueue_insert_guard Scenario.profiles Scenario.post_u1
           (ManualEnqueue.new_outbox_document
              (ManualEnqueue.req_body Scenario.post_u1) (VStr "tok-1"))).
  left. reflexivity.
Defined.

(** ** From the endpoint to the dispatcher *)

Lemma or_else_truthy (v d : value) :
  truthy d = true -> truthy (or_else v d) = true.
Proof.
  intros Hd. unfold or_else. destruct (truthy v) eqn:Hv; [exact Hv|exact Hd].
Qed.

Lemma or_else_idem (v d : value) :
  truthy v = true -> or_else v d = v.
Proof. intros Hv. unfold or_else. rewrite Hv. reflexivity. Qed.

(** X16. A document inserted by the endpoint is never skipped by the
    dispatcher and never takes its no-token path: the dispatcher calls the
    provider exactly once, with the token of the profile the endpoint read,
    the title and body the endpoint stored (the request's or the endpoint's
    defaults, so the dispatcher's own defaults are never used), the
    requested user as [userId] and every other key of the request's [data]
    unchanged. *)
Theorem enqueued_document_is_dispatched
    (EM : ManualEnqueue.env) (req : ManualEnqueue.Request)
    (ED : Dispatcher.env) (notificationId : string) (doc : fields) :
  In doc (ManualEnqueue.inserted (snd (ManualEnqueue.run EM req))) ->
  exists p m r,
    ManualEnqueue.profile_get EM (ManualEnqueue.userId (ManualEnqueue.req_body req))
    = inr p
    /\ Dispatcher.provider_calls
         (snd (Dispatcher.run ED (Pipeline.snapshot doc) notificationId))
       = [Dispatcher.MessagingSend m r]
    /\ Dispatcher.token m = ManualEnqueue.fcm_token p
    /\ Dispatcher.notification_title m
       = or_else (ManualEnqueue.title (ManualEnqueue.req_body req))
           (VStr "Test Notification")
    /\ Dispatcher.notification_body m
       = or_else (ManualEnqueue.body (ManualEnqueue.req_body req))
           (VStr "This is a test notification")
    /\ Dispatcher.msg_data m !! "userId"
       = Some (ManualEnqueue.userId (ManualEnqueue.req_body req))
    /\ forall k, k <> "notificationId" -> k <> "userId" -> k <> "timestamp" ->
         Dispatcher.msg_data m !! k
         = ManualEnqueue.data_or_empty
             (ManualEnqueue.data (ManualEnqueue.req_body req)) !! k.
Proof.
  revert doc. enqueue_paths EM req; intros doc Hin; cbn in Hin;
    try contradiction; destruct Hin as [<-|[]].
  set (b := ManualEnqueue.req_body req).
  set (snap := Pipeline.snapshot
                 (ManualEnqueue.new_outbox_document b (ManualEnqueue.fcm_token p))).
  assert (Hsent : Dispatcher.sent snap <> VBool true) by discriminate.
  assert (Htok : truthy (Dispatcher.fcm_token snap) = true) by exact Htoken.
  exists p, (Dispatcher.build_message ED snap notificationId),
    (Dispatcher.messaging_send ED (Dispatcher.build_message ED snap notificationId)).
  split; [reflexivity|].
  split; [apply (dispatcher_sends_built_message ED snap notificationId Hsent Htok)|].
  split; [reflexivity|].
  split; [apply or_else_idem, or_else_truthy; reflexivity|].
  split; [apply or_else_idem, or_else_truthy; reflexivity|].
  split.
  - cbn. rewrite lookup_insert_ne by discriminate. apply lookup_insert_eq.
  - intros k H1 H2 H3. cbn.
    rewrite !lookup_insert_ne by congruence.
    destruct (ManualEnqueue.data b); reflexivity.
Qed.

(** The document the endpoint inserts for u1, dispatched. *)
Lemma enqueued_document_is_dispatched_witness :
  exists p m r,
    ManualEnqueue.profile_get Scenario.profiles
      (ManualEnqueue.userId (ManualEnqueue.req_body Scenario.post_u1)) = inr p
    /\ Dispatcher.provider_calls
         (snd (Dispatcher.run Scenario.healthy
                 (Pipeline.snapshot
                    (ManualEnqueue.new_outbox_document
                       (ManualEnqueue.req_body Scenario.post_u1) (VStr "tok-1")))
                 "n1"))
       = [Dispatcher.MessagingSend m r]
    /\ Dispatcher.token m = ManualEnqueue.fcm_token p
    /\ Dispatcher.notification_title m
       = or_else (ManualEnqueue.title (ManualEnqueue.req_body Scenario.post_u1))
           (VStr "Test Notification")
    /\ Dispatcher.notification_body m
       = or_else (ManualEnqueue.body (ManualEnqueue.req_body Scenario.post_u1))
           (VStr "This is a test notification")
    /\ Dispatcher.msg_data m !! "userId"
       = Some (ManualEnqueue.userId (ManualEnqueue.req_body Scenario.post_u1))
    /\ forall k, k <> "notificationId" -> k <> "userId" -> k <> "timestamp" ->
         Dispatcher.msg_data m !! k
         = ManualEnqueue.data_or_empty
             (ManualEnqueue.data (ManualEnqueue.req_body Scenario.post_u1)) !! k.
Proof.
  apply (enqueued_document_is_dispatched Scenario.profiles Scenario.post_u1
           Scenario.healthy "n1"
           (ManualEnqueue.new_outbox_document
              (ManualEnqueue.req_body Scenario.post_u1) (VStr "tok-1"))).
  left. reflexivity.
Defined.

(** ** ContentReaper: the counts it logs *)

Section ContentReaperCounts.
Import ContentReaper.
Variable E : env.

Lemma questions_in_app (a b : list ref) :
  questions_in (a ++ b) = (questions_in a + questions_in b)%nat.
Proof. unfold questions_in. rewrite List.filter_app, length_app. reflexivity. Qed.

Lemma answers_in_app (a b : list ref) :
  answers_in (a ++ b) = (answers_in a + answers_in b)%nat.
Proof. unfold answers_in. rewrite List.filter_app, length_app. reflexivity. Qed.

Lemma reports_app (a b : list event) :
  forall seen, reports seen (a ++ b) = reports seen a ++ reports (seen ++ deleted a) b.
Proof.
  induction a as [|ev a IH]; intros seen.
  - cbn. rewrite app_nil_r. reflexivity.
  - destruct ev as [[]| | |d [e|]]; cbn [app reports deleted flat_map];
      rewrite IH, ?app_assoc; reflexivity.
Qed.

Lemma reports_nil_app (a b : list event) :
  reports [] (a ++ b) = reports [] a ++ reports (deleted a) b.
Proof. apply (reports_app a b []). Qed.

(** Events that remove nothing and log no count change nothing. *)
Lemma tallied_silent (v : locals) (tr ext : list event) :
  deleted ext = [] -> reports (deleted tr) ext = [] ->
  tallied (v, tr) -> tallied (v, tr ++ ext).
Proof.
  intros Hd Hr (Hv & Hq & Ha & Ht). unfold tallied in *. cbn [fst snd] in *.
  rewrite (reach_app_quiet v tr ext Hd).
  split; [exact Hv|]. split; [exact Hq|]. split; [exact Ha|].
  rewrite reports_nil_app, Hr, app_nil_r. exact Ht.
Qed.

Section QueueOpCounts.
Variable bump : locals -> locals.
Variable r : ref.
Hypothesis bump_batch : forall v, batch (bump v) = batch v.
Hypothesis bump_ops : forall v, batchOperations (bump v) = batchOperations v.
Hypothesis bump_questions :
  forall v, deletedCount (bump v) = (deletedCount v + questions_in [r])%nat.
Hypothesis bump_answers :
  forall v, totalAnswersDeleted (bump v) = (totalAnswersDeleted v + answers_in [r])%nat.

Lemma queue_op_tallied (v : locals) (tr : list event)
    (c : completion unit) (v' : locals) (tr' : list event) :
  tallied (v, tr) ->
  queue_op E r bump (v, tr) = (c, (v', tr')) ->
  tallied (v', tr').
Proof.
  intros (Hv & Hq & Ha & Ht) Hrun.
  destruct (queue_op_sound E bump bump_batch bump_ops r v tr c v' tr' Hv Hrun)
    as (Hv' & _).
  split; [exact Hv'|]. clear Hv'.
  destruct Hv as (Hlen & Hle & Hlt).
  unfold reach in *. cbn [fst snd] in *.
  revert Hrun. unfold queue_op, bind, delete, batch_delete.
  destruct (committed (batch v)) eqn:Hc.
  - intros Hrun. injection Hrun as <- <- <-. repeat split; assumption.
  - specialize (Hlt eq_refl).
    unfold flush_if_full, bind, get, assign, modify.
    cbn -[Nat.leb MAX_BATCH_SIZE]. rewrite bump_ops. cbn -[Nat.leb MAX_BATCH_SIZE].
    destruct (Nat.leb MAX_BATCH_SIZE (S (batchOperations v))) eqn:Hfull.
    + unfold commit, console, modify. cbn -[Nat.leb MAX_BATCH_SIZE].
      rewrite bump_batch. cbn -[Nat.leb MAX_BATCH_SIZE].
      destruct (batch_commit E (length (List.filter is_commit tr))) as [e|];
        cbn -[Nat.leb MAX_BATCH_SIZE]; intros Hrun; injection Hrun as <- <- <-;
        cbn [batch deletedCount totalAnswersDeleted set_batch set_batchOperations
             batch_seal batch_new ops].
      * rewrite bump_questions, bump_answers, ?bump_batch.
        cbn [batch deletedCount totalAnswersDeleted set_batch set_batchOperations ops].
        rewrite deleted_app. cbn [deleted flat_map app]. rewrite app_nil_r.
        rewrite !app_assoc, questions_in_app, answers_in_app, <- Hq, <- Ha.
        split; [reflexivity|]. split; [reflexivity|].
        rewrite reports_nil_app. cbn [reports]. rewrite app_nil_r. exact Ht.
      * rewrite bump_questions, bump_answers, ?bump_batch.
        cbn [batch deletedCount totalAnswersDeleted set_batch set_batchOperations ops].
        rewrite <- app_assoc, deleted_app. cbn [deleted flat_map app].
        rewrite !app_nil_r, !app_assoc, questions_in_app, answers_in_app, <- Hq, <- Ha.
        split; [reflexivity|]. split; [reflexivity|].
        rewrite reports_nil_app. cbn [reports app]. apply Forall_app. split; [exact Ht|].
        constructor; [|constructor]. unfold report_ok. cbn [fst snd].
        rewrite !app_assoc, questions_in_app, answers_in_app, <- Hq, <- Ha.
        split; reflexivity.
    + intros Hrun. injection Hrun as <- <- <-.
      rewrite bump_questions, bump_answers, ?bump_batch.
      cbn [batch deletedCount totalAnswersDeleted set_batch set_batchOperations ops].
      rewrite !app_assoc, questions_in_app, answers_in_app, <- Hq, <- Ha.
      repeat split. exact Ht.
Qed.
End QueueOpCounts.

Lemma answers_loop_tallied (qid : string) (l : list string) :
  forall (v : locals) (tr : list event) (c : completion unit)
         (v' : locals) (tr' : list event),
    tallied (v, tr) ->
    for_of l (fun a => queue_op E (AnswerDoc qid a) count_answer) (v, tr)
    = (c, (v', tr')) ->
    tallied (v', tr').
Proof.
  induction l as [|a l IH]; intros v tr c v' tr' Hs Hrun.
  - cbn in Hrun. injection Hrun as <- <- <-. exact Hs.
  - cbn [for_of] in Hrun. unfold bind in Hrun.
    destruct (queue_op E (AnswerDoc qid a) count_answer (v, tr))
      as [c1 [v1 tr1]] eqn:Hop.
    assert (H1 : tallied (v1, tr1)).
    { apply (queue_op_tallied count_answer (AnswerDoc qid a)
               count_answer_batch count_answer_ops) with (v := v) (tr := tr) (c := c1);
        [intros; cbn; lia|intros; cbn; lia|exact Hs|exact Hop]. }
    destruct c1 as [[]|e].
    + apply (IH _ _ _ _ _ H1 Hrun).
    + injection Hrun as <- <- <-. exact H1.
Qed.

Lemma delete_question_tallied (q : Question) (v : locals) (tr : list event)
    (c : completion unit) (v' : locals) (tr' : list event) :
  tallied (v, tr) ->
  delete_question E q (v, tr) = (c, (v', tr')) ->
  tallied (v', tr').
Proof.
  intros Hs Hrun. rewrite delete_question_eq in Hrun.
  unfold bind at 1 in Hrun. unfold get_answers in Hrun.
  assert (Hread : forall x, tallied (v, tr ++ [AnswersGet (id q) x]))
    by (intros x; apply tallied_silent; [reflexivity|reflexivity|exact Hs]).
  destruct (answers_get E (id q)) as [e|].
  - injection Hrun as <- <- <-. apply Hread.
  - unfold bind at 1 in Hrun.
    destruct (for_of (answers q)
                (fun a => queue_op E (AnswerDoc (id q) a) count_answer)
                (v, tr ++ [AnswersGet (id q) None])) as [c1 [v1 tr1]] eqn:Hloop.
    pose proof (answers_loop_tallied _ _ _ _ _ _ _ (Hread None) Hloop) as H1.
    destruct c1 as [[]|e].
    + apply (queue_op_tallied count_question (QuestionDoc (id q))
               count_question_batch count_question_ops) with (v := v1) (tr := tr1) (c := c);
        [intros; cbn; lia|intros; cbn; lia|exact H1|exact Hrun].
    + injection Hrun as <- <- <-. exact H1.
Qed.

Lemma questions_loop_tallied (docs : list Question) :
  forall (v : locals) (tr : list event) (c : completion unit)
         (v' : locals) (tr' : list event),
    tallied (v, tr) ->
    delete_questions E docs (v, tr) = (c, (v', tr')) ->
    tallied (v', tr').
Proof.
  induction docs as [|q docs IH]; intros v tr c v' tr' Hs Hrun.
  - cbn in Hrun. injection Hrun as <- <- <-. exact Hs.
  - unfold delete_questions in Hrun. cbn [for_of] in Hrun.
    unfold bind at 1 in Hrun. unfold try_catch at 1 in Hrun.
    destruct (delete_question E q (v, tr)) as [c1 [v1 tr1]] eqn:Hq.
    pose proof (delete_question_tallied q _ _ _ _ _ Hs Hq) as H1.
    fold (delete_questions E docs) in Hrun.
    destruct c1 as [[]|e].
    + apply (IH _ _ _ _ _ H1 Hrun).
    + unfold console, modify in Hrun. cbn [fst snd] in Hrun.
      apply (IH _ _ _ _ _
               (tallied_silent v1 tr1 [Console (PostError (id q) e)]
                  eq_refl eq_refl H1) Hrun).
Qed.

(** Every count a run logs is right. *)
Lemma run_reports : Forall report_ok (reports [] (snd (run E))).
Proof.
  destruct (questions_get E) as [e|] eqn:Hq.
  { rewrite (run_query_rejected E e Hq). constructor. }
  destruct (matched E) as [|q0 qs] eqn:Hm.
  { rewrite (run_nothing_expired E Hq Hm). constructor. }
  assert (Hne : matched E <> []) by (rewrite Hm; discriminate).
  clear Hm.
  destruct (run_shape E Hq Hne) as (v & ext & Hloop & _ & _ & _ & Hrun).
  rewrite Hrun. cbn [snd].
  assert (H0 : tallied (init, opening E)).
  { split; [apply consistent_init|]. repeat split. constructor. }
  destruct (questions_loop_tallied _ _ _ _ _ _ H0 Hloop)
    as ((Hlen & _ & _) & Hdc & Hta & Ht).
  unfold reach in Hdc, Hta. cbn [fst snd] in *.
  rewrite app_assoc, reports_nil_app. apply Forall_app. split; [exact Ht|].
  cbn [app]. unfold closing.
  destruct (Nat.ltb 0 (batchOperations v)) eqn:Hpos.
  - cbn [snd]. destruct (batch_commit E _) as [e|]; cbn [reports]; [constructor|].
    constructor; [|constructor]. split; cbn [fst snd]; assumption.
  - apply Nat.ltb_ge in Hpos.
    assert (Hnil : ops (batch v) = []).
    { destruct (ops (batch v)); [reflexivity|cbn in Hlen; lia]. }
    rewrite Hnil, app_nil_r in Hdc, Hta.
    destruct (Nat.ltb 0 (deletedCount v)); cbn [snd reports]; [|constructor].
    constructor; [|constructor]. split; cbn [fst snd]; assumption.
Qed.
End ContentReaperCounts.

(** X17. The counts the reaper logs are right: wherever a run logs
    [Progress d a] or [Finished d a], the commits accepted before that line
    have removed exactly [d] question documents and [a] answer documents,
    whatever reads and commits were rejected along the way. *)
Theorem content_reaper_logged_counts
    (E : ContentReaper.env) (pre post : list ContentReaper.event)
    (l : ContentReaper.log) (d a : nat) :
  snd (ContentReaper.run E) = pre ++ ContentReaper.Console l :: post ->
  l = ContentReaper.Progress d a \/ l = ContentReaper.Finished d a ->
  d = ContentReaper.questions_in (ContentReaper.deleted pre)
  /\ a = ContentReaper.answers_in (ContentReaper.deleted pre).
Proof.
  intros Htr Hl. pose proof (run_reports E) as H. rewrite Htr in H.
  rewrite reports_nil_app in H. apply Forall_app in H as (_ & H).
  cbn [app] in H.
  destruct Hl as [-> | ->]; cbn [ContentReaper.reports] in H;
    apply Forall_inv in H; exact H.
Qed.

(** The only count logged in [all_well] is the last line. *)
Lemma content_reaper_logged_counts_witness :
  2%nat = ContentReaper.questions_in
            (ContentReaper.deleted
               [ContentReaper.Console ContentReaper.Starting;
                ContentReaper.QuestionsGet None;
                ContentReaper.Console (ContentReaper.Found 2);
                ContentReaper.AnswersGet "A" None;
                ContentReaper.AnswersGet "B" None;
                ContentReaper.Commit
                  [AnswerDoc "A" "a1"; AnswerDoc "A" "a2"; QuestionDoc "A";
                   QuestionDoc "B"] None])
  /\ 2%nat = ContentReaper.answers_in
               (ContentReaper.deleted
                  [ContentReaper.Console ContentReaper.Starting;
                   ContentReaper.QuestionsGet None;
                   ContentReaper.Console (ContentReaper.Found 2);
                   ContentReaper.AnswersGet "A" None;
                   ContentReaper.AnswersGet "B" None;
                   ContentReaper.Commit
                     [AnswerDoc "A" "a1"; AnswerDoc "A" "a2"; QuestionDoc "A";
                      QuestionDoc "B"] None]).
Proof.
  apply (content_reaper_logged_counts Scenario.all_well _ []
           (ContentReaper.Finished 2 2) 2 2).
  - vm_compute. reflexivity.
  - right. reflexivity.
Defined.

(** ** ContentReaper: the order in which deletes are queued and removed *)

Section ContentReaperChunks.
Import ContentReaper.
Variable E : env.

Lemma rejected_ops_app (a b : list event) :
  rejected_ops (a ++ b) = rejected_ops a ++ rejected_ops b.
Proof. apply flat_map_app. Qed.

Lemma queued_all_nil (s : state) :
  committed (batch (fst s)) = false -> queued_all [] s (Resolved tt) s.
Proof.
  intros H. exists [], []. rewrite !app_nil_r.
  split; [reflexivity|]. split; [reflexivity|]. left. auto.
Qed.

Lemma queued_all_open (refs : list ref) (s s' : state) :
  queued_all refs s (Resolved tt) s' -> committed (batch (fst s')) = false.
Proof.
  intros (a & ext & _ & _ & [(_ & _ & Ho & _) | (e & k & r & Hc & _)]);
    [exact Ho|discriminate Hc].
Qed.

Lemma queued_all_seq (refs1 refs2 : list ref) (s s1 s2 : state)
    (c : completion unit) :
  queued_all refs1 s (Resolved tt) s1 ->
  queued_all refs2 s1 c s2 ->
  queued_all (refs1 ++ refs2) s c s2.
Proof.
  intros (a1 & e1 & Ht1 & Hr1 & [(_ & -> & _ & Hj1) | (e & k & r & Hc & _)]);
    [|discriminate Hc].
  intros (a2 & e2 & Ht2 & Hr2 & H2).
  exists (refs1 ++ a2), (e1 ++ e2).
  split; [rewrite Ht2, Ht1, app_assoc; reflexivity|].
  split; [rewrite Hr2, Hr1, app_assoc; reflexivity|].
  rewrite rejected_ops_app, Hj1. cbn [app].
  destruct H2 as [(-> & -> & Ho2 & Hj2) | (e & k & r & -> & -> & Hin & Hrej & Hs)].
  - left. auto.
  - right. exists e, k, r. rewrite <- app_assoc.
    split; [reflexivity|]. split; [reflexivity|].
    split; [apply in_app_iff; right; exact Hin|]. split; [exact Hrej|exact Hs].
Qed.

Lemma queued_all_stop (refs1 refs2 : list ref) (s s1 : state) (e : error) :
  queued_all refs1 s (Rejected e) s1 ->
  queued_all (refs1 ++ refs2) s (Rejected e) s1.
Proof.
  intros (a1 & e1 & Ht1 & Hr1 & [(Hc & _) | (e' & k & r & Hc & -> & Hin & Hrej & Hs)]);
    [discriminate Hc|].
  exists a1, e1. split; [exact Ht1|]. split; [exact Hr1|]. right.
  exists e', (k ++ refs2), r. rewrite app_assoc.
  split; [exact Hc|]. split; [reflexivity|].
  split; [exact Hin|]. split; [exact Hrej|exact Hs].
Qed.

(** An event before the deletes that removes nothing and is no commit. *)
Lemma queued_all_after (ev : event) (refs : list ref) (v : locals)
    (tr : list event) (c : completion unit) (s' : state) :
  deleted [ev] = [] -> rejected_ops [ev] = [] ->
  queued_all refs (v, tr ++ [ev]) c s' ->
  queued_all refs (v, tr) c s'.
Proof.
  intros Hd Hj (a & ext & Ht & Hr & H). exists a, ([ev] ++ ext).
  cbn [fst snd] in *.
  split; [rewrite Ht, <- app_assoc; reflexivity|].
  split.
  - rewrite Hr. unfold reach. cbn [fst snd].
    rewrite deleted_app, Hd, app_nil_r. reflexivity.
  - rewrite rejected_ops_app, Hj. cbn [app]. exact H.
Qed.

Section QueueOpChunk.
Variable bump : locals -> locals.
Hypothesis bump_batch : forall v, batch (bump v) = batch v.
Hypothesis bump_ops : forall v, batchOperations (bump v) = batchOperations v.

(** One delete on an open batch is always queued; when the commit it
    triggers is rejected, that commit carries it. *)
Lemma queue_op_chunk (r : ref) (v : locals) (tr : list event)
    (c : completion unit) (v' : locals) (tr' : list event) :
  consistent v -> committed (batch v) = false ->
  queue_op E r bump (v, tr) = (c, (v', tr')) ->
  queued_all [r] (v, tr) c (v', tr').
Proof.
  intros Hv Hopen Hrun.
  destruct (queue_op_spec E bump bump_batch bump_ops r v tr Hv)
    as (c0 & v0 & tr0 & Heq & Hcase).
  rewrite Hrun in Heq. injection Heq as <- <- <-.
  destruct Hcase as [Hc | v' Hc Hn Hb Ho | v' d a Hc Hn Hk Hb Ho | v' e Hc Hn Hk Hb Ho].
  - congruence.
  - exists [r], []. unfold reach. cbn [fst snd]. rewrite Hb. cbn [ops committed].
    rewrite !app_nil_r, app_assoc.
    split; [reflexivity|]. split; [reflexivity|]. left. auto.
  - exists [r], [Commit (ops (batch v) ++ [r]) None; Console (Progress d a)].
    unfold reach. cbn [fst snd]. rewrite Hb, deleted_app.
    cbn [deleted flat_map app batch_new ops committed].
    rewrite !app_nil_r, <- !app_assoc.
    split; [reflexivity|]. split; [reflexivity|]. left. auto.
  - exists [r], [Commit (ops (batch v) ++ [r]) (Some e)].
    unfold reach. cbn [fst snd]. rewrite Hb, deleted_app.
    cbn [deleted flat_map app ops committed].
    rewrite !app_nil_r, <- !app_assoc.
    split; [reflexivity|]. split; [reflexivity|]. right.
    exists e, [], r.
    split; [reflexivity|]. split; [reflexivity|].
    split; [left; reflexivity|]. split; [|reflexivity].
    cbn [rejected_ops flat_map]. rewrite app_nil_r.
    apply in_app_iff. right. left. reflexivity.
Qed.
End QueueOpChunk.

Lemma answers_loop_chunk (qid : string) (l : list string) :
  forall (v : locals) (tr : list event) (c : completion unit)
         (v' : locals) (tr' : list event),
    consistent v -> committed (batch v) = false ->
    for_of l (fun a => queue_op E (AnswerDoc qid a) count_answer) (v, tr)
    = (c, (v', tr')) ->
    queued_all (map (AnswerDoc qid) l) (v, tr) c (v', tr').
Proof.
  induction l as [|a l IH]; intros v tr c v' tr' Hv Hopen Hrun.
  - cbn in Hrun. injection Hrun as <- <- <-. apply queued_all_nil. exact Hopen.
  - cbn [for_of] in Hrun. unfold bind in Hrun.
    destruct (queue_op E (AnswerDoc qid a) count_answer (v, tr))
      as [c1 [v1 tr1]] eqn:Hop.
    destruct (queue_op_sound E count_answer count_answer_batch count_answer_ops
                _ _ _ _ _ _ Hv Hop) as (Hv1 & _).
    pose proof (queue_op_chunk count_answer count_answer_batch count_answer_ops
                  _ _ _ _ _ _ Hv Hopen Hop) as H1.
    change (map (AnswerDoc qid) (a :: l))
      with ([AnswerDoc qid a] ++ map (AnswerDoc qid) l).
    destruct c1 as [[]|e].
    + apply (queued_all_seq _ _ _ _ _ _ H1).
      apply (IH _ _ _ _ _ Hv1 (queued_all_open _ _ _ H1) Hrun).
    + injection Hrun as <- <- <-. apply queued_all_stop. exact H1.
Qed.

(** Processing one question on an open batch: its deletes are queued in
    order, answers first; or the read of its answers is rejected and
    nothing changes. *)
Lemma delete_question_chunk (q : Question) (v : locals) (tr : list event)
    (c : completion unit) (v' : locals) (tr' : list event) :
  consistent v -> committed (batch v) = false ->
  delete_question E q (v, tr) = (c, (v', tr')) ->
  queued_all (question_refs q) (v, tr) c (v', tr')
  \/ (exists e, c = Rejected e /\ v' = v
                /\ tr' = tr ++ [AnswersGet (id q) (Some e)]).
Proof.
  intros Hv Hopen Hrun. rewrite delete_question_eq in Hrun.
  unfold bind at 1 in Hrun. unfold get_answers in Hrun.
  destruct (answers_get E (id q)) as [e|] eqn:Hget.
  - injection Hrun as <- <- <-. right. exists e. auto.
  - left. apply (queued_all_after (AnswersGet (id q) None)); [reflexivity|reflexivity|].
    unfold bind at 1 in Hrun.
    destruct (for_of (answers q)
                (fun a => queue_op E (AnswerDoc (id q) a) count_answer)
                (v, tr ++ [AnswersGet (id q) None])) as [c1 [v1 tr1]] eqn:Hloop.
    destruct (answers_loop_sound E _ _ _ _ _ _ _ Hv Hloop) as (Hv1 & _).
    pose proof (answers_loop_chunk _ _ _ _ _ _ _ Hv Hopen Hloop) as H1.
    unfold question_refs, answer_refs.
    destruct c1 as [[]|e].
    + apply (queued_all_seq _ _ _ _ _ _ H1).
      apply (queue_op_chunk count_question count_question_batch count_question_ops
               _ _ _ _ _ _ Hv1 (queued_all_open _ _ _ H1) Hrun).
    + injection Hrun as <- <- <-. apply queued_all_stop. exact H1.
Qed.

Lemma chunk_of_mono (rej rej' : list ref) (q : Question) (c : list ref) :
  incl rej rej' -> chunk_of rej q c -> chunk_of rej' q c.
Proof.
  intros Hincl (Hk & [H | [H | (r & Hr & Hrej)]]); split; auto.
  right. right. exists r. auto.
Qed.

Lemma chunks_mono (rej rej' : list ref) (docs : list Question)
    (chunks : list (list ref)) :
  incl rej rej' ->
  Forall2 (chunk_of rej) docs chunks -> Forall2 (chunk_of rej') docs chunks.
Proof.
  intros Hincl H. induction H as [|q c docs chunks Hc _ IH]; constructor;
    [apply (chunk_of_mono rej rej' q c Hincl Hc)|exact IH].
Qed.

Lemma chunks_none (rej : list ref) (docs : list Question) :
  Forall2 (chunk_of rej) docs (map (fun _ => []) docs)
  /\ concat (map (fun _ : Question => @nil ref) docs) = [].
Proof.
  induction docs as [|q docs (IH1 & IH2)]; [split; [constructor|reflexivity]|].
  split; [|exact IH2]. constructor; [|exact IH1].
  split; [exists (question_refs q); reflexivity|right; left; reflexivity].
Qed.

Lemma refused_events_quiet (docs : list Question) :
  deleted (flat_map (refused_events E) docs) = [].
Proof. induction docs as [|q docs IH]; [reflexivity|exact IH]. Qed.

Lemma questions_loop_chunk_sealed (docs : list Question) (v : locals)
    (tr : list event) :
  chunked docs (v, tr) (v, tr ++ flat_map (refused_events E) docs).
Proof.
  destruct (chunks_none (rejected_ops (flat_map (refused_events E) docs)) docs)
    as (Hf & Hc).
  exists (map (fun _ => []) docs), (flat_map (refused_events E) docs).
  split; [reflexivity|]. split; [|exact Hf].
  unfold reach. cbn [fst snd].
  rewrite deleted_app, refused_events_quiet, Hc, !app_nil_r. reflexivity.
Qed.

Lemma chunked_cons (q : Question) (docs : list Question) (c0 : list ref)
    (s s1 s2 : state) (ext1 : list event) :
  snd s1 = snd s ++ ext1 ->
  reach s1 = reach s ++ c0 ->
  chunk_of (rejected_ops ext1) q c0 ->
  chunked docs s1 s2 ->
  chunked (q :: docs) s s2.
Proof.
  intros Ht1 Hr1 Hc (chunks & ext2 & Ht2 & Hr2 & Hf).
  exists (c0 :: chunks), (ext1 ++ ext2).
  split; [rewrite Ht2, Ht1, app_assoc; reflexivity|].
  split; [rewrite Hr2, Hr1; cbn [concat]; rewrite app_assoc; reflexivity|].
  rewrite rejected_ops_app. constructor.
  - apply (chunk_of_mono (rejected_ops ext1)); [apply incl_appl, incl_refl|exact Hc].
  - apply (chunks_mono (rejected_ops ext2)); [apply incl_appr, incl_refl|exact Hf].
Qed.

(** The loop of lines 180-215, from an open batch. *)
Lemma questions_loop_chunk (docs : list Question) :
  forall (v : locals) (tr : list event) (c : completion unit)
         (v' : locals) (tr' : list event),
    consistent v -> committed (batch v) = false ->
    delete_questions E docs (v, tr) = (c, (v', tr')) ->
    chunked docs (v, tr) (v', tr').
Proof.
  induction docs as [|q docs IH]; intros v tr c v' tr' Hv Hopen Hrun.
  - cbn in Hrun. injection Hrun as <- <- <-. exists [], [].
    cbn [concat]. rewrite !app_nil_r.
    split; [reflexivity|]. split; [reflexivity|constructor].
  - unfold delete_questions in Hrun. cbn [for_of] in Hrun.
    unfold bind at 1 in Hrun. unfold try_catch at 1 in Hrun.
    destruct (delete_question E q (v, tr)) as [c1 [v1 tr1]] eqn:Hq.
    destruct (delete_question_sound E q _ _ _ _ _ Hv Hq) as (Hv1 & _).
    pose proof (delete_question_chunk q _ _ _ _ _ Hv Hopen Hq) as Hstep.
    fold (delete_questions E docs) in Hrun.
    destruct c1 as [[]|e].
    + destruct Hstep as [H1 | (e & Hc & _)]; [|discriminate Hc].
      pose proof (queued_all_open _ _ _ H1) as Ho1.
      destruct H1 as (added & ext1 & Ht1 & Hr1
                      & [(_ & -> & _ & _) | (e & k & r & Hc & _)]);
        [|discriminate Hc].
      apply (chunked_cons q docs (question_refs q) (v, tr) (v1, tr1) (v', tr') ext1);
        [exact Ht1|exact Hr1| |apply (IH _ _ _ _ _ Hv1 Ho1 Hrun)].
      split; [exists []; rewrite app_nil_r; reflexivity|left; reflexivity].
    + unfold console, modify in Hrun. cbn [fst snd] in Hrun.
      destruct Hstep as [H1 | (e' & Hc & -> & ->)].
      * destruct H1 as (added & ext1 & Ht1 & Hr1
                        & [(Hc & _) | (e' & k & r & _ & Hk & Hin & Hrej & Hs)]);
          [discriminate Hc|].
        cbn [fst snd] in Ht1, Hs. subst tr1.
        rewrite (questions_loop_sealed E docs _ _ Hs) in Hrun.
        injection Hrun as <- <- <-.
        apply (chunked_cons q docs added (v, tr)
                 (v1, (tr ++ ext1) ++ [Console (PostError (id q) e)])
                 _ (ext1 ++ [Console (PostError (id q) e)])).
        -- cbn [fst snd]. rewrite app_assoc. reflexivity.
        -- unfold reach in *. cbn [fst snd] in *. rewrite deleted_app.
           cbn [deleted flat_map app]. rewrite app_nil_r. exact Hr1.
        -- split; [exists k; exact Hk|]. right. right. exists r.
           split; [exact Hin|]. rewrite rejected_ops_app.
           apply in_app_iff. left. exact Hrej.
        -- apply questions_loop_chunk_sealed.
      * apply (chunked_cons q docs [] (v, tr)
                 (v, (tr ++ [AnswersGet (id q) (Some e')])
                       ++ [Console (PostError (id q) e)])
                 _ ([AnswersGet (id q) (Some e')] ++ [Console (PostError (id q) e)])).
        -- cbn [fst snd]. rewrite <- app_assoc. reflexivity.
        -- unfold reach. cbn [fst snd]. rewrite !deleted_app.
           cbn [deleted flat_map app]. rewrite !app_nil_r. reflexivity.
        -- split; [exists (question_refs q); reflexivity|right; left; reflexivity].
        -- apply (IH _ _ _ _ _ Hv Hopen Hrun).
Qed.

(** A run: what the loop has queued is one chunk per matched question, in
    query order; what the run has removed is a first part of that, and the
    whole of it unless the commit after the loop was rejected. *)
Lemma run_chunks :
  exists (chunks : list (list ref)) (D P : list ref),
    Forall2 (chunk_of (rejected_ops (snd (run E)))) (matched E) chunks
    /\ concat chunks = D ++ P
    /\ (deleted (snd (run E)) = D ++ P
        \/ (deleted (snd (run E)) = D /\ incl P (rejected_ops (snd (run E))))).
Proof.
  destruct (questions_get E) as [e|] eqn:Hq.
  { rewrite (run_query_rejected E e Hq).
    destruct (chunks_none
                (rejected_ops (snd (Rejected e : completion unit,
                                    [Console Starting; QuestionsGet (Some e)])))
                (matched E)) as (Hf & Hc).
    exists (map (fun _ => []) (matched E)), [], [].
    split; [exact Hf|]. split; [exact Hc|]. left. reflexivity. }
  destruct (matched E) as [|q0 qs] eqn:Hm.
  { rewrite (run_nothing_expired E Hq Hm). exists [], [], [].
    split; [constructor|]. split; [reflexivity|left; reflexivity]. }
  assert (Hne : matched E <> []) by (rewrite Hm; discriminate).
  rewrite <- Hm. clear Hm q0 qs.
  destruct (run_shape E Hq Hne) as (v & ext & Hloop & Hv & _ & _ & Hrun).
  destruct (questions_loop_chunk _ _ _ _ _ _ consistent_init eq_refl Hloop)
    as (chunks & ext' & Ht & Hr & Hf).
  cbn [fst snd] in Ht. apply app_inv_head in Ht. subst ext'.
  unfold reach in Hr. cbn [fst snd] in Hr. rewrite deleted_app in Hr.
  change (deleted (opening E)) with (@nil ref) in Hr.
  cbn [app init batch ops batch_new] in Hr.
  rewrite Hrun. cbn [snd].
  rewrite !rejected_ops_app, !deleted_app.
  change (rejected_ops (opening E)) with (@nil ref).
  change (deleted (opening E)) with (@nil ref). cbn [app].
  exists chunks, (deleted ext), (ops (batch v)).
  split; [apply (chunks_mono (rejected_ops ext)); [apply incl_appl, incl_refl|exact Hf]|].
  split; [symmetry; exact Hr|].
  unfold closing. destruct (Nat.ltb 0 (batchOperations v)) eqn:Hpos.
  - cbn [snd]. destruct (batch_commit E _) as [e|].
    + right. cbn [deleted rejected_ops flat_map app]. rewrite !app_nil_r.
      split; [reflexivity|]. apply incl_appr, incl_refl.
    + left. cbn [deleted flat_map app]. rewrite !app_nil_r. reflexivity.
  - left. apply Nat.ltb_ge in Hpos. destruct Hv as (Hlen & _).
    assert (Hnil : ops (batch v) = []).
    { destruct (ops (batch v)); [reflexivity|cbn in Hlen; lia]. }
    rewrite Hnil. destruct (Nat.ltb 0 (deletedCount v)); reflexivity.
Qed.
End ContentReaperChunks.

(** A first part of a list that holds [x] holds all that stands before
    the first [x]. *)
Lemma prefix_covers {A} (X Y T K : list A) (x : A) :
  T ++ K = X ++ x :: Y -> In x T -> ~ In x X -> incl X T.
Proof.
  revert T. induction X as [|a X IH]; intros T Heq Hin Hnot; [intros ? []|].
  destruct T as [|t T]; [contradiction|].
  cbn in Heq. injection Heq as -> Heq.
  destruct Hin as [->|Hin]; [exfalso; apply Hnot; left; reflexivity|].
  intros y [<-|Hy]; [left; reflexivity|right].
  apply (IH T Heq Hin); [intros H; apply Hnot; right; exact H|exact Hy].
Qed.

Lemma prefix_last {A} (c k X : list A) (x : A) :
  c ++ k = X ++ [x] -> In x c -> ~ In x X -> k = [].
Proof.
  intros Heq Hin Hnot. induction k as [|y k _] using rev_ind; [reflexivity|].
  exfalso. rewrite app_assoc in Heq. apply app_inj_tail in Heq as (<- & _).
  apply Hnot, in_app_iff. left. exact Hin.
Qed.

Lemma Forall2_split {A B} (R : A -> B -> Prop) (l1 l2 : list A) (x : A) :
  forall l', Forall2 R (l1 ++ x :: l2) l' ->
    exists l1' y l2',
      l' = l1' ++ y :: l2' /\ Forall2 R l1 l1' /\ R x y /\ Forall2 R l2 l2'.
Proof.
  induction l1 as [|a l1 IH]; intros l' H; inversion H as [|? b ? k Hab Hrest]; subst.
  - exists [], b, k. split; [reflexivity|]. split; [constructor|]. split; assumption.
  - destruct (IH _ Hrest) as (l1' & y & l2' & -> & H1 & Hxy & H2).
    exists (b :: l1'), y, l2'. split; [reflexivity|].
    split; [constructor; assumption|]. split; assumption.
Qed.

Lemma NoDup_map_firstn {A B} (f : A -> B) (n : nat) (l : list A) :
  List.NoDup (map f l) -> List.NoDup (map f (firstn n l)).
Proof.
  intros H. rewrite <- (firstn_skipn n l), map_app in H.
  apply NoDup_app_remove_r in H. exact H.
Qed.

Lemma chunks_owner (rej : list ref) (docs : list ContentReaper.Question)
    (chunks : list (list ref)) (r : ref) :
  Forall2 (ContentReaper.chunk_of rej) docs chunks ->
  In r (concat chunks) ->
  exists q, In q docs /\ In r (ContentReaper.question_refs q).
Proof.
  intros H. induction H as [|q c docs chunks ((k & Hk) & _) _ IH]; [intros []|].
  cbn [concat]. intros Hin. apply in_app_iff in Hin as [Hin|Hin].
  - exists q. split; [left; reflexivity|]. rewrite Hk. apply in_app_iff. left. exact Hin.
  - destruct (IH Hin) as (q' & Hq' & Hr). exists q'. split; [right; exact Hq'|exact Hr].
Qed.

(** C6, amended.  A run removes nothing but matched questions and their
    answers.  With unique question ids, whatever read or commit is
    rejected: a question that is removed has all its answers removed, so no
    answer outlives its question; and an answer is removed only together
    with its question, provided no rejected commit carried the delete of
    that question or of one of its answers. *)
Theorem content_reaper_cascade (E : ContentReaper.env) :
  (forall r,
      In r (ContentReaper.deleted (snd (ContentReaper.run E))) ->
      exists q, In q (ContentReaper.matched E)
                /\ In r (ContentReaper.question_refs q))
  /\ (List.NoDup (map ContentReaper.id (ContentReaper.questions E)) ->
      forall q, In q (ContentReaper.matched E) ->
        (In (QuestionDoc (ContentReaper.id q))
           (ContentReaper.deleted (snd (ContentReaper.run E))) ->
         forall a, In a (ContentReaper.answers q) ->
           In (AnswerDoc (ContentReaper.id q) a)
             (ContentReaper.deleted (snd (ContentReaper.run E))))
        /\ (ContentReaper.intact (snd (ContentReaper.run E)) q ->
            forall a, In a (ContentReaper.answers q) ->
              In (AnswerDoc (ContentReaper.id q) a)
                (ContentReaper.deleted (snd (ContentReaper.run E))) ->
              In (QuestionDoc (ContentReaper.id q))
                (ContentReaper.deleted (snd (ContentReaper.run E))))).
Proof.
  destruct (run_chunks E) as (chunks & D & P & Hf & Hcat & Hdel).
  assert (Hsub : incl (ContentReaper.deleted (snd (ContentReaper.run E)))
                   (concat chunks)).
  { rewrite Hcat. destruct Hdel as [-> | (-> & _)];
      [apply incl_refl|apply incl_appl, incl_refl]. }
  split.
  { intros r Hr. apply (chunks_owner _ _ _ r Hf). apply Hsub. exact Hr. }
  intros Hnd q Hq.
  assert (Hndm : List.NoDup (map ContentReaper.id (ContentReaper.matched E))).
  { unfold ContentReaper.matched, limit, ContentReaper.where_expires_at_lt.
    apply NoDup_map_firstn, NoDup_map_filter, Hnd. }
  destruct (in_split _ _ Hq) as (M1 & M2 & HM). rewrite HM in Hf, Hndm.
  destruct (Forall2_split _ _ _ _ _ Hf)
    as (C1 & c & C2 & -> & Hf1 & ((k & Hk) & Hc) & Hf2).
  rewrite concat_app in Hcat, Hsub. cbn [concat] in Hcat, Hsub.
  rewrite map_app in Hndm. cbn [map] in Hndm.
  apply NoDup_remove_2 in Hndm.
  assert (Hother : forall r, In r (concat C1) \/ In r (concat C2) ->
                             owner r <> Some (ContentReaper.id q)).
  { intros r Hr Ho. apply Hndm. apply in_app_iff.
    destruct Hr as [Hr|Hr]; [left|right].
    - destruct (chunks_owner _ _ _ r Hf1 Hr) as (q' & Hq' & Hr').
      apply question_refs_owner in Hr'. rewrite Hr' in Ho. injection Ho as <-.
      apply in_map. exact Hq'.
    - destruct (chunks_owner _ _ _ r Hf2 Hr) as (q' & Hq' & Hr').
      apply question_refs_owner in Hr'. rewrite Hr' in Ho. injection Ho as <-.
      apply in_map. exact Hq'. }
  assert (Hmine : forall r, owner r = Some (ContentReaper.id q) ->
                            In r (concat C1 ++ c ++ concat C2) -> In r c).
  { intros r Ho Hr. apply in_app_iff in Hr as [Hr|Hr];
      [exfalso; apply (Hother r (or_introl Hr) Ho)|].
    apply in_app_iff in Hr as [Hr|Hr]; [exact Hr|].
    exfalso. apply (Hother r (or_intror Hr) Ho). }
  assert (Hprefix : exists K, ContentReaper.deleted (snd (ContentReaper.run E)) ++ K
                              = concat C1 ++ c ++ concat C2).
  { rewrite Hcat. destruct Hdel as [-> | (-> & _)];
      [exists []; apply app_nil_r|exists P; reflexivity]. }
  split.
  - intros HQ a Ha.
    assert (Hin : In (QuestionDoc (ContentReaper.id q)) c)
      by (apply Hmine; [reflexivity|apply Hsub, HQ]).
    assert (Hno : ~ In (QuestionDoc (ContentReaper.id q)) (ContentReaper.answer_refs q)).
    { unfold ContentReaper.answer_refs. intros H.
      apply in_map_iff in H as (x & Hx & _). discriminate Hx. }
    unfold ContentReaper.question_refs in Hk. symmetry in Hk.
    pose proof (prefix_last _ _ _ _ Hk Hin Hno) as ->.
    rewrite app_nil_r in Hk. subst c.
    destruct Hprefix as (K & HK).
    rewrite <- app_assoc in HK. cbn [app] in HK. rewrite app_assoc in HK.
    apply (prefix_covers _ _ _ _ _ HK HQ).
    + intros H. apply in_app_iff in H as [H|H]; [|exact (Hno H)].
      apply (Hother _ (or_introl H)). reflexivity.
    + apply in_app_iff. right. unfold ContentReaper.answer_refs.
      apply in_map. exact Ha.
  - intros Hintact a Ha HA.
    assert (Hin : In (AnswerDoc (ContentReaper.id q) a) c)
      by (apply Hmine; [reflexivity|apply Hsub, HA]).
    assert (Hfull : c = ContentReaper.question_refs q).
    { destruct Hc as [H | [-> | (r & Hr & Hrej)]]; [exact H|contradiction|].
      exfalso. apply (Hintact r Hrej). apply question_refs_owner.
      rewrite Hk. apply in_app_iff. left. exact Hr. }
    assert (HQ : In (QuestionDoc (ContentReaper.id q)) (D ++ P)).
    { rewrite <- Hcat. apply in_app_iff. right. apply in_app_iff. left.
      rewrite Hfull. unfold ContentReaper.question_refs.
      apply in_app_iff. right. left. reflexivity. }
    destruct Hdel as [-> | (-> & Hrej)]; [exact HQ|].
    apply in_app_iff in HQ as [HQ|HQ]; [exact HQ|].
    exfalso. apply (Hintact _ (Hrej _ HQ)). reflexivity.
Qed.

(** In [closing_commit_rejected] the run ends rejected, and A is removed
    with all its answers: the rejected commit carried B's deletes only. *)
Lemma content_reaper_cascade_witness :
  fst (ContentReaper.run Scenario.closing_commit_rejected)
  = Rejected Scenario.unavailable
  /\ ContentReaper.rejected_ops (snd (ContentReaper.run Scenario.closing_commit_rejected))
     = [AnswerDoc "B" "b1"; QuestionDoc "B"]
  /\ In (QuestionDoc "A")
       (ContentReaper.deleted (snd (ContentReaper.run Scenario.closing_commit_rejected)))
  /\ forall a, In a (Scenario.numbered 499) ->
       In (AnswerDoc "A" a)
         (ContentReaper.deleted (snd (ContentReaper.run Scenario.closing_commit_rejected))).
Proof.
  destruct (content_reaper_cascade Scenario.closing_commit_rejected) as (_ & H).
  assert (Hnd : List.NoDup (map ContentReaper.id
                              (ContentReaper.questions Scenario.closing_commit_rejected))).
  { cbn. repeat (constructor; [cbn; intuition discriminate|]). constructor. }
  assert (HA : In (Scenario.expired "A" (Scenario.numbered 499))
                 (ContentReaper.matched Scenario.closing_commit_rejected))
    by (left; reflexivity).
  destruct (H Hnd _ HA) as (Hanswers & Hquestion).
  assert (Hrej : ContentReaper.rejected_ops
                   (snd (ContentReaper.run Scenario.closing_commit_rejected))
                 = [AnswerDoc "B" "b1"; QuestionDoc "B"])
    by (vm_compute; reflexivity).
  assert (Hintact : ContentReaper.intact
                      (snd (ContentReaper.run Scenario.closing_commit_rejected))
                      (Scenario.expired "A" (Scenario.numbered 499))).
  { unfold ContentReaper.intact. rewrite Hrej.
    intros r [<-|[<-|[]]]; discriminate. }
  assert (H0 : In (AnswerDoc "A" "0")
                 (ContentReaper.deleted
                    (snd (ContentReaper.run Scenario.closing_commit_rejected))))
    by (apply In_by_decide; vm_compute; reflexivity).
  assert (HQ : In (QuestionDoc "A")
                 (ContentReaper.deleted
                    (snd (ContentReaper.run Scenario.closing_commit_rejected)))).
  { apply (Hquestion Hintact "0"); [left; reflexivity|exact H0]. }
  split; [vm_compute; reflexivity|]. split; [exact Hrej|]. split; [exact HQ|].
  intros a Ha. apply (Hanswers HQ a Ha).
Defined.

(** C7.  The code does not do what the claim says when a commit issued
    inside the loop is rejected and matched questions remain.  At
    [first_commit_rejected] a single call fails: the
    commit of the first full batch, issued while A is processed.  The
    rejection is caught and logged, but it has skipped lines 208-209: the
    committed batch stays the current one.  B is still read, its first
    delete is refused by that batch, and B is logged as failed.  The run
    returns normally, having removed A with its answers through the commit
    after the loop, and neither B nor its answer.  On the same store with
    every call accepted, B and its answer are removed. *)
Theorem content_reaper_rejected_commit_loses_later_post :
  snd (ContentReaper.run Scenario.first_commit_rejected)
  = [ContentReaper.Console ContentReaper.Starting;
     ContentReaper.QuestionsGet None;
     ContentReaper.Console (ContentReaper.Found 2);
     ContentReaper.AnswersGet "A" None;
     ContentReaper.Commit Scenario.first_batch (Some Scenario.unavailable);
     ContentReaper.Console (ContentReaper.PostError "A" Scenario.unavailable);
     ContentReaper.AnswersGet "B" None;
     ContentReaper.Console (ContentReaper.PostError "B" batch_sealed);
     ContentReaper.Commit Scenario.first_batch None;
     ContentReaper.Console (ContentReaper.Finished 1 499)]
  /\ fst (ContentReaper.run Scenario.first_commit_rejected) = Resolved tt
  /\ ContentReaper.deleted (snd (ContentReaper.run Scenario.first_commit_rejected))
     = Scenario.first_batch
  /\ bool_decide
       (QuestionDoc "B"
          ∈ ContentReaper.deleted (snd (ContentReaper.run Scenario.first_commit_rejected)))
     = false
  /\ bool_decide
       (AnswerDoc "B" "b1"
          ∈ ContentReaper.deleted (snd (ContentReaper.run Scenario.first_commit_rejected)))
     = false
  /\ fst (ContentReaper.run Scenario.two_posts) = Resolved tt
  /\ ContentReaper.deleted (snd (ContentReaper.run Scenario.two_posts))
     = Scenario.first_batch ++ [AnswerDoc "B" "b1"; QuestionDoc "B"].
Proof.
  split; [vm_compute; reflexivity|].
  split; [vm_compute; reflexivity|].
  split; [vm_compute; reflexivity|].
  split; [vm_compute; reflexivity|].
  split; [vm_compute; reflexivity|].
  split; [vm_compute; reflexivity|vm_compute; reflexivity].
Qed.
